(** * Cell-type classification, aggregation and flattening of
      [airavata_cerebrum/dataset/abc_mouse.py]

    A shallow embedding of the classification-and-aggregation core
    ([predicate_flags_df] ... [region_ccf_cell_types]) and of
    [DFBuilder.qry2dict], with the properties the specification states
    about them; then of the callers of the aggregation
    ([region_cell_type_ratios], [ABCDbMERFISH_CCFQuery.run],
    [DFBuilder.build]), of the gene filters and of the command lines of
    [aws_s3_copy] and [aws_s3_sync], with properties read off the code.

    Conventions of the embedding:
    - a Python [str] is the [string] of its UTF-8 bytes (suffix tests,
      equality, order and [replace] agree on bytes and on code points); a
      missing (NaN) entry of an object column is [None] of an
      [option string];
    - a pandas DataFrame is a list of rows, each row an index value and the
      named columns as an association list in column order; a Series is the
      list of its values in row order;
    - a Python [dict] is an association list in insertion order;
    - an operation that raises (a missing column is a [KeyError]) returns
      [None];
    - a DataFrame that reaches a function which assigns columns in place
      lives in a store and is named by a reference; a DataFrame that is
      built and then only read is a value;
    - an int64 is an integer (counts of rows do not overflow); a float64 is
      an exact rational or one of the IEEE special values. *)

From Stdlib Require Import Bool Arith ZArith QArith Lia List String Ascii.
From Stdlib Require Import ListSet Permutation Sorting.Mergesort Sorting.Sorted.
From Stdlib Require OrderedTypeEx.
Import ListNotations.

Local Close Scope Q_scope.
Local Open Scope string_scope.
Local Open Scope list_scope.

(** ** Python strings *)

Module PyStr.

(** [s.endswith(suffix)] *)
Definition endswith (s suffix : string) : bool :=
  (String.length suffix <=? String.length s)%nat
  && String.eqb
       (substring (String.length s - String.length suffix)
                  (String.length suffix) s)
       suffix.

(** The scan of [s.replace(old, new)] for a non-empty [old]: [skip] counts
    the characters of the occurrence of [old] found last that are still to
    be passed over. *)
Fixpoint replace_scan (old new s : string) (skip : nat) : string :=
  match s with
  | EmptyString => EmptyString
  | String c s' =>
      match skip with
      | S k => replace_scan old new s' k
      | O =>
          if prefix old s
          then new ++ replace_scan old new s' (String.length old - 1)
          else String c (replace_scan old new s' 0)
      end
  end.

(** For an empty [old], Python puts [new] before every character and at the
    end. *)
Fixpoint interleave (new s : string) : string :=
  match s with
  | EmptyString => new
  | String c s' => new ++ String c (interleave new s')
  end.

(** [s.replace(old, new)] *)
Definition replace (s old new : string) : string :=
  match old with
  | EmptyString => interleave new s
  | _ => replace_scan old new s 0
  end.

(** [old in s] *)
Fixpoint contains (s old : string) : bool :=
  prefix old s
  || match s with
     | EmptyString => false
     | String _ s' => contains s' old
     end.

End PyStr.

(** ** Python dicts, in insertion order *)

Module PyDict.

Section Dict.
Context {V : Type}.

Definition dict := list (string * V).

(** [d[k]] ([None] is the [KeyError]) and [d.get(k)] *)
Fixpoint get (k : string) (d : dict) : option V :=
  match d with
  | [] => None
  | (k', v) :: d' => if String.eqb k k' then Some v else get k d'
  end.

(** [d[k] = v]: an existing key keeps its place *)
Fixpoint set (k : string) (v : V) (d : dict) : dict :=
  match d with
  | [] => [(k, v)]
  | (k', v') :: d' =>
      if String.eqb k k' then (k', v) :: d' else (k', v') :: set k v d'
  end.

Definition keys (d : dict) : list string := map fst d.
Definition values (d : dict) : list V := map snd d.
Definition items (d : dict) : list (string * V) := d.

(** [d1 | d2] *)
Definition merge (d1 d2 : dict) : dict :=
  fold_left (fun d kv => set (fst kv) (snd kv) d) d2 d1.
End Dict.

Arguments dict : clear implicits.

End PyDict.

Abbreviation dict := PyDict.dict.

(** ** Sets of labels *)

Definition label_set := set string.

Definition set_of_list (l : list string) : label_set :=
  fold_left (fun s x => set_add string_dec x s) l (empty_set string).

(** [set.union] of all the given sets *)
Definition set_union_all (sets : list label_set) : label_set :=
  fold_left (set_union string_dec) sets (empty_set string).

(** [x in s], the element test of [Series.isin] *)
Definition isin (x : string) (s : label_set) : bool := set_mem string_dec x s.

(** ** Module constants *)

Definition PARCELLATION_SUBSTRUCTURE := "parcellation_substructure".
Definition PARCELLATION_STRUCTURE := "parcellation_structure".

Definition GLUT_IT_SUBCLASS_SETMAP : dict label_set :=
  [ ("IT-ENT", set_of_list
       [ "003 L5/6 IT TPE-ENT Glut"; "008 L2/3 IT ENT Glut";
         "009 L2/3 IT PIR-ENTl Glut"; "011 L2 IT ENT-po Glut" ]);
    ("IT-CTX", set_of_list
       [ "004 L6 IT CTX Glut"; "005 L5 IT CTX Glut";
         "006 L4/5 IT CTX Glut"; "007 L2/3 IT CTX Glut" ]);
    ("IT-Other", set_of_list
       [ "002 IT EP-CLA Glut"; "010 IT AON-TT-DP Glut";
         "018 L2 IT PPP-APr Glut"; "019 L2/3 IT PPP Glut";
         "020 L2/3 IT RSP Glut" ]) ].

Definition GLUT_SUBCLASS_SETMAP : dict label_set :=
  [ ("ET", set_of_list [ "022 L5 ET CTX Glut" ]);
    ("CT", set_of_list
       [ "028 L6b/CT ENT Glut"; "030 L6 CT CTX Glut"; "031 CT SUB Glut" ]);
    ("NP", set_of_list
       [ "032 L5 NP CTX Glut"; "033 NP SUB Glut"; "034 NP PPP Glut" ]);
    ("IT", set_union_all (PyDict.values GLUT_IT_SUBCLASS_SETMAP)) ].

Definition GLUT := "Glut".
Definition GLUT_TYPES := PyDict.keys GLUT_SUBCLASS_SETMAP.
Definition GLUT_IT_TYPES := PyDict.keys GLUT_IT_SUBCLASS_SETMAP.
Definition GLUT_COLUMNS :=
  [GLUT] ++ GLUT_TYPES ++ GLUT_IT_TYPES ++ ["Glut-Other"].

Definition GABA_SUBCLASS_SETMAP : dict label_set :=
  [ ("Vip", set_of_list [ "046 Vip Gaba" ]);
    ("Pvalb", set_of_list [ "051 Pvalb chandelier Gaba"; "052 Pvalb Gaba" ]);
    ("Sst", set_of_list [ "053 Sst Gaba"; "265 PB Sst Gly-Gaba" ]);
    ("Lamp5", set_of_list [ "049 Lamp5 Gaba"; "050 Lamp5 Lhx6 Gaba" ]);
    ("Sst-Chodl", set_of_list [ "056 Sst Chodl Gaba" ]) ].

Definition GABA := "GABA".
Definition GABA_TYPES := PyDict.keys GABA_SUBCLASS_SETMAP.
Definition GABA_COLUMNS :=
  [GABA] ++ PyDict.keys GABA_SUBCLASS_SETMAP ++ ["GABA-Other"].

(** [FRACTION_COLUMN_FMT.format(colx)] *)
Definition FRACTION_COLUMN_FMT (colx : string) : string := colx ++ " fraction".
Definition INHIBITORY_FRACTION_COLUMN := "inhibitory fraction".
Definition FRACTION_WI_REGION_COLUMN := "fraction wi. region".

(** ** The option monad of the operations that can raise

    [None] is returned where Python raises, and where an operation is
    applied outside the cases this development models; each such case is
    noted at its definition. *)

Definition obind {A B : Type} (c : option A) (k : A -> option B) : option B :=
  match c with
  | Some a => k a
  | None => None
  end.

Notation "'let?' x ':=' c 'in' k" := (obind c (fun x => k))
  (at level 10, x pattern, c at level 100, k at level 200).

Fixpoint omap {A B : Type} (f : A -> option B) (l : list A) : option (list B) :=
  match l with
  | [] => Some []
  | a :: l' =>
      let? b := f a in
      let? bs := omap f l' in
      Some (b :: bs)
  end.

(** A [for] loop over [l] that updates the local state [acc]. *)
Fixpoint ofold {A S : Type} (body : S -> A -> option S) (l : list A) (acc : S)
  : option S :=
  match l with
  | [] => Some acc
  | a :: l' => let? acc' := body acc a in ofold body l' acc'
  end.

(** ** Data frames *)

Module Frame.

Section Frame.
Context {I V : Type}.

Record Row := mkRow { idx : I; cols : dict V }.

Definition DataFrame := list Row.

(** [df.index] *)
Definition index (df : DataFrame) : list I := map idx df.

(** [df[name]], a Series *)
Definition column (name : string) (df : DataFrame) : option (list V) :=
  omap (fun r => PyDict.get name (cols r)) df.

(** [df[name] = series] and [df.loc[:, name] = series]; the series has
    the index of [df], so it has as many values as [df] has rows. *)
Fixpoint set_column (name : string) (series : list V) (df : DataFrame)
  : option DataFrame :=
  match df, series with
  | [], [] => Some []
  | r :: df', v :: series' =>
      let? rest := set_column name series' df' in
      Some (mkRow (idx r) (PyDict.set name v (cols r)) :: rest)
  | _, _ => None
  end.

(** [df[name] = value] for a scalar *)
Definition set_scalar (name : string) (value : V) (df : DataFrame)
  : option DataFrame :=
  set_column name (repeat value (List.length df)) df.

(** [pd.DataFrame(index=index)] *)
Definition empty_like (index : list I) : DataFrame :=
  map (fun i => mkRow i []) index.

(** [pd.DataFrame(d)] for a dict [d] of Series that all have the index
    [index].  An empty [d] gives pandas an empty index; that case is not
    modelled. *)
Definition from_dict (index : list I) (d : dict (list V)) : option DataFrame :=
  match d with
  | [] => None
  | _ => ofold (fun df kv => set_column (fst kv) (snd kv) df)
               (PyDict.items d) (empty_like index)
  end.

(** [pd.concat([df1, df2], axis=1)] for two frames with the same index:
    the columns of [df2] follow those of [df1], also when a name is in
    both.  Frames with different indexes are not modelled. *)
Fixpoint concat_columns (df1 df2 : DataFrame) : option DataFrame :=
  match df1, df2 with
  | [], [] => Some []
  | r1 :: df1', r2 :: df2' =>
      let? rest := concat_columns df1' df2' in
      Some (mkRow (idx r1) (cols r1 ++ cols r2) :: rest)
  | _, _ => None
  end.

(** [df.loc[mask]] for a boolean mask computed row by row *)
Definition loc_rows (mask : Row -> bool) (df : DataFrame) : DataFrame :=
  filter mask df.

(** [df[names]]: the named columns, in the order of [names] *)
Definition select (names : list string) (df : DataFrame) : option DataFrame :=
  omap (fun r =>
          let? cs := omap (fun n => let? v := PyDict.get n (cols r) in
                                    Some (n, v)) names in
          Some (mkRow (idx r) cs)) df.

(** The column names of a frame with at least one row. *)
Definition columns (df : DataFrame) : list string :=
  match df with
  | [] => []
  | r :: _ => PyDict.keys (cols r)
  end.
End Frame.

Arguments Row : clear implicits.
Arguments DataFrame : clear implicits.

(** [df.any(axis=1)] on boolean columns *)
Definition any_columns {I : Type} (df : DataFrame I bool) : list bool :=
  map (fun r => existsb (fun b => b) (PyDict.values (cols r))) df.

(** Element-wise [~s] and [s1 & s2] of boolean Series with the same index *)
Definition series_not (s : list bool) : list bool := map negb s.

Definition series_and (s1 s2 : list bool) : list bool :=
  map (fun p => fst p && snd p) (combine s1 s2).

(** Element-wise [s1 + s2] of integer Series with the same index *)
Definition series_add (s1 s2 : list Z) : list Z :=
  map (fun p => (fst p + snd p)%Z) (combine s1 s2).

End Frame.

Import Frame.

(** ** Floating-point results

    A float64 is an exact rational or a special value; rounding is not
    modelled: [FNum q] stands for the float64 that one division with the
    exact result [q] gives.  Floats are never added here; a statement on
    a sum is a statement on the exact results, in [Q]. *)

Inductive float :=
| FNum (q : Q)
| FNaN
| FPosInf
| FNegInf.

(** [a / b] of two int64 entries of Series, as numpy divides: a zero
    divisor gives NaN or an infinity and does not raise. *)
Definition int_truediv (a b : Z) : float :=
  if (b =? 0)%Z then
    if (a =? 0)%Z then FNaN
    else if (0 <? a)%Z then FPosInf else FNegInf
  else FNum (inject_Z a / inject_Z b).

(** Series / Series and Series / int, for an int in the int64 range *)
Definition series_div (s1 s2 : list Z) : list float :=
  map (fun p => int_truediv (fst p) (snd p)) (combine s1 s2).

Definition series_div_scalar (s : list Z) (n : Z) : list float :=
  map (fun a => int_truediv a n) s.

(** ** The cell metadata table

    A row of the table read from the metadata file: the columns this module
    reads.  The [class] and [subclass] columns hold strings; the two
    parcellation columns may be missing (NaN). *)

Record Cell := mkCell {
  class : string;
  subclass : string;
  parcellation_structure : option string;
  parcellation_substructure : option string
}.

(** A cell frame: the row of the metadata table is kept with the row label,
    the boolean columns the classifier adds are the named columns. *)
Definition CellFrame := DataFrame Cell bool.

(** The table as read, before any flag column is added. *)
Definition of_cells (cells : list Cell) : CellFrame :=
  map (fun c => mkRow c []) cells.

(** ** The store of cell frames *)

Module Store.

Definition ref := nat.
Definition store := list CellFrame.

(** A computation that reads and writes the store, or raises. *)
Definition M (A : Type) := store -> option (A * store).

Definition ret {A : Type} (a : A) : M A := fun st => Some (a, st).

Definition bind {A B : Type} (c : M A) (k : A -> M B) : M B :=
  fun st => match c st with
            | Some (a, st') => k a st'
            | None => None
            end.

Definition lift {A : Type} (c : option A) : M A :=
  fun st => match c with
            | Some a => Some (a, st)
            | None => None
            end.

(** The frame a reference names. *)
Definition read (r : ref) : M CellFrame :=
  fun st => match nth_error st r with
            | Some df => Some (df, st)
            | None => None
            end.

(** A new frame object. *)
Definition alloc (df : CellFrame) : M ref :=
  fun st => Some (List.length st, st ++ [df]).

Fixpoint update (r : ref) (df : CellFrame) (st : store) : option store :=
  match st, r with
  | [], _ => None
  | _ :: st', O => Some (df :: st')
  | df' :: st', S r' => let? st'' := update r' df st' in Some (df' :: st'')
  end.

(** An assignment into the frame object [r]. *)
Definition write (r : ref) (df : CellFrame) : M unit :=
  fun st => match update r df st with
            | Some st' => Some (tt, st')
            | None => None
            end.

(** The frame has two columns of the name. *)
Definition twice (name : string) (df : CellFrame) : bool :=
  existsb (fun row =>
             (2 <=? List.length (filter (String.eqb name)
                                   (PyDict.keys (cols row))))%nat) df.

(** [r.loc[:, name] = series], in place; pandas raises when the frame has
    two columns of the name. *)
Definition assign_column (r : ref) (name : string) (series : list bool)
  : M unit :=
  bind (read r) (fun df =>
  if twice name df then lift None
  else
    bind (lift (set_column name series df)) (fun df' =>
    write r df')).

(** [r.copy()] *)
Definition copy (r : ref) : M ref :=
  bind (read r) alloc.

(** A [for] loop whose body has effects on the store. *)
Fixpoint for_each {A : Type} (l : list A) (body : A -> M unit) : M unit :=
  match l with
  | [] => ret tt
  | a :: l' => bind (body a) (fun _ => for_each l' body)
  end.

(** A [for] loop that also updates the local state [acc]. *)
Fixpoint fold {A S : Type} (body : S -> A -> M S) (l : list A) (acc : S)
  : M S :=
  match l with
  | [] => ret acc
  | a :: l' => bind (body acc a) (fun acc' => fold body l' acc')
  end.

End Store.

Import Store.

Notation "x <- c1 ;; c2" := (bind c1 (fun x => c2))
  (at level 61, c1 at next level, right associativity).
Notation "c1 ;; c2" := (bind c1 (fun _ => c2))
  (at level 61, right associativity).

(** ** TaxonomyClassifier *)

(** [predicate_flags_df] *)
Definition predicate_flags_df
    (area_cell_df : CellFrame)
    (flag_key_map : dict string)
    (select_col : Cell -> string)
    (pred_fn : list string -> string -> list bool)
    (exclude_column : option string) : option CellFrame :=
  let pred_dct :=
    fold_left
      (fun d kv =>
         PyDict.set (fst kv)
           (pred_fn (map select_col (index area_cell_df)) (snd kv)) d)
      (PyDict.items flag_key_map) [] in
  let? pred_df := from_dict (index area_cell_df) pred_dct in
  match exclude_column with
  | None | Some EmptyString => Some pred_df
  | Some exclude_column =>
      set_column exclude_column (series_not (any_columns pred_df)) pred_df
  end.

(** [concat_predicate_flags_df]: the result of [pd.concat] is a new frame. *)
Definition concat_predicate_flags_df
    (area_cell_df : ref)
    (flag_key_map : dict string)
    (select_col : Cell -> string)
    (pred_fn : list string -> string -> list bool)
    (exclude_column : option string) : M ref :=
  df <- read area_cell_df ;;
  pred_df <- lift (predicate_flags_df df flag_key_map select_col pred_fn
                     exclude_column) ;;
  both <- lift (concat_columns df pred_df) ;;
  alloc both.

Definition endswith_pred_fn (df_col : list string) (skey : string)
  : list bool :=
  map (fun s => PyStr.endswith s skey) df_col.

(** [cell_meta_ei_flags] *)
Definition cell_meta_ei_flags (area_cell_df : ref) : M ref :=
  let flag_key_map := [("E", "Glut"); ("I", "GABA")] in
  concat_predicate_flags_df area_cell_df flag_key_map class endswith_pred_fn
    (Some "O").

(** [cell_meta_subclass_flags] *)
Definition cell_meta_subclass_flags
    (area_cell_df : CellFrame)
    (subclass_mapset : dict label_set) : dict (list bool) :=
  fold_left
    (fun pred_subclass kv =>
       PyDict.set (fst kv)
         (map (fun c => isin (subclass c) (snd kv)) (index area_cell_df))
         pred_subclass)
    (PyDict.items subclass_mapset) [].

(** [df.loc[:, names].any(axis="columns")] *)
Definition any_of (names : list string) (df : CellFrame) : option (list bool) :=
  let? sel := select names df in
  Some (any_columns sel).

(** [cell_meta_gaba_flags]: the columns are assigned into the frame passed
    in, which is also the frame returned. *)
Definition cell_meta_gaba_flags (area_cell_df : ref) : M ref :=
  df <- read area_cell_df ;;
  if (List.length df =? 0)%nat then ret area_cell_df
  else
    let pred_gaba :=
      map (fun c => PyStr.endswith (subclass c) "Gaba") (index df) in
    let pred_gaba_subclass_map :=
      cell_meta_subclass_flags df GABA_SUBCLASS_SETMAP in
    assign_column area_cell_df "GABA" pred_gaba ;;
    for_each (PyDict.items pred_gaba_subclass_map)
      (fun kv => assign_column area_cell_df (fst kv) (snd kv)) ;;
    let gaba_classifieds := ["Vip"; "Pvalb"; "Sst"; "Sst-Chodl"; "Lamp5"] in
    df' <- read area_cell_df ;;
    pred_gaba_classified <- lift (any_of gaba_classifieds df') ;;
    assign_column area_cell_df "GABA-Other"
      (series_and pred_gaba (series_not pred_gaba_classified)) ;;
    ret area_cell_df.

(** [cell_meta_glut_flags] *)
Definition cell_meta_glut_flags (area_cell_df : ref) : M ref :=
  df <- read area_cell_df ;;
  if (List.length df =? 0)%nat then ret area_cell_df
  else
    let pred_glut :=
      map (fun c => PyStr.endswith (subclass c) "Glut") (index df) in
    let pred_glut_subclass_map :=
      cell_meta_subclass_flags df
        (PyDict.merge GLUT_SUBCLASS_SETMAP GLUT_IT_SUBCLASS_SETMAP) in
    assign_column area_cell_df "Glut" pred_glut ;;
    for_each (PyDict.items pred_glut_subclass_map)
      (fun kv => assign_column area_cell_df (fst kv) (snd kv)) ;;
    let glut_classifieds := ["ET"; "CT"; "IT"; "NP"] in
    df' <- read area_cell_df ;;
    pred_glut_classified <- lift (any_of glut_classifieds df') ;;
    assign_column area_cell_df "Glut-Other"
      (series_and pred_glut (series_not pred_glut_classified)) ;;
    ret area_cell_df.

(** [cell_meta_type_flags] *)
Definition cell_meta_type_flags (area_cell_df : ref) : M ref :=
  r1 <- cell_meta_ei_flags area_cell_df ;;
  r2 <- cell_meta_gaba_flags r1 ;;
  cell_meta_glut_flags r2.

(** ** RegionAggregator *)

(** The order of the group keys: Python compares strings by code point. *)
Module StringOrder <: Orders.TotalLeBool.
Definition t := string.
Definition leb := String.leb.
Theorem leb_total : forall s1 s2, leb s1 s2 = true \/ leb s2 s1 = true.
Proof. exact String.leb_total. Qed.
End StringOrder.

Module StringSort := Sort StringOrder.

(** The entries of a Series that are not missing. *)
Fixpoint dropna (s : list (option string)) : list string :=
  match s with
  | [] => []
  | Some x :: s' => x :: dropna s'
  | None :: s' => dropna s'
  end.

(** The labels of the groups of [df.groupby(key)]: the distinct values of
    the key column, missing values dropped, sorted. *)
Definition group_keys (s : list (option string)) : list string :=
  StringSort.sort (nodup string_dec (dropna s)).

Definition key_is (k : string) (v : option string) : bool :=
  match v with
  | Some x => String.eqb x k
  | None => false
  end.

Definition sum_bool (s : list bool) : Z :=
  fold_right (fun b n => (Z.b2z b + n)%Z) 0%Z s.

(** [df.groupby(key).sum()] on a cell frame whose named columns are the
    columns to sum: one row per group, labelled by the group key. *)
Definition groupby_sum (key : Cell -> option string) (df : CellFrame)
  : option (DataFrame string Z) :=
  omap (fun k =>
          let group := filter (fun r => key_is k (key (idx r))) df in
          let? sums :=
            omap (fun name => let? s := column name group in
                              Some (name, sum_bool s)) (columns df) in
          Some (mkRow k sums))
       (group_keys (map key (index df))).

(** The columns of the metadata table; in this development they stay with
    the row of a cell frame and are not selected by name. *)
Definition is_cell_column (name : string) : bool :=
  existsb (String.eqb name)
    ["class"; "subclass"; PARCELLATION_STRUCTURE; PARCELLATION_SUBSTRUCTURE].

(** [df[names].copy()] on a cell frame *)
Definition select_cell_columns (names : list string) (df : CellFrame)
  : option CellFrame :=
  select (filter (fun n => negb (is_cell_column n)) names) df.

(** ** FractionComputer *)

(** The entries of a ratio table. *)
Inductive rval :=
| RStr (s : string)
| RInt (n : Z)
| RFloat (x : float).

Definition CountFrame := DataFrame string Z.
Definition RatioFrame := DataFrame string rval.

(** One pass of the loops over the subtype columns of
    [cell_meta_type_ratios]. *)
Definition fraction_columns (area_sumdf : CountFrame) (types : list string)
    (total : string) (ratio_df : RatioFrame) : option RatioFrame :=
  ofold (fun ratio_df colx =>
           let fraction_col := FRACTION_COLUMN_FMT colx in
           let? a := column colx area_sumdf in
           let? b := column total area_sumdf in
           set_column fraction_col (map RFloat (series_div a b)) ratio_df)
        types ratio_df.

(** [cell_meta_type_ratios] *)
Definition cell_meta_type_ratios (area_sumdf : CountFrame) (ax : string)
    (nregion : Z) : option RatioFrame :=
  let ratio_df : RatioFrame := empty_like (index area_sumdf) in
  let? ratio_df := set_scalar "Region" (RStr ax) ratio_df in
  let? ratio_df :=
    set_column "Layer"
      (map (fun x => RStr (PyStr.replace x ax "")) (index ratio_df))
      ratio_df in
  let? ratio_df := set_scalar "nregion" (RInt nregion) ratio_df in
  let? i := column "I" area_sumdf in
  let? ei := column "EI" area_sumdf in
  let? ratio_df :=
    set_column INHIBITORY_FRACTION_COLUMN (map RFloat (series_div i ei))
      ratio_df in
  let? t := column "T" area_sumdf in
  let? ratio_df :=
    set_column FRACTION_WI_REGION_COLUMN
      (map RFloat (series_div_scalar t nregion)) ratio_df in
  let? ratio_df := fraction_columns area_sumdf GABA_TYPES GABA ratio_df in
  let? ratio_df := fraction_columns area_sumdf GLUT_IT_TYPES GLUT ratio_df in
  let? ratio_df := fraction_columns area_sumdf GLUT_TYPES GLUT ratio_df in
  Some ratio_df.

(** ** Orchestrator *)

Definition structure_is (region : string) (r : Row Cell bool) : bool :=
  key_is region (parcellation_structure (idx r)).

(** The three mappings [region_ccf_cell_types] returns. *)
Record RegionTables := mkTables {
  region_cell_ccf : dict ref;
  region_ctx_ccf : dict CountFrame;
  region_frac_ccf : dict RatioFrame
}.

(** The body of the loop over [region_list] in [region_ccf_cell_types];
    [out] holds the three mappings built so far, and [continue] leaves them
    as they are. *)
Definition region_loop_body (cell_ccf : ref) (sel_cols : list string)
    (out : RegionTables) (region : string) : M RegionTables :=
  df <- read cell_ccf ;;
  region_df <- alloc (loc_rows (structure_is region) df) ;;
  rdf <- read region_df ;;
  if (List.length rdf =? 0)%nat then ret out
  else
    region_df <- copy region_df ;;
    region_df <- cell_meta_type_flags region_df ;;
    rdf <- read region_df ;;
    region_ei_df <- lift (select_cell_columns sel_cols rdf) ;;
    region_ei_ctx <-
      lift (groupby_sum parcellation_substructure region_ei_df) ;;
    e <- lift (column "E" region_ei_ctx) ;;
    i <- lift (column "I" region_ei_ctx) ;;
    o <- lift (column "O" region_ei_ctx) ;;
    region_ei_ctx <-
      lift (set_column "T" (series_add (series_add e i) o) region_ei_ctx) ;;
    e <- lift (column "E" region_ei_ctx) ;;
    i <- lift (column "I" region_ei_ctx) ;;
    region_ei_ctx <- lift (set_column "EI" (series_add e i) region_ei_ctx) ;;
    let n_region_layers := Z.of_nat (List.length rdf) in
    let region_name := region in
    region_ei_ratio <-
      lift (cell_meta_type_ratios region_ei_ctx region_name n_region_layers) ;;
    ret (mkTables
           (PyDict.set region region_df (region_cell_ccf out))
           (PyDict.set region region_ei_ctx (region_ctx_ccf out))
           (PyDict.set region region_ei_ratio (region_frac_ccf out))).

(** [region_ccf_cell_types] *)
Definition region_ccf_cell_types (cell_ccf : ref) (region_list : list string)
  : M RegionTables :=
  let ei_cols := [PARCELLATION_SUBSTRUCTURE; "E"; "I"; "O"] in
  let sel_cols := ei_cols ++ GABA_COLUMNS ++ GLUT_COLUMNS in
  Store.fold (region_loop_body cell_ccf sel_cols) region_list
    (mkTables [] [] []).

(** ** ResultFlattener *)

(** A value of a result map: a scalar or a key-value map. *)
#[warnings="-register-all"]
Inductive pyval :=
| PScalar (v : rval)
| PMap (m : list (string * pyval)).

Module DFBuilder.

(** [isinstance(v, collections.abc.Mapping)] *)
Definition is_mapping (v : pyval) : bool :=
  match v with
  | PMap _ => true
  | PScalar _ => false
  end.

(** [DFBuilder.has_sub_region] *)
Definition has_sub_region (region_dct : dict pyval) : bool :=
  existsb is_mapping (PyDict.values region_dct).

(** [DFBuilder.qry2dict] *)
Definition qry2dict (in_iter : list (dict (dict pyval))) : list pyval :=
  fold_left
    (fun subr_stats qry_result =>
       fold_left
         (fun subr_stats rx_region_dct =>
            let region_dct := snd rx_region_dct in
            if has_sub_region region_dct then
              fold_left
                (fun subr_stats subregion_dct => subr_stats ++ [subregion_dct])
                (PyDict.values region_dct) subr_stats
            else subr_stats ++ [PMap region_dct])
         (PyDict.items qry_result) subr_stats)
    in_iter [].

End DFBuilder.

(** ** The classifier, row by row

    What the classifier computes for one cell, written as functions of the
    cell; the lemmas below show that the frames the code builds have these
    rows. *)

Definition flag_E (c : Cell) : bool := PyStr.endswith (class c) "Glut".
Definition flag_I (c : Cell) : bool := PyStr.endswith (class c) "GABA".
Definition flag_O (c : Cell) : bool := negb (flag_E c || flag_I c).

(** The columns [cell_meta_ei_flags] adds to the row of [c]. *)
Definition ei_flags (c : Cell) : dict bool :=
  [("E", flag_E c); ("I", flag_I c); ("O", flag_O c)].

(** The value of the flag [name] of a subclass table [m] on the cell [c]. *)
Definition member (m : dict label_set) (name : string) (c : Cell) : bool :=
  match PyDict.get name m with
  | Some s => isin (subclass c) s
  | None => false
  end.

Definition any_member (m : dict label_set) (names : list string) (c : Cell)
  : bool :=
  existsb (fun b => b) (map (fun n => member m n c) names).

Definition flag_GABA (c : Cell) : bool := PyStr.endswith (subclass c) "Gaba".
Definition flag_Glut (c : Cell) : bool := PyStr.endswith (subclass c) "Glut".

Definition GLUT_ALL_SETMAP : dict label_set :=
  PyDict.merge GLUT_SUBCLASS_SETMAP GLUT_IT_SUBCLASS_SETMAP.

Definition flag_GABA_Other (c : Cell) : bool :=
  flag_GABA c
  && negb (any_member GABA_SUBCLASS_SETMAP
             ["Vip"; "Pvalb"; "Sst"; "Sst-Chodl"; "Lamp5"] c).

Definition flag_Glut_Other (c : Cell) : bool :=
  flag_Glut c
  && negb (any_member GLUT_ALL_SETMAP ["ET"; "CT"; "IT"; "NP"] c).

(** The columns [cell_meta_gaba_flags] and [cell_meta_glut_flags] add. *)
Definition gaba_flags (c : Cell) : dict bool :=
  [("GABA", flag_GABA c)]
  ++ map (fun n => (n, member GABA_SUBCLASS_SETMAP n c)) GABA_TYPES
  ++ [("GABA-Other", flag_GABA_Other c)].

Definition glut_flags (c : Cell) : dict bool :=
  [("Glut", flag_Glut c)]
  ++ map (fun n => (n, member GLUT_ALL_SETMAP n c))
       (GLUT_TYPES ++ GLUT_IT_TYPES)
  ++ [("Glut-Other", flag_Glut_Other c)].

(** The row [cell_meta_type_flags] makes of the cell [c]. *)
Definition classified (c : Cell) : Row Cell bool :=
  mkRow c (ei_flags c ++ gaba_flags c ++ glut_flags c).


(** ** Reading the flags of a classified record *)

(** The flag [name] of a record; [None] when the record has no such column. *)
Definition flag (name : string) (row : Row Cell bool) : option bool :=
  PyDict.get name (cols row).

(** How many of the flags [names] of a record are true. *)
Definition count_true (names : list string) (row : Row Cell bool)
  : option nat :=
  let? bs := omap (fun n => flag n row) names in
  Some (List.length (filter (fun b => b) bs)).

(** Two label sets share no label. *)
Definition disjointb (a b : label_set) : bool :=
  forallb (fun x => negb (isin x b)) a.

(** A small metadata table: a region with two substructures, and a region
    with one cell in a substructure and one cell outside any. *)
Definition sample_cells : list Cell :=
  [ mkCell "01 IT-ET Glut" "007 L2/3 IT CTX Glut" (Some "VISp") (Some "VISp1");
    mkCell "01 IT-ET Glut" "004 L6 IT CTX Glut" (Some "VISp") (Some "VISp1");
    mkCell "01 IT-ET Glut" "001 CLA-EPd-CTX Car3 Glut" (Some "VISp")
      (Some "VISp1");
    mkCell "07 CTX-MGE GABA" "052 Pvalb Gaba" (Some "VISp") (Some "VISp1");
    mkCell "06 CTX-CGE GABA" "047 Sncg Gaba" (Some "VISp") (Some "VISp1");
    mkCell "01 IT-ET Glut" "022 L5 ET CTX Glut" (Some "VISp") (Some "VISp5");
    mkCell "07 CTX-MGE GABA" "053 Sst Gaba" (Some "VISp") (Some "VISp5");
    mkCell "30 Astro-Epen" "319 Astro-TE NN" (Some "VISp") (Some "VISp5");
    mkCell "33 Vascular" "333 Endo NN" (Some "MOp") (Some "MOp1");
    mkCell "34 Immune" "334 Microglia NN" (Some "MOp") None ].

(** Two records with the same [subclass] and different [class]. *)
Definition same_subclass_cells : list Cell :=
  [ mkCell "09 CNU-LGE GABA" "061 STR D1 Gaba" (Some "STR") (Some "STRd");
    mkCell "01 IT-ET Glut" "061 STR D1 Gaba" (Some "STR") (Some "STRd") ].

(** A record whose [class] is excitatory and whose [subclass] carries no
    lineage suffix. *)
Definition unsuffixed_cells : list Cell :=
  [ mkCell "01 IT-ET Glut" "L2/3 IT CTX" (Some "VISp") (Some "VISp1") ].

(** The regions asked for: one with two substructures, one without cells,
    and one with a cell outside any substructure. *)
Definition sample_regions : list string := ["VISp"; "SSp"; "MOp"].

(** ** The count and ratio tables, row by row *)

(** How many cells of [grp] have the flag [f]. *)
Definition cnt (f : Cell -> bool) (grp : list Cell) : Z :=
  sum_bool (map f grp).

(** The flag columns of a classified record, in column order. *)
Definition flag_fns : list (string * (Cell -> bool)) :=
  [ ("E", flag_E); ("I", flag_I); ("O", flag_O); ("GABA", flag_GABA) ]
  ++ map (fun n => (n, member GABA_SUBCLASS_SETMAP n)) GABA_TYPES
  ++ [ ("GABA-Other", flag_GABA_Other); ("Glut", flag_Glut) ]
  ++ map (fun n => (n, member GLUT_ALL_SETMAP n)) (GLUT_TYPES ++ GLUT_IT_TYPES)
  ++ [ ("Glut-Other", flag_Glut_Other) ].

(** The cells of a region, and the cells of a substructure. *)
Definition region_cells (region : string) (cells : list Cell) : list Cell :=
  filter (fun c => key_is region (parcellation_structure c)) cells.

Definition substructure_cells (k : string) (cells : list Cell) : list Cell :=
  filter (fun c => key_is k (parcellation_substructure c)) cells.

(** The RegionCountRow of the substructure [k] of a region with the cells
    [cs]: the sums of the flag columns over the cells of [k], then the
    derived columns. *)
Definition count_row (cs : list Cell) (k : string) : Row string Z :=
  let grp := substructure_cells k cs in
  mkRow k
    (map (fun nf => (fst nf, cnt (snd nf) grp)) flag_fns
     ++ [ ("T", (cnt flag_E grp + cnt flag_I grp + cnt flag_O grp)%Z);
          ("EI", (cnt flag_E grp + cnt flag_I grp)%Z) ]).

Definition count_table (cs : list Cell) : CountFrame :=
  map (count_row cs) (group_keys (map parcellation_substructure cs)).

(** An entry of a count row; 0 when the row has no such column. *)
Definition count_of (name : string) (r : Row string Z) : Z :=
  match PyDict.get name (cols r) with
  | Some n => n
  | None => 0%Z
  end.

(** The columns of the count table [cell_meta_type_ratios] reads. *)
Definition RATIO_INPUT_COLUMNS : list string :=
  ["I"; "EI"; "T"; GABA; GLUT] ++ GABA_TYPES ++ GLUT_IT_TYPES ++ GLUT_TYPES.

Definition has_columns (names : list string) (r : Row string Z) : Prop :=
  Forall (fun n => PyDict.get n (cols r) <> None) names.

Definition fraction_of (total : string) (r : Row string Z) (colx : string)
  : string * rval :=
  (FRACTION_COLUMN_FMT colx,
   RFloat (int_truediv (count_of colx r) (count_of total r))).

(** The FractionRow [cell_meta_type_ratios] makes of a count row. *)
Definition ratio_row (ax : string) (nregion : Z) (r : Row string Z)
  : Row string rval :=
  mkRow (idx r)
    ([ ("Region", RStr ax);
       ("Layer", RStr (PyStr.replace (idx r) ax ""));
       ("nregion", RInt nregion);
       (INHIBITORY_FRACTION_COLUMN,
        RFloat (int_truediv (count_of "I" r) (count_of "EI" r)));
       (FRACTION_WI_REGION_COLUMN,
        RFloat (int_truediv (count_of "T" r) nregion)) ]
     ++ map (fraction_of GABA r) GABA_TYPES
     ++ map (fraction_of GLUT r) GLUT_IT_TYPES
     ++ map (fraction_of GLUT r) GLUT_TYPES).

Definition ratio_table (region : string) (cs : list Cell) : RatioFrame :=
  map (ratio_row region (Z.of_nat (List.length cs))) (count_table cs).

(** ** The loop of [region_ccf_cell_types], step by step *)

(** The mappings after the loop body has run for [region], when the store
    had [n] frames before. *)
Definition step_tables (cells : list Cell) (n : nat) (out : RegionTables)
    (region : string) : RegionTables :=
  let cs := region_cells region cells in
  match cs with
  | [] => out
  | _ =>
      mkTables
        (PyDict.set region (n + 2) (region_cell_ccf out))
        (PyDict.set region (count_table cs) (region_ctx_ccf out))
        (PyDict.set region (ratio_table region cs) (region_frac_ccf out))
  end.

(** The frames the loop body adds to the store for [region]: the rows
    selected from the table; then, unless there are none, their copy and
    the classified frame. *)
Definition step_frames (cells : list Cell) (region : string) : store :=
  let cs := region_cells region cells in
  match cs with
  | [] => [of_cells cs]
  | _ => [of_cells cs; of_cells cs; map classified cs]
  end.

Definition step (cells : list Cell) (acc : RegionTables * store)
    (region : string) : RegionTables * store :=
  (step_tables cells (List.length (snd acc)) (fst acc) region,
   snd acc ++ step_frames cells region).

(** The sum of a list of rationals. *)
Definition Qsum (l : list Q) : Q := fold_right Qplus 0%Q l.

(** ** The rows the specification asks of the flattener *)

(** The innermost leaf maps below a value, in traversal order: a map none
    of whose values is a map is its own only leaf map. *)
Fixpoint leaf_maps (v : pyval) : list pyval :=
  match v with
  | PScalar _ => []
  | PMap m =>
      if existsb DFBuilder.is_mapping (PyDict.values m)
      then (fix below (l : list (string * pyval)) : list pyval :=
              match l with
              | [] => []
              | kv :: l' => leaf_maps (snd kv) ++ below l'
              end) m
      else [PMap m]
  end.

(** A map none of whose values is a map. *)
Definition is_leaf_map (v : pyval) : bool :=
  match v with
  | PMap m =>
      forallb (fun v' => negb (DFBuilder.is_mapping v')) (PyDict.values m)
  | PScalar _ => false
  end.

(** The value map of a region as a query produces it: a leaf map, or one
    extra level of leaf maps. *)
Definition well_nested (region_dct : dict pyval) : bool :=
  is_leaf_map (PMap region_dct)
  || forallb is_leaf_map (PyDict.values region_dct).

(** Two query results: the first has a region with one row per
    substructure and a region whose value map is itself a row. *)
Definition sample_results : list (dict (dict pyval)) :=
  [ [ ("VISp",
       [ ("VISp1", PMap [("Region", PScalar (RStr "VISp"));
                         ("nregion", PScalar (RInt 8))]);
         ("VISp5", PMap [("Region", PScalar (RStr "VISp"));
                         ("nregion", PScalar (RInt 8))]) ]);
      ("MOp",
       [ ("Region", PScalar (RStr "MOp"));
         ("inhibitory fraction", PScalar (RFloat FNaN)) ]) ];
    [ ("SSp", [ ("SSp1", PMap [("Region", PScalar (RStr "SSp"))]) ]) ] ].

(** ** The label the specification asks of a FractionRow *)



(** ** Sums over the columns of a count row *)

(** The entry [total] of a row is the sum of its entries [parts]. *)
Definition sums_to (total : string) (parts : list string) (row : Row string Z)
  : Prop :=
  exists (t : Z) (ps : list Z),
    PyDict.get total (cols row) = Some t /\
    omap (fun n => PyDict.get n (cols row)) parts = Some ps /\
    t = fold_right Z.add 0%Z ps.

(** The entry [name] of a ratio row is a share of [total]: not a number
    when [total] is 0, and a number between 0 and 1 otherwise. *)
Definition share_entry (total : Z) (name : string) (frow : Row string rval)
  : Prop :=
  (total = 0%Z -> PyDict.get name (cols frow) = Some (RFloat FNaN)) /\
  ((0 < total)%Z ->
   exists q : Q,
     PyDict.get name (cols frow) = Some (RFloat (FNum q)) /\
     (0 <= q)%Q /\ (q <= 1)%Q).

(** ** The regions of a result *)

(** The distinct entries of a list, each at its first place: the order of
    the keys of a dict that is filled by assignments in list order. *)
Fixpoint first_occurrences (l : list string) : list string :=
  match l with
  | [] => []
  | x :: l' =>
      x :: filter (fun y => negb (String.eqb y x)) (first_occurrences l')
  end.

(** The table has a record of the region. *)
Definition has_records (cells : list Cell) (region : string) : bool :=
  existsb (fun c => key_is region (parcellation_structure c)) cells.

(** The keys of a dict after an assignment to the key [k]. *)
Definition add_key (k : string) (ks : list string) : list string :=
  if existsb (String.eqb k) ks then ks else ks ++ [k].

(** The records that carry a substructure value. *)
Definition with_substructure (cs : list Cell) : list Cell :=
  filter (fun c => match parcellation_substructure c with
                   | Some _ => true
                   | None => false
                   end) cs.

(** ** The callers of the aggregation

    The project cache, the CSV reader and the polars constructor are not
    code of this module: they are given by what they return, [None] when
    they raise.  What the cache returns for a metadata file is a value of
    the type [P] (a path), with the truth value Python gives it. *)

Definition PARCEL_META_DATA_KEY := "cell_metadata_with_parcellation_annotation".
Definition MERFISH_CCF_DATASET_KEY := "MERFISH-C57BL6J-638850-CCF".

(** The truth value of a [str]. *)
Definition str_truthy (s : string) : bool :=
  match s with
  | EmptyString => false
  | _ => true
  end.

Section Callers.

Context {P PL : Type}.

(** The methods of an [AbcProjectCache] this module calls. *)
Record ProjectCache := mkCache {
  list_directories : list string;
  get_directory_metadata : string -> option P;
  get_metadata_path : string -> string -> option P
}.

(** [AbcProjectCache.from_s3_cache(download_base)] followed by
    [load_manifest()] *)
Variable from_s3_cache : string -> option ProjectCache.

(** [bool(path)] *)
Variable truthy : P -> bool.

(** [pd.read_csv(path)], as the rows of the table *)
Variable read_csv : P -> option (list Cell).

(** [pl.DataFrame(rows)] *)
Variable pl_DataFrame : list pyval -> option PL.

(** [abc_cache_download_meta]: the outer [None] is an exception that
    leaves the function, the inner one the value [None]; what the [try]
    block raises is caught and logged. *)
Definition abc_cache_download_meta (download_base abc_data_key : string)
    (meta_key : option string) : option (option P) :=
  let? pcache := from_s3_cache download_base in
  if negb (existsb (String.eqb abc_data_key) (list_directories pcache))
  then Some None
  else
    match get_directory_metadata pcache abc_data_key with
    | None => Some None
    | Some metadata_path =>
        match meta_key with
        | Some key =>
            if str_truthy key then
              match get_metadata_path pcache abc_data_key key with
              | None => Some None
              | Some metadata_path => Some (Some metadata_path)
              end
            else Some (Some metadata_path)
        | None => Some (Some metadata_path)
        end
    end.

(** [cell_ccf_meta]: the table read is a new frame. *)
Definition cell_ccf_meta (ccf_meta_file : P) : M ref :=
  cells <- lift (read_csv ccf_meta_file) ;;
  alloc (of_cells cells).

(** [region_cell_type_ratios]: the value [None] is returned when the
    metadata file is not there. *)
Definition region_cell_type_ratios (region_name download_base : string)
    (merfish_ccf_data_key parcel_meta_data_key : string)
  : M (option RatioFrame) :=
  ccf_meta_file <-
    lift (abc_cache_download_meta download_base merfish_ccf_data_key
            (Some parcel_meta_data_key)) ;;
  match ccf_meta_file with
  | Some ccf_meta_file =>
      if truthy ccf_meta_file then
        cell_ccf <- cell_ccf_meta ccf_meta_file ;;
        out <- region_ccf_cell_types cell_ccf [region_name] ;;
        frac <- lift (PyDict.get region_name (region_frac_ccf out)) ;;
        ret (Some frac)
      else ret None
  | None => ret None
  end.

(** [df.to_dict(orient="index")] on a ratio table: a map from the row
    label to the map of the row; pandas raises when a label is there
    twice. *)
Definition row_dict (cs : dict rval) : pyval :=
  PMap (fold_left (fun d kv => PyDict.set (fst kv) (PScalar (snd kv)) d) cs []).

Fixpoint uniqueb (l : list string) : bool :=
  match l with
  | [] => true
  | x :: l' => negb (existsb (String.eqb x) l') && uniqueb l'
  end.

Definition to_dict_index (df : RatioFrame) : option (dict pyval) :=
  if uniqueb (index df)
  then Some (fold_left (fun d r => PyDict.set (idx r) (row_dict (cols r)) d)
               df [])
  else None.

(** The fields of an [ABCDbMERFISH_CCFQuery] that [run] reads. *)
Record ABCDbMERFISH_CCFQuery := mkQuery {
  download_base : string;
  ccf_meta_file : P
}.

Record ExecParams := mkExecParams { region : list string }.

(** [ABCDbMERFISH_CCFQuery.run]: one result map, from the region to the
    rows of its ratio table. *)
Definition run (self : ABCDbMERFISH_CCFQuery) (exec_params : ExecParams)
  : M (list (dict (dict pyval))) :=
  let region_list := region exec_params in
  cells <- lift (read_csv (ccf_meta_file self)) ;;
  mfish_ccf_df <- alloc (of_cells cells) ;;
  out <- region_ccf_cell_types mfish_ccf_df region_list ;;
  let region_frac_map := region_frac_ccf out in
  result <-
    lift (ofold (fun d rx_rdf =>
                   let? rows := to_dict_index (snd rx_rdf) in
                   Some (PyDict.set (fst rx_rdf) rows d))
                (PyDict.items region_frac_map) []) ;;
  ret [result].

(** [DFBuilder.build] *)
Definition build (in_iter : option (list (dict (dict pyval))))
  : option (option PL) :=
  match in_iter with
  | None => Some None
  | Some in_iter =>
      let? df := pl_DataFrame (DFBuilder.qry2dict in_iter) in
      Some (Some df)
  end.

End Callers.

(** The rows a region with the records [cs] adds to the flattened result
    of a query: the rows of its ratio table, or one empty row when the
    table has no row. *)
Definition region_rows (region : string) (cs : list Cell) : list pyval :=
  match ratio_table region cs with
  | [] => [PMap []]
  | rows => map (fun r => row_dict (cols r)) rows
  end.

(** ** Gene metadata

    A gene table has one row per gene, labelled by the gene identifier;
    its columns, [gene_symbol] among them, hold strings. *)

Definition GeneFrame := DataFrame string string.

(** [df[mask]] for a boolean Series [mask] with one entry per row;
    pandas raises when the lengths differ. *)
Fixpoint mask_rows {I V : Type} (mask : list bool) (df : DataFrame I V)
  : option (DataFrame I V) :=
  match mask, df with
  | [], [] => Some []
  | b :: mask', r :: df' =>
      let? rest := mask_rows mask' df' in
      Some (if b then r :: rest else rest)
  | _, _ => None
  end.

(** [df[pred]] for a Python list [pred] of booleans, one per row.  A
    list without entries selects no column where a mask selects no row;
    a frame without rows carries no columns in this development, so that
    case is not modelled. *)
Definition list_mask_rows {I V : Type} (pred : list bool) (df : DataFrame I V)
  : option (DataFrame I V) :=
  match pred with
  | [] => None
  | _ :: _ => mask_rows pred df
  end.

(** [valid_genes_symbols]: [str.contains] searches the pattern "Blank",
    which has no special character, as a substring. *)
Definition valid_genes_symbols (gene_meta : GeneFrame) : option (list string) :=
  let? gene_symbol := column "gene_symbol" gene_meta in
  let blank := map (fun s => PyStr.contains s "Blank") gene_symbol in
  let? valid := mask_rows (series_not blank) gene_meta in
  column "gene_symbol" valid.

(** [filter_invalid_genes] *)
Definition filter_invalid_genes (gene_meta : GeneFrame)
    (valid_genes : list string) : option GeneFrame :=
  let? gene_symbol := column "gene_symbol" gene_meta in
  let pred := map (fun x => existsb (String.eqb x) valid_genes) gene_symbol in
  let gf := list_mask_rows pred gene_meta in
  gf.

(** A gene table with two blank probes. *)
Definition sample_genes : GeneFrame :=
  [ mkRow "ENSMUSG00000026778" [("gene_symbol", "Prkcq"); ("name", "PKC")];
    mkRow "Blank-37" [("gene_symbol", "Blank-37"); ("name", "")];
    mkRow "ENSMUSG00000026837" [("gene_symbol", "Col5a1"); ("name", "")];
    mkRow "Blank-1" [("gene_symbol", "Blank-1"); ("name", "")] ].

(** The gene symbol of a row; the empty string when the row has none. *)
Definition symbol_of (r : Row string string) : string :=
  match PyDict.get "gene_symbol" (cols r) with
  | Some s => s
  | None => EmptyString
  end.

Definition not_blank (s : string) : bool := negb (PyStr.contains s "Blank").

(** ** The frame a classifier step writes to *)


(** ** The AWS command line

    [aws_s3_copy] and [aws_s3_sync] build a command line, split it into
    arguments and hand them to [subprocess.run], which is given by what
    it returns for an argument list.  A path is the [str] that [%s] makes
    of it; what the functions print is not modelled. *)

(** [s.split(sep)] for a separator of one character *)
Fixpoint split_char (sep : ascii) (s : string) : list string :=
  match s with
  | EmptyString => [EmptyString]
  | String c s' =>
      if Ascii.eqb c sep then EmptyString :: split_char sep s'
      else match split_char sep s' with
           | w :: ws => String c w :: ws
           | [] => [String c EmptyString]
           end
  end.

Definition byte_is (n : N) (c : ascii) : bool := (N_of_ascii c =? n)%N.

Definition byte_in (lo hi : N) (c : ascii) : bool :=
  ((lo <=? N_of_ascii c) && (N_of_ascii c <=? hi))%N.

(** The characters [str.isspace] accepts, in UTF-8: U+0009 to U+000D and
    U+001C to U+0020 in one byte; U+0085 and U+00A0 in two; U+1680,
    U+2000 to U+200A, U+2028, U+2029, U+202F, U+205F and U+3000 in
    three. *)
Definition space1 (c1 : ascii) : bool := byte_in 9 13 c1 || byte_in 28 32 c1.

Definition space2 (c1 c2 : ascii) : bool :=
  byte_is 194 c1 && (byte_is 133 c2 || byte_is 160 c2).

Definition space3 (c1 c2 c3 : ascii) : bool :=
  (byte_is 225 c1 && byte_is 154 c2 && byte_is 128 c3)
  || (byte_is 226 c1 && byte_is 128 c2
      && (byte_in 128 138 c3 || byte_is 168 c3 || byte_is 169 c3
          || byte_is 175 c3))
  || (byte_is 226 c1 && byte_is 129 c2 && byte_is 159 c3)
  || (byte_is 227 c1 && byte_is 128 c2 && byte_is 128 c3).

(** The number of bytes of the whitespace character [s] starts with; 0
    when [s] does not start with one. *)
Definition whitespace_length (s : string) : nat :=
  match s with
  | EmptyString => 0
  | String c1 r1 =>
      if space1 c1 then 1
      else
        match r1 with
        | EmptyString => 0
        | String c2 r2 =>
            if space2 c1 c2 then 2
            else
              match r2 with
              | EmptyString => 0
              | String c3 _ => if space3 c1 c2 c3 then 3 else 0
              end
        end
  end.

(** The scan of [s.split()]: the words between whitespace characters, the
    empty ones included; [skip] counts the bytes of the whitespace
    character found last that are still to be passed over. *)
Fixpoint split_scan (s : string) (skip : nat) : list string :=
  match s with
  | EmptyString => [EmptyString]
  | String c s' =>
      match skip with
      | S k => split_scan s' k
      | O =>
          match whitespace_length s with
          | O =>
              match split_scan s' 0 with
              | w :: ws => String c w :: ws
              | [] => [String c EmptyString]
              end
          | S k => EmptyString :: split_scan s' k
          end
      end
  end.

(** [s.split()]: runs of whitespace separate the words, and there is no
    empty word. *)
Definition split_whitespace (s : string) : list string :=
  filter (fun w => negb (String.eqb w EmptyString)) (split_scan s 0).

(** [s] has a space; [s] has a whitespace character. *)
Fixpoint has_space (s : string) : bool :=
  match s with
  | EmptyString => false
  | String c s' => Ascii.eqb c " " || has_space s'
  end.

Fixpoint has_whitespace (s : string) : bool :=
  match s with
  | EmptyString => false
  | String _ s' => negb (whitespace_length s =? 0)%nat || has_whitespace s'
  end.

Section Aws.

Context {ProcessResult : Type}.

(** [subprocess.run(args, stdout=subprocess.PIPE)] *)
Variable subprocess_run : list string -> option ProcessResult.

(** [aws_s3_copy] *)
Definition aws_s3_copy (remote_path local_path : string)
  : option ProcessResult :=
  let command :=
    ("aws s3 cp --no-sign-request " ++ remote_path ++ " " ++ local_path)%string
  in
  let result := subprocess_run (split_char " " command) in
  result.

(** [aws_s3_sync] *)
Definition aws_s3_sync (remote_path local_path : string)
  : option ProcessResult :=
  let command_pattern (a b : string) :=
    ("aws s3 sync --no-sign-request " ++ a ++ " " ++ b)%string in
  let command := command_pattern remote_path local_path in
  let result := subprocess_run (split_whitespace command) in
  result.

End Aws.

(** The one argument a path without whitespace gives [aws_s3_sync]: none
    when the path is empty. *)
Definition path_word (p : string) : list string :=
  if String.eqb p EmptyString then [] else [p].

(** ** The columns of the tables of a region *)

(** The columns of a count table: the summed flag columns in the order
    they are selected, then the two derived columns. *)
Definition COUNT_TABLE_COLUMNS : list string :=
  ["E"; "I"; "O"] ++ GABA_COLUMNS ++ GLUT_COLUMNS ++ ["T"; "EI"].

(** The columns of a ratio table, in the order they are assigned. *)
Definition RATIO_TABLE_COLUMNS : list string :=
  ["Region"; "Layer"; "nregion"; INHIBITORY_FRACTION_COLUMN;
   FRACTION_WI_REGION_COLUMN]
  ++ map FRACTION_COLUMN_FMT (GABA_TYPES ++ GLUT_IT_TYPES ++ GLUT_TYPES).

(** A region map mixes maps and other values. *)
Definition mixed (region_dct : dict pyval) : bool :=
  DFBuilder.has_sub_region region_dct
  && negb (forallb DFBuilder.is_mapping (PyDict.values region_dct)).

(** The region maps of a sequence of results, in order. *)
Definition region_maps (in_iter : list (dict (dict pyval)))
  : list (dict pyval) :=
  flat_map (fun qry_result => PyDict.values qry_result) in_iter.

(** The flag columns of a classified table, in the order they are
    added. *)
Definition CLASSIFIER_COLUMNS : list string :=
  ["E"; "I"; "O"] ++ GABA_COLUMNS ++ GLUT_COLUMNS.

(** ** Result maps outside the nesting the specification describes *)

(** A result whose first region map has a scalar beside a leaf map, and
    whose second region map nests its leaf map two levels down. *)
Definition nested_results : list (dict (dict pyval)) :=
  [ [ ("VISp",
       [ ("VISp1", PMap [("Region", PScalar (RStr "VISp"))]);
         ("note", PScalar (RStr "partial")) ]);
      ("MOp",
       [ ("MOp1", PMap [("layers", PMap [("nregion", PScalar (RInt 2))])]) ])
    ] ].
(** * Properties *)

(** ** Strings *)

Lemma endswith_Glut_not_GABA (s : string) :
  PyStr.endswith s "Glut" = true -> PyStr.endswith s "GABA" = false.
Proof.
  unfold PyStr.endswith. intros H.
  apply andb_true_iff in H. destruct H as [_ H].
  apply String.eqb_eq in H.
  apply andb_false_iff. right.
  apply String.eqb_neq. intros H'.
  change (String.length "GABA") with (String.length "Glut") in H'.
  rewrite H in H'. discriminate H'.
Qed.

(** ** Loops in the option monad *)

Lemma omap_total {A B : Type} (f : A -> option B) (g : A -> B) (l : list A) :
  (forall a, In a l -> f a = Some (g a)) -> omap f l = Some (map g l).
Proof.
  induction l as [|a l IH]; intros H; simpl.
  - reflexivity.
  - rewrite (H a (or_introl eq_refl)). simpl.
    rewrite IH by (intros; apply H; right; assumption).
    reflexivity.
Qed.

Lemma omap_map {A B C : Type} (f : B -> option C) (h : A -> B) (l : list A) :
  omap f (map h l) = omap (fun a => f (h a)) l.
Proof.
  induction l as [|a l IH]; simpl.
  - reflexivity.
  - rewrite IH. reflexivity.
Qed.

Lemma omap_rows {A B C : Type} (f : B -> option C) (h : A -> B) (g : A -> C)
    (l : list A) :
  (forall a, In a l -> f (h a) = Some (g a)) ->
  omap f (map h l) = Some (map g l).
Proof. intros H. rewrite omap_map. apply omap_total. exact H. Qed.

(** ** Frames given row by row *)

Section FrameRows.
Context {X I V : Type}.
Implicit Types (l : list X) (R : X -> Row I V).

Lemma index_rows l R : index (map R l) = map (fun x => idx (R x)) l.
Proof. unfold index. apply map_map. Qed.

Lemma set_column_rows name (f : X -> V) R l :
  set_column name (map f l) (map R l)
  = Some (map (fun x =>
                 mkRow (idx (R x)) (PyDict.set name (f x) (cols (R x)))) l).
Proof.
  induction l as [|x l IH]; simpl.
  - reflexivity.
  - rewrite IH. reflexivity.
Qed.

Lemma set_scalar_rows name (v : V) R l :
  set_scalar name v (map R l)
  = Some (map (fun x => mkRow (idx (R x)) (PyDict.set name v (cols (R x)))) l).
Proof.
  unfold set_scalar. rewrite length_map.
  replace (repeat v (List.length l)) with (map (fun _ : X => v) l).
  - apply set_column_rows.
  - induction l; simpl; congruence.
Qed.

Lemma concat_columns_rows R1 R2 l :
  concat_columns (map R1 l) (map R2 l)
  = Some (map (fun x => mkRow (idx (R1 x)) (cols (R1 x) ++ cols (R2 x))) l).
Proof.
  induction l as [|x l IH]; simpl.
  - reflexivity.
  - rewrite IH. reflexivity.
Qed.

Lemma column_rows name (f : X -> V) R l :
  (forall x, In x l -> PyDict.get name (cols (R x)) = Some (f x)) ->
  column name (map R l) = Some (map f l).
Proof.
  intros H. unfold column. apply omap_rows. exact H.
Qed.

Lemma select_rows names (S : X -> dict V) R l :
  (forall x, In x l ->
     omap (fun n => let? v := PyDict.get n (cols (R x)) in Some (n, v)) names
     = Some (S x)) ->
  select names (map R l) = Some (map (fun x => mkRow (idx (R x)) (S x)) l).
Proof.
  intros H. unfold select. apply omap_rows.
  intros x Hx. rewrite (H x Hx). reflexivity.
Qed.
End FrameRows.

(** ** The store *)

Lemma read_at (r : ref) (df : CellFrame) (st : store) :
  nth_error st r = Some df -> read r st = Some (df, st).
Proof. intros H. unfold read. rewrite H. reflexivity. Qed.

Lemma nth_error_new (st : store) (df : CellFrame) :
  nth_error (st ++ [df]) (List.length st) = Some df.
Proof. rewrite nth_error_app2, Nat.sub_diag by lia. reflexivity. Qed.

Lemma nth_error_old (st : store) (df : CellFrame) (r : ref) :
  (r < List.length st)%nat -> nth_error (st ++ [df]) r = nth_error st r.
Proof. intros H. apply nth_error_app1. exact H. Qed.

Lemma read_new (st : store) (df : CellFrame) :
  read (List.length st) (st ++ [df]) = Some (df, st ++ [df]).
Proof. apply read_at, nth_error_new. Qed.

Lemma update_new (st : store) (df df' : CellFrame) :
  update (List.length st) df' (st ++ [df]) = Some (st ++ [df']).
Proof.
  induction st as [|d st IH]; simpl.
  - reflexivity.
  - rewrite IH. reflexivity.
Qed.

(** No row has two columns of the name. *)
Lemma twice_rows (name : string) {X : Type} (R : X -> Row Cell bool)
    (l : list X) :
  (forall x,
     (2 <=? List.length (filter (String.eqb name)
                           (PyDict.keys (cols (R x)))))%nat = false) ->
  twice name (map R l) = false.
Proof.
  intros H. unfold twice. induction l as [|x l IH]; [reflexivity |].
  cbn [map existsb]. rewrite H, IH. reflexivity.
Qed.

Lemma assign_column_new (st : store) (name : string) {X : Type}
    (f : X -> bool) (R : X -> Row Cell bool) (l : list X) :
  twice name (map R l) = false ->
  assign_column (List.length st) name (map f l) (st ++ [map R l])
  = Some (tt, st ++ [map (fun x => mkRow (idx (R x))
                                    (PyDict.set name (f x) (cols (R x)))) l]).
Proof.
  intros Hone. unfold assign_column, bind, lift, write.
  rewrite read_new, Hone, set_column_rows, update_new. reflexivity.
Qed.

Lemma predicate_flags_df_ei (F : Cell -> dict bool) (cells : list Cell) :
  predicate_flags_df (map (fun c => mkRow c (F c)) cells)
    [("E", "Glut"); ("I", "GABA")] class endswith_pred_fn (Some "O")
  = Some (map (fun c => mkRow c (ei_flags c)) cells).
Proof.
  unfold predicate_flags_df, endswith_pred_fn.
  rewrite index_rows. cbn [idx]. rewrite map_id.
  cbn [PyDict.items fold_left PyDict.set fst snd String.eqb Ascii.eqb Bool.eqb].
  unfold from_dict, empty_like.
  cbn [PyDict.items ofold fst snd obind].
  rewrite !map_map.
  rewrite (set_column_rows "E"). cbn [obind idx cols PyDict.set].
  rewrite (set_column_rows "I").
  cbn [obind idx cols PyDict.set String.eqb Ascii.eqb Bool.eqb].
  unfold series_not, any_columns. rewrite !map_map.
  rewrite (set_column_rows "O").
  cbn [idx cols PyDict.set String.eqb Ascii.eqb Bool.eqb PyDict.values map snd
       existsb].
  f_equal. apply map_ext. intros c. unfold ei_flags, flag_O, flag_E, flag_I.
  rewrite orb_false_r. reflexivity.
Qed.

Lemma cell_meta_ei_flags_rows (st : store) (r : ref) (F : Cell -> dict bool)
    (cells : list Cell) :
  nth_error st r = Some (map (fun c => mkRow c (F c)) cells) ->
  cell_meta_ei_flags r st
  = Some (List.length st,
          st ++ [map (fun c => mkRow c (F c ++ ei_flags c)) cells]).
Proof.
  intros H. unfold cell_meta_ei_flags, concat_predicate_flags_df, bind, lift.
  rewrite (read_at _ _ _ H), predicate_flags_df_ei, concat_columns_rows.
  reflexivity.
Qed.

Lemma series_not_rows {X : Type} (f : X -> bool) (l : list X) :
  series_not (map f l) = map (fun x => negb (f x)) l.
Proof. unfold series_not. apply map_map. Qed.

Lemma series_and_rows {X : Type} (f g : X -> bool) (l : list X) :
  series_and (map f l) (map g l) = map (fun x => f x && g x) l.
Proof.
  unfold series_and. induction l as [|x l IH]; simpl.
  - reflexivity.
  - rewrite IH. reflexivity.
Qed.

Lemma any_of_rows {X : Type} (names : list string) (S : X -> dict bool)
    (R : X -> Row Cell bool) (l : list X) :
  (forall x, In x l ->
     omap (fun n => let? v := PyDict.get n (cols (R x)) in Some (n, v)) names
     = Some (S x)) ->
  any_of names (map R l)
  = Some (map (fun x => existsb (fun b => b) (PyDict.values (S x))) l).
Proof.
  intros H. unfold any_of. rewrite (select_rows names S R l H).
  cbn [obind]. unfold any_columns. rewrite map_map. reflexivity.
Qed.

Lemma length_eqb_0 {A : Type} (l : list A) :
  l <> [] -> (List.length l =? 0)%nat = false.
Proof. destruct l; [congruence | reflexivity]. Qed.

(** The frame at hand has the column to assign at most once: its column
    names are explicit. *)
Ltac at_most_once := apply twice_rows; intros; reflexivity.

Ltac eval_names :=
  cbn [PyDict.items PyDict.set PyDict.get PyDict.values PyDict.keys
       fold_left for_each ofold omap obind map app fst snd idx cols
       String.eqb Ascii.eqb Bool.eqb existsb].

Lemma cell_meta_gaba_flags_rows (st : store) (cells : list Cell) :
  cell_meta_gaba_flags (List.length st)
    (st ++ [map (fun c => mkRow c (ei_flags c)) cells])
  = Some (List.length st,
          st ++ [map (fun c => mkRow c (ei_flags c ++ gaba_flags c)) cells]).
Proof.
  unfold cell_meta_gaba_flags. unfold bind at 1. rewrite read_new.
  destruct cells as [|c0 cells'].
  - reflexivity.
  - rewrite length_eqb_0 by discriminate.
    set (cells := c0 :: cells').
    rewrite index_rows. cbn [idx]. rewrite map_id.
    unfold cell_meta_subclass_flags, GABA_SUBCLASS_SETMAP.
    rewrite index_rows. cbn [idx]. rewrite map_id.
    eval_names.
    unfold bind, ret.
    repeat (rewrite assign_column_new by at_most_once; eval_names).
    rewrite read_new. unfold lift.
    erewrite any_of_rows; [| intros x _; eval_names; reflexivity].
    rewrite series_not_rows, series_and_rows.
    rewrite assign_column_new by at_most_once. eval_names.
    reflexivity.
Qed.

Lemma cell_meta_glut_flags_rows (st : store) (cells : list Cell) :
  cell_meta_glut_flags (List.length st)
    (st ++ [map (fun c => mkRow c (ei_flags c ++ gaba_flags c)) cells])
  = Some (List.length st, st ++ [map classified cells]).
Proof.
  unfold cell_meta_glut_flags. unfold bind at 1. rewrite read_new.
  destruct cells as [|c0 cells'].
  - reflexivity.
  - rewrite length_eqb_0 by discriminate.
    set (cells := c0 :: cells').
    rewrite index_rows. cbn [idx]. rewrite map_id.
    unfold cell_meta_subclass_flags.
    rewrite index_rows. cbn [idx]. rewrite map_id.
    unfold PyDict.merge, GLUT_SUBCLASS_SETMAP, GLUT_IT_SUBCLASS_SETMAP.
    eval_names.
    unfold bind, ret.
    repeat (rewrite assign_column_new by at_most_once; eval_names).
    rewrite read_new. unfold lift.
    erewrite any_of_rows; [| intros x _; eval_names; reflexivity].
    rewrite series_not_rows, series_and_rows.
    rewrite assign_column_new by at_most_once. eval_names.
    reflexivity.
Qed.

Lemma cell_meta_type_flags_rows (st : store) (r : ref) (cells : list Cell) :
  nth_error st r = Some (of_cells cells) ->
  cell_meta_type_flags r st
  = Some (List.length st, st ++ [map classified cells]).
Proof.
  intros H. unfold cell_meta_type_flags. unfold bind.
  rewrite (cell_meta_ei_flags_rows st r (fun _ => []) cells H).
  cbn [app]. rewrite cell_meta_gaba_flags_rows, cell_meta_glut_flags_rows.
  reflexivity.
Qed.

(** ** TaxonomyClassifier: the top-level flags *)

(** C1: every record classified by [cell_meta_ei_flags] has exactly one of
    the flags E, I, O true: E + I + O = 1, E and I are never both true, and
    O is true exactly when neither E nor I is.  The call returns a new frame
    with one record per input record. *)
Theorem cell_meta_ei_flags_exactly_one
    (st : store) (area_cell_df : ref) (cells : list Cell) :
  nth_error st area_cell_df = Some (of_cells cells) ->
  exists (r : ref) (st' : store) (df : CellFrame),
    cell_meta_ei_flags area_cell_df st = Some (r, st') /\
    nth_error st' r = Some df /\
    index df = cells /\
    Forall (fun row =>
      exists e i o : bool,
        flag "E" row = Some e /\ flag "I" row = Some i /\
        flag "O" row = Some o /\
        (Z.b2z e + Z.b2z i + Z.b2z o = 1)%Z /\
        e && i = false /\
        o = negb (e || i)) df.
Proof.
  intros H.
  exists (List.length st), (st ++ [map (fun c => mkRow c (ei_flags c)) cells]),
    (map (fun c => mkRow c (ei_flags c)) cells).
  split; [| split; [| split]].
  - apply (cell_meta_ei_flags_rows st area_cell_df (fun _ => []) cells H).
  - apply nth_error_new.
  - rewrite index_rows. apply map_id.
  - apply Forall_map, Forall_forall. intros c _.
    exists (flag_E c), (flag_I c), (flag_O c).
    repeat split; try reflexivity.
    + unfold flag_O.
      destruct (flag_E c) eqn:HE; destruct (flag_I c) eqn:HI;
        try reflexivity.
      unfold flag_E, flag_I in *.
      rewrite (endswith_Glut_not_GABA _ HE) in HI. discriminate HI.
    + destruct (flag_E c) eqn:HE; [| reflexivity].
      unfold flag_E, flag_I in *. simpl.
      apply endswith_Glut_not_GABA, HE.
Qed.

Lemma cell_meta_ei_flags_exactly_one_witness :
  exists (r : ref) (st' : store) (df : CellFrame),
    cell_meta_ei_flags 0 [of_cells sample_cells] = Some (r, st') /\
    nth_error st' r = Some df /\
    index df = sample_cells /\
    Forall (fun row =>
      exists e i o : bool,
        flag "E" row = Some e /\ flag "I" row = Some i /\
        flag "O" row = Some o /\
        (Z.b2z e + Z.b2z i + Z.b2z o = 1)%Z /\
        e && i = false /\
        o = negb (e || i)) df.
Proof.
  apply (cell_meta_ei_flags_exactly_one [of_cells sample_cells] 0 sample_cells).
  reflexivity.
Defined.

(** C2, as the code has it: the flags E and I are both read from the
    [class] column: E is true iff [class] ends with "Glut", I is true iff
    [class] ends with "GABA", and O is true iff [class] ends with
    neither. *)
Theorem cell_meta_ei_flags_class_suffix
    (st : store) (area_cell_df : ref) (cells : list Cell) :
  nth_error st area_cell_df = Some (of_cells cells) ->
  exists (r : ref) (st' : store) (df : CellFrame),
    cell_meta_ei_flags area_cell_df st = Some (r, st') /\
    nth_error st' r = Some df /\
    index df = cells /\
    Forall (fun row =>
      let c := idx row in
      flag "E" row = Some (PyStr.endswith (class c) "Glut") /\
      flag "I" row = Some (PyStr.endswith (class c) "GABA") /\
      flag "O" row = Some (negb (PyStr.endswith (class c) "Glut"
                                 || PyStr.endswith (class c) "GABA"))) df.
Proof.
  intros H.
  exists (List.length st), (st ++ [map (fun c => mkRow c (ei_flags c)) cells]),
    (map (fun c => mkRow c (ei_flags c)) cells).
  split; [| split; [| split]].
  - apply (cell_meta_ei_flags_rows st area_cell_df (fun _ => []) cells H).
  - apply nth_error_new.
  - rewrite index_rows. apply map_id.
  - apply Forall_map, Forall_forall. intros c _.
    cbn. repeat split.
Qed.

Lemma cell_meta_ei_flags_class_suffix_witness :
  exists (r : ref) (st' : store) (df : CellFrame),
    cell_meta_ei_flags 0 [of_cells sample_cells] = Some (r, st') /\
    nth_error st' r = Some df /\
    index df = sample_cells /\
    Forall (fun row =>
      let c := idx row in
      flag "E" row = Some (PyStr.endswith (class c) "Glut") /\
      flag "I" row = Some (PyStr.endswith (class c) "GABA") /\
      flag "O" row = Some (negb (PyStr.endswith (class c) "Glut"
                                 || PyStr.endswith (class c) "GABA"))) df.
Proof.
  apply (cell_meta_ei_flags_class_suffix
           [of_cells sample_cells] 0 sample_cells).
  reflexivity.
Defined.

(** C2 as stated fails: two records with the same [subclass] and different
    [class] get different I flags, so no suffix of [subclass] decides I. *)
Lemma cell_meta_ei_flags_subclass_suffix_counterexample :
  exists (r : ref) (st' : store) (df : CellFrame),
    cell_meta_ei_flags 0 [of_cells same_subclass_cells] = Some (r, st') /\
    nth_error st' r = Some df /\
    forall marker : string,
      ~ Forall (fun row =>
          flag "I" row = Some (PyStr.endswith (subclass (idx row)) marker)) df.
Proof.
  eexists _, _, _.
  split; [reflexivity |]. split; [reflexivity |].
  intros marker H.
  inversion H as [| r1 l1 H1 H']; subst.
  inversion H' as [| r2 l2 H2 _]; subst.
  cbn [idx subclass] in H1, H2.
  rewrite <- H1 in H2. vm_compute in H2. discriminate H2.
Qed.

(** ** TaxonomyClassifier: the subtype flags *)

Lemma isin_disjoint (s : string) (a b : label_set) :
  disjointb a b = true -> isin s a = true -> isin s b = false.
Proof.
  unfold disjointb, isin. intros Hd Ha.
  apply set_mem_correct1 in Ha.
  rewrite forallb_forall in Hd. specialize (Hd s Ha).
  apply negb_true_iff in Hd. exact Hd.
Qed.

Lemma member_disjoint (m : dict label_set) (n1 n2 : string) (a b : label_set)
    (c : Cell) :
  PyDict.get n1 m = Some a -> PyDict.get n2 m = Some b ->
  disjointb a b = true ->
  member m n1 c = true -> member m n2 c = false.
Proof.
  unfold member. intros -> -> Hd. apply isin_disjoint, Hd.
Qed.

Lemma isin_iff (s : string) (a : label_set) : isin s a = true <-> In s a.
Proof.
  unfold isin. split.
  - apply set_mem_correct1.
  - apply set_mem_correct2.
Qed.

Lemma isin_union (s : string) (a b : label_set) :
  isin s (set_union string_dec a b) = isin s a || isin s b.
Proof.
  apply eq_true_iff_eq.
  rewrite orb_true_iff, !isin_iff. apply set_union_iff.
Qed.

(** The named category [IT] is the union of the three IT subtype sets. *)
Lemma member_IT (c : Cell) :
  member GLUT_ALL_SETMAP "IT" c
  = member GLUT_ALL_SETMAP "IT-ENT" c
    || member GLUT_ALL_SETMAP "IT-CTX" c
    || member GLUT_ALL_SETMAP "IT-Other" c.
Proof.
  unfold member.
  change (PyDict.get "IT" GLUT_ALL_SETMAP)
    with (Some (set_union_all (PyDict.values GLUT_IT_SUBCLASS_SETMAP))).
  unfold set_union_all, GLUT_IT_SUBCLASS_SETMAP.
  cbn [PyDict.values map snd fold_left].
  rewrite !isin_union. reflexivity.
Qed.

Ltac flag_values :=
  unfold count_true, flag, classified, ei_flags, gaba_flags, glut_flags,
    GABA_TYPES, GLUT_TYPES, GLUT_IT_TYPES, GABA_SUBCLASS_SETMAP,
    GLUT_SUBCLASS_SETMAP, GLUT_IT_SUBCLASS_SETMAP;
  cbn [PyDict.get PyDict.keys omap obind map app fst snd idx cols
       String.eqb Ascii.eqb Bool.eqb].

(** The categories [a] and [b] of the table [m] exclude each other on the
    cell [c]. *)
Ltac disjoint m a b c :=
  let H := fresh "Hd" in
  pose proof (member_disjoint m a b _ _ c eq_refl eq_refl eq_refl) as H.

(** After a case analysis on the flags: either the count computes, or two
    categories that exclude each other are both true. *)
Ltac by_disjointness :=
  first
    [ reflexivity
    | match goal with
      | H : true = true -> true = false |- _ => discriminate (H eq_refl)
      end ].

Lemma glut_exactly_one (c : Cell) :
  flag "Glut" (classified c) = Some true ->
  count_true ["ET"; "CT"; "NP"; "IT"; "Glut-Other"] (classified c) = Some 1.
Proof.
  flag_values.
  fold GLUT_SUBCLASS_SETMAP GLUT_IT_SUBCLASS_SETMAP.
  intros HG. injection HG as HG.
  unfold flag_Glut_Other, any_member. rewrite HG.
  cbn [map existsb andb].
  set (M := GLUT_ALL_SETMAP).
  disjoint M "ET" "CT" c. disjoint M "ET" "NP" c. disjoint M "ET" "IT" c.
  disjoint M "CT" "NP" c. disjoint M "CT" "IT" c. disjoint M "NP" "IT" c.
  destruct (member M "ET" c), (member M "CT" c), (member M "NP" c),
    (member M "IT" c); by_disjointness.
Qed.

Lemma gaba_exactly_one (c : Cell) :
  flag "GABA" (classified c) = Some true ->
  count_true ["Vip"; "Pvalb"; "Sst"; "Lamp5"; "Sst-Chodl"; "GABA-Other"]
    (classified c) = Some 1.
Proof.
  flag_values.
  fold GABA_SUBCLASS_SETMAP.
  intros HG. injection HG as HG.
  unfold flag_GABA_Other, any_member. rewrite HG.
  cbn [map existsb andb].
  set (M := GABA_SUBCLASS_SETMAP).
  disjoint M "Vip" "Pvalb" c. disjoint M "Vip" "Sst" c.
  disjoint M "Vip" "Lamp5" c. disjoint M "Vip" "Sst-Chodl" c.
  disjoint M "Pvalb" "Sst" c. disjoint M "Pvalb" "Lamp5" c.
  disjoint M "Pvalb" "Sst-Chodl" c. disjoint M "Sst" "Lamp5" c.
  disjoint M "Sst" "Sst-Chodl" c. disjoint M "Lamp5" "Sst-Chodl" c.
  destruct (member M "Vip" c), (member M "Pvalb" c), (member M "Sst" c),
    (member M "Lamp5" c), (member M "Sst-Chodl" c); by_disjointness.
Qed.

Lemma it_exactly_one (c : Cell) :
  flag "IT" (classified c) = Some true ->
  count_true ["IT-ENT"; "IT-CTX"; "IT-Other"] (classified c) = Some 1.
Proof.
  flag_values.
  fold GLUT_SUBCLASS_SETMAP GLUT_IT_SUBCLASS_SETMAP.
  intros HI. injection HI as HI.
  rewrite member_IT in HI.
  set (M := GLUT_ALL_SETMAP) in *.
  disjoint M "IT-ENT" "IT-CTX" c. disjoint M "IT-ENT" "IT-Other" c.
  disjoint M "IT-CTX" "IT-Other" c.
  destruct (member M "IT-ENT" c), (member M "IT-CTX" c),
    (member M "IT-Other" c); first [discriminate HI | by_disjointness].
Qed.

(** C3, as the code has it: in every record classified by
    [cell_meta_type_flags], if the [Glut] flag is true ([subclass] ends
    with "Glut") exactly one of ET, CT, NP, IT, Glut-Other is true; if the
    [GABA] flag is true ([subclass] ends with "Gaba") exactly one of Vip,
    Pvalb, Sst, Lamp5, Sst-Chodl, GABA-Other is true; and if IT is true
    exactly one of IT-ENT, IT-CTX, IT-Other is true. *)
Theorem cell_meta_type_flags_subtypes_exactly_one
    (st : store) (area_cell_df : ref) (cells : list Cell) :
  nth_error st area_cell_df = Some (of_cells cells) ->
  exists (r : ref) (st' : store) (df : CellFrame),
    cell_meta_type_flags area_cell_df st = Some (r, st') /\
    nth_error st' r = Some df /\
    index df = cells /\
    Forall (fun row =>
      flag "Glut" row = Some (PyStr.endswith (subclass (idx row)) "Glut") /\
      flag "GABA" row = Some (PyStr.endswith (subclass (idx row)) "Gaba") /\
      (flag "Glut" row = Some true ->
       count_true ["ET"; "CT"; "NP"; "IT"; "Glut-Other"] row = Some 1) /\
      (flag "GABA" row = Some true ->
       count_true ["Vip"; "Pvalb"; "Sst"; "Lamp5"; "Sst-Chodl"; "GABA-Other"]
         row = Some 1) /\
      (flag "IT" row = Some true ->
       count_true ["IT-ENT"; "IT-CTX"; "IT-Other"] row = Some 1)) df.
Proof.
  intros H.
  exists (List.length st), (st ++ [map classified cells]),
    (map classified cells).
  split; [| split; [| split]].
  - apply cell_meta_type_flags_rows, H.
  - apply nth_error_new.
  - rewrite index_rows. apply map_id.
  - apply Forall_map, Forall_forall. intros c _.
    split; [reflexivity |]. split; [reflexivity |].
    split; [apply glut_exactly_one |].
    split; [apply gaba_exactly_one | apply it_exactly_one].
Qed.

Lemma cell_meta_type_flags_subtypes_exactly_one_witness :
  exists (r : ref) (st' : store) (df : CellFrame),
    cell_meta_type_flags 0 [of_cells sample_cells] = Some (r, st') /\
    nth_error st' r = Some df /\
    index df = sample_cells /\
    Forall (fun row =>
      flag "Glut" row = Some (PyStr.endswith (subclass (idx row)) "Glut") /\
      flag "GABA" row = Some (PyStr.endswith (subclass (idx row)) "Gaba") /\
      (flag "Glut" row = Some true ->
       count_true ["ET"; "CT"; "NP"; "IT"; "Glut-Other"] row = Some 1) /\
      (flag "GABA" row = Some true ->
       count_true ["Vip"; "Pvalb"; "Sst"; "Lamp5"; "Sst-Chodl"; "GABA-Other"]
         row = Some 1) /\
      (flag "IT" row = Some true ->
       count_true ["IT-ENT"; "IT-CTX"; "IT-Other"] row = Some 1)) df.
Proof.
  apply (cell_meta_type_flags_subtypes_exactly_one
           [of_cells sample_cells] 0 sample_cells).
  reflexivity.
Defined.

(** C3 as stated fails: a record whose [class] ends with "Glut" while its
    [subclass] does not has E true and none of ET, CT, NP, IT, Glut-Other
    true. *)
Lemma cell_meta_type_flags_E_counterexample :
  exists (r : ref) (st' : store) (row : Row Cell bool),
    cell_meta_type_flags 0 [of_cells unsuffixed_cells] = Some (r, st') /\
    nth_error st' r = Some [row] /\
    flag "E" row = Some true /\
    count_true ["ET"; "CT"; "NP"; "IT"; "Glut-Other"] row = Some 0.
Proof.
  eexists _, _, _.
  split; [vm_compute; reflexivity |].
  split; [reflexivity |]. split; reflexivity.
Qed.

(** ** FractionComputer *)

Lemma column_count_of (name : string) (area_sumdf : CountFrame) :
  Forall (fun r => PyDict.get name (cols r) <> None) area_sumdf ->
  column name area_sumdf = Some (map (count_of name) area_sumdf).
Proof.
  intros H. rewrite <- (map_id area_sumdf) at 1.
  apply column_rows. intros r Hr.
  rewrite Forall_forall in H. specialize (H r Hr).
  unfold count_of. destruct (PyDict.get name (cols r)); congruence.
Qed.

Lemma has_columns_column (names : list string) (name : string)
    (area_sumdf : CountFrame) :
  Forall (has_columns names) area_sumdf -> In name names ->
  column name area_sumdf = Some (map (count_of name) area_sumdf).
Proof.
  intros H Hn. apply column_count_of.
  eapply Forall_impl; [| exact H].
  intros r Hr. unfold has_columns in Hr. rewrite Forall_forall in Hr.
  apply Hr, Hn.
Qed.

Lemma series_div_rows {X : Type} (f g : X -> Z) (l : list X) :
  map RFloat (series_div (map f l) (map g l))
  = map (fun x => RFloat (int_truediv (f x) (g x))) l.
Proof.
  unfold series_div. induction l as [|x l IH]; simpl.
  - reflexivity.
  - simpl in IH. rewrite IH. reflexivity.
Qed.

Lemma series_div_scalar_rows {X : Type} (f : X -> Z) (n : Z) (l : list X) :
  map RFloat (series_div_scalar (map f l) n)
  = map (fun x => RFloat (int_truediv (f x) n)) l.
Proof. unfold series_div_scalar. rewrite !map_map. reflexivity. Qed.

Lemma obind_Some {A B : Type} (a : A) (k : A -> option B) :
  obind (Some a) k = k a.
Proof. reflexivity. Qed.

Lemma ofold_cons {A S : Type} (body : S -> A -> option S) (a : A)
    (l : list A) (acc : S) :
  ofold body (a :: l) acc = obind (body acc a) (fun acc' => ofold body l acc').
Proof. reflexivity. Qed.

Lemma fraction_columns_rows (area_sumdf : CountFrame) (types : list string)
    (total : string) (R : Row string Z -> Row string rval) :
  (forall n, In n (total :: types) ->
     column n area_sumdf = Some (map (count_of n) area_sumdf)) ->
  fraction_columns area_sumdf types total (map R area_sumdf)
  = Some (map (fun r =>
           mkRow (idx (R r))
             (fold_left
                (fun d colx =>
                   PyDict.set (fst (fraction_of total r colx))
                     (snd (fraction_of total r colx)) d)
                types (cols (R r)))) area_sumdf).
Proof.
  unfold fraction_columns. cbv zeta.
  set (body := fun (ratio_df : DataFrame string rval) (colx : string) => _).
  revert R.
  induction types as [|colx types IH]; intros R Hc.
  - cbn [ofold fold_left]. f_equal. apply map_ext. intros r.
    destruct (R r); reflexivity.
  - rewrite ofold_cons. unfold body at 1.
    rewrite (Hc colx) by (right; left; reflexivity).
    rewrite (Hc total) by (left; reflexivity).
    rewrite !obind_Some.
    rewrite series_div_rows, set_column_rows, obind_Some.
    rewrite IH.
    + reflexivity.
    + intros n Hn. apply Hc. destruct Hn as [Hn | Hn].
      * left. exact Hn.
      * right. right. exact Hn.
Qed.

Lemma cell_meta_type_ratios_rows (area_sumdf : CountFrame) (ax : string)
    (nregion : Z) :
  Forall (has_columns RATIO_INPUT_COLUMNS) area_sumdf ->
  cell_meta_type_ratios area_sumdf ax nregion
  = Some (map (ratio_row ax nregion) area_sumdf).
Proof.
  intros H.
  assert (Hc : forall name, In name RATIO_INPUT_COLUMNS ->
             column name area_sumdf = Some (map (count_of name) area_sumdf))
    by (intros; eapply has_columns_column; eassumption).
  unfold cell_meta_type_ratios, empty_like.
  unfold index at 1. rewrite map_map.
  rewrite set_scalar_rows. cbn [obind idx cols PyDict.set].
  rewrite index_rows. cbn [idx]. rewrite map_map.
  rewrite (set_column_rows "Layer").
  cbn [obind idx cols PyDict.set String.eqb Ascii.eqb Bool.eqb].
  rewrite set_scalar_rows.
  cbn [obind idx cols PyDict.set String.eqb Ascii.eqb Bool.eqb].
  rewrite (Hc "I"), (Hc "EI"), (Hc "T") by (cbv; tauto).
  cbn [obind].
  rewrite series_div_rows, set_column_rows. cbn [obind idx cols].
  rewrite series_div_scalar_rows, set_column_rows. cbn [obind idx cols].
  rewrite fraction_columns_rows
    by (intros n Hn; apply Hc; cbv in Hn |- *; tauto).
  rewrite obind_Some.
  rewrite fraction_columns_rows
    by (intros n Hn; apply Hc; cbv in Hn |- *; tauto).
  rewrite obind_Some.
  rewrite fraction_columns_rows
    by (intros n Hn; apply Hc; cbv in Hn |- *; tauto).
  rewrite obind_Some.
  reflexivity.
Qed.

(** ** RegionAggregator *)

Lemma filter_rows {X I V : Type} (p : Row I V -> bool) (R : X -> Row I V)
    (l : list X) :
  filter p (map R l) = map R (filter (fun x => p (R x)) l).
Proof.
  induction l as [|x l IH]; simpl.
  - reflexivity.
  - destruct (p (R x)); simpl; rewrite IH; reflexivity.
Qed.

Lemma series_add_rows {X : Type} (f g : X -> Z) (l : list X) :
  series_add (map f l) (map g l) = map (fun x => (f x + g x)%Z) l.
Proof.
  unfold series_add. induction l as [|x l IH]; simpl.
  - reflexivity.
  - rewrite IH. reflexivity.
Qed.

Lemma select_cell_columns_classified (cells : list Cell) :
  select_cell_columns
    ([PARCELLATION_SUBSTRUCTURE; "E"; "I"; "O"] ++ GABA_COLUMNS ++ GLUT_COLUMNS)
    (map classified cells)
  = Some (map classified cells).
Proof.
  unfold select_cell_columns.
  erewrite select_rows; [reflexivity |].
  intros c _. reflexivity.
Qed.

(** The sums of the flag columns over the cells [grp] of one group. *)
Lemma sum_columns_classified (c0 : Cell) (grp : list Cell) :
  omap (fun name => let? s := column name (map classified grp) in
                    Some (name, sum_bool s))
       (PyDict.keys (cols (classified c0)))
  = Some (map (fun nf => (fst nf, cnt (snd nf) grp)) flag_fns).
Proof.
  unfold classified at 2, ei_flags, gaba_flags, glut_flags, GABA_TYPES,
    GLUT_TYPES, GLUT_IT_TYPES, GABA_SUBCLASS_SETMAP, GLUT_SUBCLASS_SETMAP,
    GLUT_IT_SUBCLASS_SETMAP.
  cbn [PyDict.keys map app fst snd cols omap].
  repeat (erewrite column_rows by (intros x _; reflexivity);
          rewrite obind_Some).
  reflexivity.
Qed.

Lemma groupby_sum_classified (cells : list Cell) :
  groupby_sum parcellation_substructure (map classified cells)
  = Some (map (fun k =>
                 mkRow k
                   (map (fun nf =>
                           (fst nf, cnt (snd nf) (substructure_cells k cells)))
                        flag_fns))
              (group_keys (map parcellation_substructure cells))).
Proof.
  unfold groupby_sum. rewrite index_rows. cbn [idx classified].
  rewrite map_id.
  destruct cells as [|c0 cells'].
  - reflexivity.
  - set (cells := c0 :: cells'). apply omap_total. intros k _.
    rewrite filter_rows. cbn [idx classified].
    change (columns (map classified cells))
      with (PyDict.keys (cols (classified c0))).
    fold (substructure_cells k cells).
    rewrite sum_columns_classified. reflexivity.
Qed.

Lemma count_row_has_columns (cs : list Cell) (k : string) :
  has_columns RATIO_INPUT_COLUMNS (count_row cs k).
Proof.
  unfold has_columns. repeat constructor; discriminate.
Qed.

Lemma loc_rows_of_cells (region : string) (cells : list Cell) :
  loc_rows (structure_is region) (of_cells cells)
  = of_cells (region_cells region cells).
Proof. unfold loc_rows, of_cells. rewrite filter_rows. reflexivity. Qed.

Lemma region_loop_body_step (cell_ccf : ref) (cells : list Cell)
    (out : RegionTables) (region : string) (st : store) :
  nth_error st cell_ccf = Some (of_cells cells) ->
  region_loop_body cell_ccf
    ([PARCELLATION_SUBSTRUCTURE; "E"; "I"; "O"] ++ GABA_COLUMNS ++ GLUT_COLUMNS)
    out region st
  = Some (step cells (out, st) region).
Proof.
  intros H. unfold region_loop_body, step, step_tables, step_frames.
  cbn [fst snd].
  unfold bind at 1. rewrite (read_at _ _ _ H).
  unfold bind at 1. unfold alloc at 1.
  unfold bind at 1. rewrite read_new.
  rewrite loc_rows_of_cells.
  destruct (region_cells region cells) as [|c0 cs'] eqn:Hcs.
  - reflexivity.
  - set (cs := c0 :: cs') in *.
    unfold of_cells at 1. rewrite length_map.
    rewrite length_eqb_0 by discriminate.
    unfold bind at 1. unfold copy, bind at 1. rewrite read_new.
    unfold alloc.
    set (st1 := st ++ [of_cells cs]).
    unfold bind at 1.
    rewrite (cell_meta_type_flags_rows (st1 ++ [of_cells cs])
               (List.length st1) cs) by apply nth_error_new.
    set (st2 := st1 ++ [of_cells cs]).
    unfold bind at 1. rewrite read_new.
    unfold bind, lift, ret.
    rewrite select_cell_columns_classified, groupby_sum_classified.
    repeat (erewrite column_rows by (intros x _; reflexivity)).
    rewrite !series_add_rows, set_column_rows.
    cbn [idx cols].
    repeat (erewrite column_rows by (intros x _; reflexivity)).
    rewrite !series_add_rows, set_column_rows.
    cbn [idx cols].
    change (map _ (group_keys (map parcellation_substructure cs)))
      with (count_table cs).
    rewrite cell_meta_type_ratios_rows.
    + rewrite length_map. fold (ratio_table region cs).
      subst st2 st1. rewrite !length_app. cbn [List.length].
      rewrite <- !app_assoc. cbn [app].
      replace (List.length st + 1 + 1) with (List.length st + 2) by lia.
      reflexivity.
    + apply Forall_map, Forall_forall. intros k _.
      apply count_row_has_columns.
Qed.

(** ** Orchestrator *)

Lemma get_set {V : Type} (k k' : string) (v : V) (d : dict V) :
  PyDict.get k (PyDict.set k' v d)
  = if String.eqb k k' then Some v else PyDict.get k d.
Proof.
  induction d as [|[k0 v0] d IH]; simpl.
  - reflexivity.
  - destruct (String.eqb k' k0) eqn:E'; simpl.
    + apply String.eqb_eq in E'. subst k0.
      destruct (String.eqb k k'); reflexivity.
    + destruct (String.eqb k k0) eqn:E0.
      * apply String.eqb_eq in E0. subst k0.
        rewrite String.eqb_sym, E'. reflexivity.
      * exact IH.
Qed.

Lemma fold_steps (cell_ccf : ref) (cells : list Cell)
    (region_list : list string) :
  forall (out : RegionTables) (st : store),
    nth_error st cell_ccf = Some (of_cells cells) ->
    Store.fold
      (region_loop_body cell_ccf
         ([PARCELLATION_SUBSTRUCTURE; "E"; "I"; "O"]
          ++ GABA_COLUMNS ++ GLUT_COLUMNS))
      region_list out st
    = Some (fold_left (step cells) region_list (out, st)).
Proof.
  induction region_list as [|region l IH]; intros out st H.
  - reflexivity.
  - cbn [Store.fold fold_left]. unfold bind.
    rewrite (region_loop_body_step cell_ccf cells out region st H).
    unfold step at 1. cbn [fst snd]. apply IH.
    rewrite nth_error_app1; [exact H |].
    apply nth_error_Some. rewrite H. discriminate.
Qed.

Lemma region_ccf_cell_types_steps (cell_ccf : ref) (cells : list Cell)
    (region_list : list string) (st : store) :
  nth_error st cell_ccf = Some (of_cells cells) ->
  region_ccf_cell_types cell_ccf region_list st
  = Some (fold_left (step cells) region_list (mkTables [] [] [], st)).
Proof. intros H. unfold region_ccf_cell_types. apply fold_steps, H. Qed.

(** What the mappings hold for [region] once the loop has run over
    [region_list]. *)
Lemma steps_spec (cells : list Cell) (region_list : list string) :
  forall (out : RegionTables) (st : store),
    let final := fold_left (step cells) region_list (out, st) in
    (exists ext, snd final = st ++ ext) /\
    forall region,
      let cs := region_cells region cells in
      (In region region_list /\ cs <> [] ->
       PyDict.get region (region_ctx_ccf (fst final)) = Some (count_table cs) /\
       PyDict.get region (region_frac_ccf (fst final))
       = Some (ratio_table region cs) /\
       exists r,
         PyDict.get region (region_cell_ccf (fst final)) = Some r /\
         List.length st <= r /\
         nth_error (snd final) r = Some (map classified cs)) /\
      (~ (In region region_list /\ cs <> []) ->
       PyDict.get region (region_ctx_ccf (fst final))
       = PyDict.get region (region_ctx_ccf out) /\
       PyDict.get region (region_frac_ccf (fst final))
       = PyDict.get region (region_frac_ccf out) /\
       PyDict.get region (region_cell_ccf (fst final))
       = PyDict.get region (region_cell_ccf out)).
Proof.
  induction region_list as [|r0 l IH]; intros out st; cbv zeta.
  - cbn [fold_left fst snd]. split.
    + exists []. symmetry. apply app_nil_r.
    + intros region. split.
      * intros [[] _].
      * intros _. repeat split.
  - cbn [fold_left].
    specialize (IH (step_tables cells (List.length st) out r0)
                   (st ++ step_frames cells r0)).
    cbv zeta in IH. unfold step at 2. cbn [fst snd].
    set (final := fold_left (step cells) l _) in *.
    destruct IH as [[ext Hext] IH]. split.
    + exists (step_frames cells r0 ++ ext). rewrite Hext. symmetry.
      apply app_assoc.
    + intros region. specialize (IH region). destruct IH as [IHin IHout].
      destruct (in_dec string_dec region l) as [Hl | Hl];
        destruct (region_cells region cells) as [|c0 cs'] eqn:Hcs.
      * split; [intros [_ Hne]; congruence |].
        intros _.
        destruct IHout as (H1 & H2 & H3); [intros [_ Hne]; congruence |].
        rewrite H1, H2, H3. unfold step_tables.
        destruct (region_cells r0 cells) eqn:Hr0; [repeat split |].
        cbn [region_ctx_ccf region_frac_ccf region_cell_ccf].
        rewrite !get_set.
        destruct (String.eqb region r0) eqn:E; [| repeat split].
        apply String.eqb_eq in E. subst r0. congruence.
      * split; [| intros Hn; exfalso; apply Hn; split;
                  [right; exact Hl | discriminate]].
        intros _.
        destruct IHin as (H1 & H2 & r & H3 & H4 & H5);
          [split; [exact Hl | discriminate] |].
        split; [exact H1 |]. split; [exact H2 |].
        exists r. split; [exact H3 |]. split; [| exact H5].
        rewrite length_app in H4. lia.
      * split; [intros [_ Hne]; congruence |].
        intros _.
        destruct IHout as (H1 & H2 & H3); [intros [_ Hne]; congruence |].
        rewrite H1, H2, H3. unfold step_tables.
        destruct (region_cells r0 cells) eqn:Hr0; [repeat split |].
        cbn [region_ctx_ccf region_frac_ccf region_cell_ccf].
        rewrite !get_set.
        destruct (String.eqb region r0) eqn:E; [| repeat split].
        apply String.eqb_eq in E. subst r0. congruence.
      * destruct IHout as (H1 & H2 & H3); [intros [Hin _]; contradiction |].
        rewrite H1, H2, H3. unfold step_tables, step_frames in *.
        destruct (String.eqb region r0) eqn:E.
        -- apply String.eqb_eq in E. subst r0. rewrite Hcs in *.
           cbn [region_ctx_ccf region_frac_ccf region_cell_ccf].
           rewrite !get_set, String.eqb_refl.
           split; [| intros Hn; exfalso; apply Hn; split;
                       [left; reflexivity | discriminate]].
           intros _. split; [reflexivity |]. split; [reflexivity |].
           exists (List.length st + 2). split; [reflexivity |].
           split; [lia |].
           rewrite Hext.
           rewrite nth_error_app1
             by (rewrite length_app; cbn [List.length]; lia).
           rewrite nth_error_app2 by lia.
           replace (List.length st + 2 - List.length st) with 2 by lia.
           reflexivity.
        -- apply String.eqb_neq in E.
           split; [intros [[Heq | Hin] _];
                   [congruence | contradiction] |].
           intros _.
           destruct (region_cells r0 cells) eqn:Hr0; [repeat split |].
           cbn [region_ctx_ccf region_frac_ccf region_cell_ccf].
           rewrite !get_set.
           apply String.eqb_neq in E. rewrite E. repeat split.
Qed.

(** The result of [region_ccf_cell_types] on a table without flag columns:
    the call returns, the store only grows, and a region has entries in the
    three mappings iff it is requested and has cells. *)
Lemma region_ccf_cell_types_spec (cell_ccf : ref) (cells : list Cell)
    (region_list : list string) (st : store) :
  nth_error st cell_ccf = Some (of_cells cells) ->
  exists (out : RegionTables) (ext : store),
    region_ccf_cell_types cell_ccf region_list st = Some (out, st ++ ext) /\
    forall region,
      let cs := region_cells region cells in
      (In region region_list /\ cs <> [] ->
       PyDict.get region (region_ctx_ccf out) = Some (count_table cs) /\
       PyDict.get region (region_frac_ccf out) = Some (ratio_table region cs) /\
       exists r,
         PyDict.get region (region_cell_ccf out) = Some r /\
         List.length st <= r /\
         nth_error (st ++ ext) r = Some (map classified cs)) /\
      (~ (In region region_list /\ cs <> []) ->
       PyDict.get region (region_ctx_ccf out) = None /\
       PyDict.get region (region_frac_ccf out) = None /\
       PyDict.get region (region_cell_ccf out) = None).
Proof.
  intros H.
  pose proof (steps_spec cells region_list (mkTables [] [] []) st) as S.
  cbv zeta in S.
  rewrite (region_ccf_cell_types_steps cell_ccf cells region_list st H).
  destruct (fold_left (step cells) region_list (mkTables [] [] [], st))
    as [out st'].
  cbn [fst snd] in S. destruct S as [[ext Hext] S]. subst st'.
  exists out, ext. split; [reflexivity |]. exact S.
Qed.

(** A region with an entry in one of the mappings is a requested region
    with cells. *)
Lemma region_entry_cases (P : Prop) (l : list string) (region : string)
    (cs : list Cell) :
  (In region l /\ cs <> [] -> P) -> (~ (In region l /\ cs <> []) -> P) -> P.
Proof.
  intros H1 H2.
  destruct (in_dec string_dec region l) as [Hl | Hl].
  - destruct cs as [|c cs'].
    + apply H2. intros [_ Hne]. congruence.
    + apply H1. split; [exact Hl | discriminate].
  - apply H2. intros [Hin _]. contradiction.
Qed.

(** ** Counting *)

Lemma cnt_nonneg (f : Cell -> bool) (grp : list Cell) : (0 <= cnt f grp)%Z.
Proof.
  induction grp as [|c grp IH].
  - reflexivity.
  - change (0 <= Z.b2z (f c) + cnt f grp)%Z.
    destruct (f c); cbn [Z.b2z]; lia.
Qed.

Lemma flags_EIO_one (c : Cell) :
  (Z.b2z (flag_E c) + Z.b2z (flag_I c) + Z.b2z (flag_O c) = 1)%Z.
Proof.
  unfold flag_O.
  destruct (flag_E c) eqn:HE; destruct (flag_I c) eqn:HI; try reflexivity.
  unfold flag_E, flag_I in *.
  rewrite (endswith_Glut_not_GABA _ HE) in HI. discriminate HI.
Qed.

(** The sums E + I + O over a group count its cells. *)
Lemma cnt_EIO (grp : list Cell) :
  (cnt flag_E grp + cnt flag_I grp + cnt flag_O grp
   = Z.of_nat (List.length grp))%Z.
Proof.
  induction grp as [|c grp IH].
  - reflexivity.
  - change (cnt flag_E grp + cnt flag_I grp + cnt flag_O grp
            = Z.of_nat (List.length grp))%Z in IH.
    change ((Z.b2z (flag_E c) + cnt flag_E grp)
            + (Z.b2z (flag_I c) + cnt flag_I grp)
            + (Z.b2z (flag_O c) + cnt flag_O grp)
            = Z.of_nat (S (List.length grp)))%Z.
    pose proof (flags_EIO_one c). lia.
Qed.

(** ** Group keys *)

Lemma dropna_In (k : string) (s : list (option string)) :
  In k (dropna s) <-> In (Some k) s.
Proof.
  induction s as [|[x|] s IH]; simpl.
  - tauto.
  - rewrite IH. split; intros [H | H]; auto.
    + left. congruence.
    + left. congruence.
  - rewrite IH. split; [auto |]. intros [H | H]; [discriminate | exact H].
Qed.

Lemma group_keys_In (k : string) (s : list (option string)) :
  In k (group_keys s) <-> In (Some k) s.
Proof.
  unfold group_keys. split; intros H.
  - apply dropna_In, (nodup_In string_dec).
    eapply Permutation_in; [| exact H].
    apply Permutation_sym, StringSort.Permuted_sort.
  - eapply Permutation_in; [apply StringSort.Permuted_sort |].
    apply nodup_In, dropna_In, H.
Qed.

Lemma group_keys_NoDup (s : list (option string)) : NoDup (group_keys s).
Proof.
  unfold group_keys.
  eapply Permutation_NoDup; [apply StringSort.Permuted_sort |].
  apply NoDup_nodup.
Qed.

(** The entries of the three mappings, read back. *)
Lemma region_ccf_cell_types_tables (cell_ccf : ref) (cells : list Cell)
    (region_list : list string) (st : store) :
  nth_error st cell_ccf = Some (of_cells cells) ->
  exists (out : RegionTables) (ext : store),
    region_ccf_cell_types cell_ccf region_list st = Some (out, st ++ ext) /\
    (forall region tbl,
       PyDict.get region (region_ctx_ccf out) = Some tbl ->
       In region region_list /\ region_cells region cells <> [] /\
       tbl = count_table (region_cells region cells)) /\
    (forall region tbl,
       PyDict.get region (region_frac_ccf out) = Some tbl ->
       In region region_list /\ region_cells region cells <> [] /\
       tbl = ratio_table region (region_cells region cells) /\
       PyDict.get region (region_ctx_ccf out)
       = Some (count_table (region_cells region cells))) /\
    (forall region r,
       PyDict.get region (region_cell_ccf out) = Some r ->
       In region region_list /\ region_cells region cells <> [] /\
       List.length st <= r /\
       nth_error (st ++ ext) r
       = Some (map classified (region_cells region cells))) /\
    (forall region,
       ~ (In region region_list /\ region_cells region cells <> []) ->
       PyDict.get region (region_cell_ccf out) = None /\
       PyDict.get region (region_ctx_ccf out) = None /\
       PyDict.get region (region_frac_ccf out) = None).
Proof.
  intros H.
  destruct (region_ccf_cell_types_spec cell_ccf cells region_list st H)
    as (out & ext & Hrun & S).
  exists out, ext. split; [exact Hrun |].
  split; [| split; [| split]].
  - intros region tbl Hg. specialize (S region). cbv zeta in S.
    destruct S as [Sin Sout].
    apply (region_entry_cases _ region_list region (region_cells region cells)).
    + intros Hp. destruct (Sin Hp) as (H1 & _). destruct Hp as [Hl Hne].
      split; [exact Hl |]. split; [exact Hne | congruence].
    + intros Hn. destruct (Sout Hn) as (H1 & _). congruence.
  - intros region tbl Hg. specialize (S region). cbv zeta in S.
    destruct S as [Sin Sout].
    apply (region_entry_cases _ region_list region (region_cells region cells)).
    + intros Hp. destruct (Sin Hp) as (H1 & H2 & _). destruct Hp as [Hl Hne].
      split; [exact Hl |]. split; [exact Hne |].
      split; [congruence | exact H1].
    + intros Hn. destruct (Sout Hn) as (_ & H2 & _). congruence.
  - intros region r Hg. specialize (S region). cbv zeta in S.
    destruct S as [Sin Sout].
    apply (region_entry_cases _ region_list region (region_cells region cells)).
    + intros Hp. destruct (Sin Hp) as (_ & _ & r' & H3 & H4 & H5).
      destruct Hp as [Hl Hne].
      split; [exact Hl |]. split; [exact Hne |].
      assert (r = r') by congruence. subst r'. split; assumption.
    + intros Hn. destruct (Sout Hn) as (_ & _ & H3). congruence.
  - intros region Hn. specialize (S region). cbv zeta in S.
    destruct S as [_ Sout]. destruct (Sout Hn) as (H1 & H2 & H3).
    repeat split; assumption.
Qed.

(** C5: every RegionCountRow holds, for its substructure, the sums of the
    flags E, I and O over the records of the substructure, and the derived
    columns are computed from these sums: T = E + I + O and EI = E + I. *)
Theorem region_count_row_totals (st : store) (cell_ccf : ref)
    (cells : list Cell) (region_list : list string) :
  nth_error st cell_ccf = Some (of_cells cells) ->
  exists (out : RegionTables) (st' : store),
    region_ccf_cell_types cell_ccf region_list st = Some (out, st') /\
    forall region tbl,
      PyDict.get region (region_ctx_ccf out) = Some tbl ->
      Forall (fun row =>
        let grp :=
          substructure_cells (idx row) (region_cells region cells) in
        exists e i o : Z,
          e = sum_bool (map flag_E grp) /\
          i = sum_bool (map flag_I grp) /\
          o = sum_bool (map flag_O grp) /\
          PyDict.get "E" (cols row) = Some e /\
          PyDict.get "I" (cols row) = Some i /\
          PyDict.get "O" (cols row) = Some o /\
          PyDict.get "T" (cols row) = Some (e + i + o)%Z /\
          PyDict.get "EI" (cols row) = Some (e + i)%Z) tbl.
Proof.
  intros H.
  destruct (region_ccf_cell_types_tables cell_ccf cells region_list st H)
    as (out & ext & Hrun & Hctx & _).
  exists out, (st ++ ext). split; [exact Hrun |].
  intros region tbl Hg.
  destruct (Hctx region tbl Hg) as (_ & _ & ->).
  unfold count_table. apply Forall_map, Forall_forall. intros k _.
  cbv zeta. eexists _, _, _.
  repeat split.
Qed.

Lemma region_count_row_totals_witness :
  exists (out : RegionTables) (st' : store),
    region_ccf_cell_types 0 sample_regions [of_cells sample_cells]
    = Some (out, st') /\
    forall region tbl,
      PyDict.get region (region_ctx_ccf out) = Some tbl ->
      Forall (fun row =>
        let grp :=
          substructure_cells (idx row) (region_cells region sample_cells) in
        exists e i o : Z,
          e = sum_bool (map flag_E grp) /\
          i = sum_bool (map flag_I grp) /\
          o = sum_bool (map flag_O grp) /\
          PyDict.get "E" (cols row) = Some e /\
          PyDict.get "I" (cols row) = Some i /\
          PyDict.get "O" (cols row) = Some o /\
          PyDict.get "T" (cols row) = Some (e + i + o)%Z /\
          PyDict.get "EI" (cols row) = Some (e + i)%Z) tbl.
Proof.
  apply (region_count_row_totals
           [of_cells sample_cells] 0 sample_cells sample_regions).
  reflexivity.
Defined.


(** The tables of the region "VISp" of the sample: the substructure
    "VISp1" has three excitatory records (two of them IT) and two
    inhibitory ones (one of them Pvalb), "VISp5" has one record of each
    top-level flag. *)
Example sample_region_tables :
  exists (out : RegionTables) (st' : store) (ctx : CountFrame)
         (frac : RatioFrame),
    region_ccf_cell_types 0 sample_regions [of_cells sample_cells]
    = Some (out, st') /\
    PyDict.get "VISp" (region_ctx_ccf out) = Some ctx /\
    PyDict.get "VISp" (region_frac_ccf out) = Some frac /\
    index ctx = ["VISp1"; "VISp5"] /\
    map (fun row => omap (fun n => PyDict.get n (cols row))
                      ["E"; "I"; "O"; "T"; "EI"; "IT"; "Glut-Other";
                       "Pvalb"; "GABA-Other"]) ctx
    = [ Some [3; 2; 0; 5; 5; 2; 1; 1; 1]%Z;
        Some [1; 1; 1; 3; 2; 0; 0; 0; 0]%Z ] /\
    map (fun row => omap (fun n => PyDict.get n (cols row))
                      ["Layer"; "nregion"; "inhibitory fraction";
                       "fraction wi. region"; "IT fraction";
                       "Pvalb fraction"]) frac
    = [ Some [RStr "1"; RInt 8;
              RFloat (FNum (inject_Z 2 / inject_Z 5));
              RFloat (FNum (inject_Z 5 / inject_Z 8));
              RFloat (FNum (inject_Z 2 / inject_Z 3));
              RFloat (FNum (inject_Z 1 / inject_Z 2))];
        Some [RStr "5"; RInt 8;
              RFloat (FNum (inject_Z 1 / inject_Z 2));
              RFloat (FNum (inject_Z 3 / inject_Z 8));
              RFloat (FNum (inject_Z 0 / inject_Z 1));
              RFloat (FNum (inject_Z 0 / inject_Z 1))] ].
Proof.
  eexists _, _, _, _.
  split; [vm_compute; reflexivity |].
  repeat split; vm_compute; reflexivity.
Qed.

Lemma key_is_true (k : string) (v : option string) :
  key_is k v = true <-> v = Some k.
Proof.
  destruct v as [x|]; simpl.
  - rewrite String.eqb_eq. split; congruence.
  - split; discriminate.
Qed.

Lemma region_cells_In (region : string) (cells : list Cell) (c : Cell) :
  In c (region_cells region cells)
  <-> In c cells /\ parcellation_structure c = Some region.
Proof. unfold region_cells. rewrite filter_In, key_is_true. tauto. Qed.

Lemma region_cells_nil (region : string) (cells : list Cell) :
  (forall c, In c cells -> parcellation_structure c <> Some region) ->
  region_cells region cells = [].
Proof.
  intros H. destruct (region_cells region cells) as [|c cs] eqn:E.
  - reflexivity.
  - assert (Hc : In c (region_cells region cells))
      by (rewrite E; left; reflexivity).
    apply region_cells_In in Hc. destruct Hc as [Hin Hs].
    exfalso. exact (H c Hin Hs).
Qed.

Lemma count_table_index (cs : list Cell) :
  index (count_table cs) = group_keys (map parcellation_substructure cs).
Proof.
  unfold count_table. rewrite index_rows. cbn [idx count_row]. apply map_id.
Qed.

Lemma ratio_table_index (region : string) (cs : list Cell) :
  index (ratio_table region cs) = index (count_table cs).
Proof.
  unfold ratio_table. rewrite index_rows. reflexivity.
Qed.

(** A substructure with a row in the count table has a cell. *)
Lemma count_table_row_cell (cs : list Cell) (k : string) :
  In k (index (count_table cs)) ->
  exists c, In c cs /\ parcellation_substructure c = Some k.
Proof.
  rewrite count_table_index, group_keys_In, in_map_iff.
  intros (c & Hk & Hc). exists c. split; assumption.
Qed.

(** C6: a region with no record in the table has no entry in any of the
    three mappings, and a substructure with no record among the records of
    a region has no row in the region's count table and none in its
    fraction table; the call returns. *)
Theorem region_without_records_absent (st : store) (cell_ccf : ref)
    (cells : list Cell) (region_list : list string) :
  nth_error st cell_ccf = Some (of_cells cells) ->
  exists (out : RegionTables) (st' : store),
    region_ccf_cell_types cell_ccf region_list st = Some (out, st') /\
    (forall region,
       (forall c, In c cells -> parcellation_structure c <> Some region) ->
       PyDict.get region (region_cell_ccf out) = None /\
       PyDict.get region (region_ctx_ccf out) = None /\
       PyDict.get region (region_frac_ccf out) = None) /\
    (forall region k,
       (forall c, In c cells -> parcellation_structure c = Some region ->
                  parcellation_substructure c <> Some k) ->
       (forall tbl, PyDict.get region (region_ctx_ccf out) = Some tbl ->
                    ~ In k (index tbl)) /\
       (forall tbl, PyDict.get region (region_frac_ccf out) = Some tbl ->
                    ~ In k (index tbl))).
Proof.
  intros H.
  destruct (region_ccf_cell_types_tables cell_ccf cells region_list st H)
    as (out & ext & Hrun & Hctx & Hfrac & _ & Hnone).
  exists out, (st ++ ext). split; [exact Hrun |]. split.
  - intros region Hno. apply Hnone. intros [_ Hne].
    apply Hne, region_cells_nil, Hno.
  - intros region k Hno.
    assert (Hk : ~ In k (index (count_table (region_cells region cells)))).
    { intros Hin. apply count_table_row_cell in Hin.
      destruct Hin as (c & Hc & Hs).
      apply region_cells_In in Hc. destruct Hc as [Hc Hr].
      exact (Hno c Hc Hr Hs). }
    split; intros tbl Hg.
    + destruct (Hctx region tbl Hg) as (_ & _ & ->). exact Hk.
    + destruct (Hfrac region tbl Hg) as (_ & _ & -> & _).
      rewrite ratio_table_index. exact Hk.
Qed.

Lemma region_without_records_absent_witness :
  exists (out : RegionTables) (st' : store),
    region_ccf_cell_types 0 sample_regions [of_cells sample_cells]
    = Some (out, st') /\
    (forall region,
       (forall c, In c sample_cells ->
                  parcellation_structure c <> Some region) ->
       PyDict.get region (region_cell_ccf out) = None /\
       PyDict.get region (region_ctx_ccf out) = None /\
       PyDict.get region (region_frac_ccf out) = None) /\
    (forall region k,
       (forall c, In c sample_cells ->
                  parcellation_structure c = Some region ->
                  parcellation_substructure c <> Some k) ->
       (forall tbl, PyDict.get region (region_ctx_ccf out) = Some tbl ->
                    ~ In k (index tbl)) /\
       (forall tbl, PyDict.get region (region_frac_ccf out) = Some tbl ->
                    ~ In k (index tbl))).
Proof.
  apply (region_without_records_absent
           [of_cells sample_cells] 0 sample_cells sample_regions).
  reflexivity.
Defined.


(** C9: [region_ccf_cell_types] leaves its input table as it was: after the
    call the store holds the same frame at [cell_ccf], and at every other
    reference that existed before; the classified frames it returns are
    new objects. *)
Theorem region_ccf_cell_types_keeps_input (st : store) (cell_ccf : ref)
    (cells : list Cell) (region_list : list string) :
  nth_error st cell_ccf = Some (of_cells cells) ->
  exists (out : RegionTables) (st' : store),
    region_ccf_cell_types cell_ccf region_list st = Some (out, st') /\
    nth_error st' cell_ccf = Some (of_cells cells) /\
    (forall r df, nth_error st r = Some df -> nth_error st' r = Some df) /\
    (forall region r,
       PyDict.get region (region_cell_ccf out) = Some r ->
       List.length st <= r /\
       nth_error st' r = Some (map classified (region_cells region cells))).
Proof.
  intros H.
  destruct (region_ccf_cell_types_tables cell_ccf cells region_list st H)
    as (out & ext & Hrun & _ & _ & Hcell & _).
  exists out, (st ++ ext). split; [exact Hrun |].
  assert (Hold : forall r df, nth_error st r = Some df ->
                              nth_error (st ++ ext) r = Some df).
  { intros r df Hr. rewrite nth_error_app1; [exact Hr |].
    apply nth_error_Some. rewrite Hr. discriminate. }
  split; [apply Hold, H |]. split; [exact Hold |].
  intros region r Hg. destruct (Hcell region r Hg) as (_ & _ & Hr & Hf).
  split; assumption.
Qed.

Lemma region_ccf_cell_types_keeps_input_witness :
  exists (out : RegionTables) (st' : store),
    region_ccf_cell_types 0 sample_regions [of_cells sample_cells]
    = Some (out, st') /\
    nth_error st' 0 = Some (of_cells sample_cells) /\
    (forall r df, nth_error [of_cells sample_cells] r = Some df ->
                  nth_error st' r = Some df) /\
    (forall region r,
       PyDict.get region (region_cell_ccf out) = Some r ->
       List.length [of_cells sample_cells] <= r /\
       nth_error st' r
       = Some (map classified (region_cells region sample_cells))).
Proof.
  apply (region_ccf_cell_types_keeps_input
           [of_cells sample_cells] 0 sample_cells sample_regions).
  reflexivity.
Defined.


(** ** Ratios *)

Lemma int_truediv_pos (a b : Z) :
  (0 < b)%Z -> int_truediv a b = FNum (inject_Z a / inject_Z b).
Proof.
  intros Hb. unfold int_truediv.
  destruct (Z.eqb_spec b 0) as [E | _]; [lia | reflexivity].
Qed.

Lemma Qdiv_unit (a b : Z) :
  (0 <= a <= b)%Z -> (0 < b)%Z ->
  (0 <= inject_Z a / inject_Z b)%Q /\ (inject_Z a / inject_Z b <= 1)%Q.
Proof.
  intros [Ha Hab] Hb.
  assert (Hb' : (0 < inject_Z b)%Q)
    by (change 0%Q with (inject_Z 0); rewrite <- Zlt_Qlt; exact Hb).
  split.
  - apply Qle_shift_div_l; [exact Hb' |].
    rewrite Qmult_0_l. change 0%Q with (inject_Z 0).
    rewrite <- Zle_Qle. exact Ha.
  - apply Qle_shift_div_r; [exact Hb' |].
    rewrite Qmult_1_l. rewrite <- Zle_Qle. exact Hab.
Qed.

Lemma Forall2_map_self {A B : Type} (P : A -> B -> Prop) (f : A -> B)
    (l : list A) :
  (forall a, In a l -> P a (f a)) -> Forall2 P l (map f l).
Proof.
  induction l as [|a l IH]; intros H; simpl.
  - constructor.
  - constructor.
    + apply H. left. reflexivity.
    + apply IH. intros b Hb. apply H. right. exact Hb.
Qed.

(** C4: the inhibitory fraction of a FractionRow is I / EI of the count row
    of the same substructure: a number in [0, 1] when EI > 0, and NaN when
    EI = 0 (EI is never negative); the call returns in either case. *)
Theorem inhibitory_fraction_range (st : store) (cell_ccf : ref)
    (cells : list Cell) (region_list : list string) :
  nth_error st cell_ccf = Some (of_cells cells) ->
  exists (out : RegionTables) (st' : store),
    region_ccf_cell_types cell_ccf region_list st = Some (out, st') /\
    forall region frac,
      PyDict.get region (region_frac_ccf out) = Some frac ->
      exists ctx,
        PyDict.get region (region_ctx_ccf out) = Some ctx /\
        Forall2 (fun crow frow =>
          idx frow = idx crow /\
          exists ei : Z,
            PyDict.get "EI" (cols crow) = Some ei /\
            (0 <= ei)%Z /\
            ((0 < ei)%Z ->
             exists q : Q,
               PyDict.get INHIBITORY_FRACTION_COLUMN (cols frow)
               = Some (RFloat (FNum q)) /\
               (0 <= q)%Q /\ (q <= 1)%Q) /\
            (ei = 0%Z ->
             PyDict.get INHIBITORY_FRACTION_COLUMN (cols frow)
             = Some (RFloat FNaN))) ctx frac.
Proof.
  intros H.
  destruct (region_ccf_cell_types_tables cell_ccf cells region_list st H)
    as (out & ext & Hrun & _ & Hfrac & _).
  exists out, (st ++ ext). split; [exact Hrun |].
  intros region frac Hg.
  destruct (Hfrac region frac Hg) as (_ & _ & -> & Hc).
  eexists. split; [exact Hc |].
  unfold ratio_table. apply Forall2_map_self. intros crow Hcrow.
  unfold count_table in Hcrow. apply in_map_iff in Hcrow.
  destruct Hcrow as (k & <- & _).
  split; [reflexivity |].
  set (grp := substructure_cells k (region_cells region cells)).
  pose proof (cnt_nonneg flag_E grp) as HE.
  pose proof (cnt_nonneg flag_I grp) as HI.
  exists (cnt flag_E grp + cnt flag_I grp)%Z.
  split; [reflexivity |]. split; [lia |].
  assert (Hfr : PyDict.get INHIBITORY_FRACTION_COLUMN
                  (cols (ratio_row region
                           (Z.of_nat (List.length (region_cells region cells)))
                           (count_row (region_cells region cells) k)))
                = Some (RFloat (int_truediv (cnt flag_I grp)
                                  (cnt flag_E grp + cnt flag_I grp))))
    by reflexivity.
  rewrite Hfr.
  split.
  - intros Hpos. rewrite int_truediv_pos by exact Hpos.
    eexists. split; [reflexivity |].
    apply Qdiv_unit; lia.
  - intros Hz. assert (HI0 : cnt flag_I grp = 0%Z) by lia.
    rewrite Hz, HI0. reflexivity.
Qed.

Lemma inhibitory_fraction_range_witness :
  exists (out : RegionTables) (st' : store),
    region_ccf_cell_types 0 sample_regions [of_cells sample_cells]
    = Some (out, st') /\
    forall region frac,
      PyDict.get region (region_frac_ccf out) = Some frac ->
      exists ctx,
        PyDict.get region (region_ctx_ccf out) = Some ctx /\
        Forall2 (fun crow frow =>
          idx frow = idx crow /\
          exists ei : Z,
            PyDict.get "EI" (cols crow) = Some ei /\
            (0 <= ei)%Z /\
            ((0 < ei)%Z ->
             exists q : Q,
               PyDict.get INHIBITORY_FRACTION_COLUMN (cols frow)
               = Some (RFloat (FNum q)) /\
               (0 <= q)%Q /\ (q <= 1)%Q) /\
            (ei = 0%Z ->
             PyDict.get INHIBITORY_FRACTION_COLUMN (cols frow)
             = Some (RFloat FNaN))) ctx frac.
Proof.
  apply (inhibitory_fraction_range
           [of_cells sample_cells] 0 sample_cells sample_regions).
  reflexivity.
Defined.


(** ** The substructures partition the cells of a region *)

Lemma key_once_absent (k0 : string) (ks : list string) :
  ~ In k0 ks ->
  list_sum (map (fun k => if key_is k (Some k0) then 1 else 0) ks) = 0.
Proof.
  induction ks as [|k ks IH]; intros Hn.
  - reflexivity.
  - cbn [map list_sum fold_right]. unfold key_is at 1.
    destruct (String.eqb_spec k0 k) as [E | _].
    + exfalso. apply Hn. left. congruence.
    + apply IH. intros Hin. apply Hn. right. exact Hin.
Qed.

Lemma key_once (k0 : string) (ks : list string) :
  NoDup ks -> In k0 ks ->
  list_sum (map (fun k => if key_is k (Some k0) then 1 else 0) ks) = 1.
Proof.
  induction ks as [|k ks IH]; intros Hnd Hin.
  - destruct Hin.
  - inversion Hnd as [| k' ks' Hk Hnd']; subst.
    cbn [map list_sum fold_right]. unfold key_is at 1.
    destruct (String.eqb_spec k0 k) as [E | E].
    + subst k0. rewrite key_once_absent by exact Hk. reflexivity.
    + apply IH; [exact Hnd' |].
      destruct Hin as [Hin | Hin]; [congruence | exact Hin].
Qed.

Lemma list_sum_map_add {A : Type} (f g : A -> nat) (l : list A) :
  list_sum (map (fun a => f a + g a) l)
  = list_sum (map f l) + list_sum (map g l).
Proof.
  induction l as [|a l IH]; simpl.
  - reflexivity.
  - rewrite IH. lia.
Qed.

Lemma substructure_sizes (ks : list string) (cs : list Cell) :
  NoDup ks ->
  (forall c, In c cs ->
     exists k, In k ks /\ parcellation_substructure c = Some k) ->
  list_sum (map (fun k => List.length (substructure_cells k cs)) ks)
  = List.length cs.
Proof.
  intros Hnd. induction cs as [|c cs IH]; intros Hall.
  - change (list_sum (map (fun _ : string => 0) ks) = 0).
    clear. induction ks as [|k ks IHk]; [reflexivity | exact IHk].
  - rewrite (map_ext _
      (fun k => (if key_is k (parcellation_substructure c) then 1 else 0)
                + List.length (substructure_cells k cs))).
    + rewrite list_sum_map_add, IH.
      * destruct (Hall c (or_introl eq_refl)) as (k0 & Hk0 & ->).
        rewrite key_once by assumption. reflexivity.
      * intros c' Hc'. apply Hall. right. exact Hc'.
    + intros k. unfold substructure_cells. cbn [filter].
      destruct (key_is k (parcellation_substructure c)); reflexivity.
Qed.


Lemma Qsum_shares (d : Z) (f : string -> nat) (ks : list string) :
  (Qsum (map (fun k => inject_Z (Z.of_nat (f k)) / inject_Z d) ks)
   == inject_Z (Z.of_nat (list_sum (map f ks))) / inject_Z d)%Q.
Proof.
  induction ks as [|k ks IH].
  - unfold Qsum, Qdiv. cbn [map fold_right list_sum].
    change (inject_Z (Z.of_nat 0)) with 0%Q.
    rewrite Qmult_0_l. reflexivity.
  - unfold Qsum in *. cbn [map fold_right].
    change (list_sum (f k :: map f ks)) with (f k + list_sum (map f ks)).
    rewrite IH, Nat2Z.inj_add, inject_Z_plus. unfold Qdiv. ring.
Qed.




(** ** ResultFlattener *)

Lemma fold_left_append {A : Type} (l acc : list A) :
  fold_left (fun acc x => acc ++ [x]) l acc = acc ++ l.
Proof.
  revert acc. induction l as [|x l IH]; intros acc; simpl.
  - symmetry. apply app_nil_r.
  - rewrite IH, <- app_assoc. reflexivity.
Qed.

Lemma fold_left_extend {A B : Type} (step : list B -> A -> list B)
    (rows : A -> list B) (l : list A) :
  (forall acc a, step acc a = acc ++ rows a) ->
  forall acc, fold_left step l acc = acc ++ flat_map rows l.
Proof.
  intros Hstep. induction l as [|a l IH]; intros acc; simpl.
  - symmetry. apply app_nil_r.
  - rewrite IH, Hstep, <- app_assoc. reflexivity.
Qed.

Lemma flat_map_ext_in {A B : Type} (f g : A -> list B) (l : list A) :
  (forall a, In a l -> f a = g a) -> flat_map f l = flat_map g l.
Proof.
  induction l as [|a l IH]; intros H; simpl.
  - reflexivity.
  - rewrite (H a (or_introl eq_refl)), IH; [reflexivity |].
    intros b Hb. apply H. right. exact Hb.
Qed.

(** The rows [qry2dict] appends for the value map of one region. *)
Lemma qry2dict_flat_map (in_iter : list (dict (dict pyval))) :
  DFBuilder.qry2dict in_iter
  = flat_map (fun qry_result =>
      flat_map (fun rx_region_dct =>
                  let region_dct := snd rx_region_dct in
                  if DFBuilder.has_sub_region region_dct
                  then PyDict.values region_dct
                  else [PMap region_dct])
               (PyDict.items qry_result)) in_iter.
Proof.
  unfold DFBuilder.qry2dict.
  rewrite (fold_left_extend _
    (fun qry_result =>
       flat_map (fun rx_region_dct =>
                   let region_dct := snd rx_region_dct in
                   if DFBuilder.has_sub_region region_dct
                   then PyDict.values region_dct
                   else [PMap region_dct])
                (PyDict.items qry_result))).
  - reflexivity.
  - intros acc qry_result. apply fold_left_extend.
    intros acc' kv. cbv zeta.
    destruct (DFBuilder.has_sub_region (snd kv)).
    + apply fold_left_append.
    + reflexivity.
Qed.

Lemma leaf_maps_leaf (v : pyval) : is_leaf_map v = true -> leaf_maps v = [v].
Proof.
  destruct v as [s | m]; [discriminate |]. intros H.
  cbn [leaf_maps].
  replace (existsb DFBuilder.is_mapping (PyDict.values m)) with false;
    [reflexivity |].
  symmetry. apply not_true_is_false. intros He.
  apply existsb_exists in He. destruct He as (v' & Hin & Hv').
  cbn [is_leaf_map] in H. rewrite forallb_forall in H.
  specialize (H v' Hin). rewrite Hv' in H. discriminate H.
Qed.

Lemma leaf_maps_level (m : dict pyval) :
  forallb is_leaf_map (PyDict.values m) = true ->
  (fix below (l : list (string * pyval)) : list pyval :=
     match l with
     | [] => []
     | kv :: l' => leaf_maps (snd kv) ++ below l'
     end) m
  = PyDict.values m.
Proof.
  induction m as [|[k v] m IH]; intros H.
  - reflexivity.
  - cbn [PyDict.values map forallb snd] in H |- *.
    apply andb_true_iff in H. destruct H as [Hv Hm].
    rewrite (leaf_maps_leaf v Hv). cbn [app]. f_equal. apply IH, Hm.
Qed.

Lemma well_nested_rows (region_dct : dict pyval) :
  well_nested region_dct = true ->
  (if DFBuilder.has_sub_region region_dct
   then PyDict.values region_dct
   else [PMap region_dct])
  = leaf_maps (PMap region_dct).
Proof.
  intros H. cbn [leaf_maps]. unfold DFBuilder.has_sub_region.
  destruct (existsb DFBuilder.is_mapping (PyDict.values region_dct)) eqn:He.
  - symmetry. apply leaf_maps_level.
    unfold well_nested in H. apply orb_true_iff in H.
    destruct H as [H | H]; [| exact H].
    exfalso. apply existsb_exists in He. destruct He as (v & Hin & Hv).
    cbn [is_leaf_map] in H. rewrite forallb_forall in H.
    specialize (H v Hin). rewrite Hv in H. discriminate H.
  - reflexivity.
Qed.

(** C7, as the code has it: on result maps whose region value maps are
    leaf maps or one extra level of leaf maps, [qry2dict] returns the
    innermost leaf maps, in the order of the input sequence, then of the
    outer map, then of the inner map: one row equal to the value map when
    none of its values is a map, one row per leaf map when the extra level
    is there. *)
Theorem qry2dict_leaf_rows (in_iter : list (dict (dict pyval))) :
  Forall (fun qry_result =>
            Forall (fun region_dct => well_nested region_dct = true)
                   (PyDict.values qry_result)) in_iter ->
  DFBuilder.qry2dict in_iter
  = flat_map (fun qry_result =>
      flat_map (fun rx_region_dct => leaf_maps (PMap (snd rx_region_dct)))
               (PyDict.items qry_result)) in_iter
  /\ Forall (fun qry_result =>
       Forall (fun region_dct =>
         (DFBuilder.has_sub_region region_dct = false ->
          leaf_maps (PMap region_dct) = [PMap region_dct]) /\
         (DFBuilder.has_sub_region region_dct = true ->
          leaf_maps (PMap region_dct) = PyDict.values region_dct /\
          forallb is_leaf_map (PyDict.values region_dct) = true))
         (PyDict.values qry_result)) in_iter.
Proof.
  intros H. split.
  - rewrite qry2dict_flat_map.
    rewrite Forall_forall in H.
    apply flat_map_ext_in. intros qry_result Hq.
    apply flat_map_ext_in. intros kv Hkv.
    apply well_nested_rows.
    specialize (H qry_result Hq). rewrite Forall_forall in H.
    apply H. unfold PyDict.values. apply in_map. exact Hkv.
  - eapply Forall_impl; [| exact H]. intros qry_result Hq.
    eapply Forall_impl; [| exact Hq]. intros region_dct Hd. cbv beta in Hd.
    pose proof (well_nested_rows region_dct Hd) as Hr.
    split; intros Hs; rewrite Hs in Hr.
    + symmetry. exact Hr.
    + split; [symmetry; exact Hr |].
      unfold well_nested in Hd. apply orb_true_iff in Hd.
      destruct Hd as [Hd | Hd]; [| exact Hd].
      exfalso. unfold DFBuilder.has_sub_region in Hs.
      apply existsb_exists in Hs. destruct Hs as (v & Hin & Hv).
      cbn [is_leaf_map] in Hd. rewrite forallb_forall in Hd.
      specialize (Hd v Hin). rewrite Hv in Hd. discriminate Hd.
Qed.

Lemma qry2dict_leaf_rows_witness :
  DFBuilder.qry2dict sample_results
  = flat_map (fun qry_result =>
      flat_map (fun rx_region_dct => leaf_maps (PMap (snd rx_region_dct)))
               (PyDict.items qry_result)) sample_results
  /\ Forall (fun qry_result =>
       Forall (fun region_dct =>
         (DFBuilder.has_sub_region region_dct = false ->
          leaf_maps (PMap region_dct) = [PMap region_dct]) /\
         (DFBuilder.has_sub_region region_dct = true ->
          leaf_maps (PMap region_dct) = PyDict.values region_dct /\
          forallb is_leaf_map (PyDict.values region_dct) = true))
         (PyDict.values qry_result)) sample_results.
Proof.
  apply (qry2dict_leaf_rows sample_results).
  repeat constructor.
Defined.

(** C7 as stated fails: [qry2dict] looks one level down only.  In both
    region maps of [nested_results] an extra nesting level is there; the
    rows are the values of the region maps as they are, a scalar and a
    map that is not a leaf map among them, and not the innermost leaf
    maps. *)
Lemma qry2dict_nesting_counterexample :
  Forall (fun qry_result =>
            Forall (fun region_dct =>
                      DFBuilder.has_sub_region region_dct = true)
                   (PyDict.values qry_result)) nested_results /\
  DFBuilder.qry2dict nested_results
  = [ PMap [("Region", PScalar (RStr "VISp"))];
      PScalar (RStr "partial");
      PMap [("layers", PMap [("nregion", PScalar (RInt 2))])] ] /\
  flat_map (fun qry_result =>
      flat_map (fun rx_region_dct => leaf_maps (PMap (snd rx_region_dct)))
               (PyDict.items qry_result)) nested_results
  = [ PMap [("Region", PScalar (RStr "VISp"))];
      PMap [("nregion", PScalar (RInt 2))] ] /\
  DFBuilder.qry2dict nested_results
  <> flat_map (fun qry_result =>
       flat_map (fun rx_region_dct => leaf_maps (PMap (snd rx_region_dct)))
                (PyDict.items qry_result)) nested_results /\
  forallb is_leaf_map (DFBuilder.qry2dict nested_results) = false.
Proof.
  split; [repeat constructor |].
  split; [reflexivity |]. split; [reflexivity |].
  split; [vm_compute; discriminate | reflexivity].
Qed.

(** On a value map that mixes maps and scalars, or nests deeper, the rows
    are the values of the map as they are. *)
Lemma qry2dict_has_sub_region (rx : string) (region_dct : dict pyval) :
  DFBuilder.has_sub_region region_dct = true ->
  DFBuilder.qry2dict [[(rx, region_dct)]] = PyDict.values region_dct.
Proof.
  intros H. rewrite qry2dict_flat_map.
  cbn [flat_map PyDict.items snd]. rewrite H, !app_nil_r. reflexivity.
Qed.

(** ** [str.replace] *)





Lemma interleave_empty (s : string) : PyStr.interleave "" s = s.
Proof.
  induction s as [|c s IH]; simpl.
  - reflexivity.
  - rewrite IH. reflexivity.
Qed.








(** ** RegionAggregator: the subtype counts of a substructure *)

Lemma get_In {V : Type} (k : string) (v : V) (d : dict V) :
  PyDict.get k d = Some v -> In (k, v) d.
Proof.
  induction d as [|[k' v'] d IH]; cbn [PyDict.get]; [discriminate |].
  destruct (String.eqb k k') eqn:E.
  - intros H. injection H as <-. apply String.eqb_eq in E. subst k'.
    left. reflexivity.
  - intros H. right. apply IH, H.
Qed.

(** When every label of every category of [m] ends with [suffix], a cell
    of a category has a subclass with that suffix. *)
Lemma member_suffix (m : dict label_set) (suffix n : string) (c : Cell) :
  forallb (fun kv => forallb (fun x => PyStr.endswith x suffix) (snd kv)) m
  = true ->
  member m n c = true -> PyStr.endswith (subclass c) suffix = true.
Proof.
  unfold member. intros Hall.
  destruct (PyDict.get n m) as [s|] eqn:Hs; [| discriminate].
  intros Hin. apply isin_iff in Hin.
  rewrite forallb_forall in Hall.
  specialize (Hall _ (get_In _ _ _ Hs)). cbn [snd] in Hall.
  rewrite forallb_forall in Hall. apply Hall, Hin.
Qed.

Lemma member_Glut (n : string) (c : Cell) :
  member GLUT_ALL_SETMAP n c = true -> flag_Glut c = true.
Proof. apply member_suffix. vm_compute. reflexivity. Qed.

Lemma member_GABA (n : string) (c : Cell) :
  member GABA_SUBCLASS_SETMAP n c = true -> flag_GABA c = true.
Proof. apply member_suffix. vm_compute. reflexivity. Qed.

(** After a case analysis on the flags of a cell: the equation computes,
    or two categories that exclude each other are both true, or a cell of
    a category lacks the suffix of the lineage. *)
Ltac by_flags :=
  first
    [ reflexivity
    | match goal with
      | H : true = true -> true = false |- _ => discriminate (H eq_refl)
      end
    | match goal with
      | H : true = true -> false = true |- _ => discriminate (H eq_refl)
      end ].

(** The Glut flag of a cell is the sum of its Glut subtype flags. *)
Lemma glut_partition (c : Cell) :
  (Z.b2z (flag_Glut c)
   = Z.b2z (member GLUT_ALL_SETMAP "ET" c)
     + Z.b2z (member GLUT_ALL_SETMAP "CT" c)
     + Z.b2z (member GLUT_ALL_SETMAP "NP" c)
     + Z.b2z (member GLUT_ALL_SETMAP "IT" c)
     + Z.b2z (flag_Glut_Other c))%Z.
Proof.
  unfold flag_Glut_Other, any_member. cbn [map existsb].
  set (M := GLUT_ALL_SETMAP).
  disjoint M "ET" "CT" c. disjoint M "ET" "NP" c. disjoint M "ET" "IT" c.
  disjoint M "CT" "NP" c. disjoint M "CT" "IT" c. disjoint M "NP" "IT" c.
  pose proof (member_Glut "ET" c) as G1. pose proof (member_Glut "CT" c) as G2.
  pose proof (member_Glut "NP" c) as G3. pose proof (member_Glut "IT" c) as G4.
  fold M in G1, G2, G3, G4.
  destruct (member M "ET" c), (member M "CT" c), (member M "NP" c),
    (member M "IT" c), (flag_Glut c); by_flags.
Qed.

(** The IT flag of a cell is the sum of its IT subtype flags. *)
Lemma it_partition (c : Cell) :
  (Z.b2z (member GLUT_ALL_SETMAP "IT" c)
   = Z.b2z (member GLUT_ALL_SETMAP "IT-ENT" c)
     + Z.b2z (member GLUT_ALL_SETMAP "IT-CTX" c)
     + Z.b2z (member GLUT_ALL_SETMAP "IT-Other" c))%Z.
Proof.
  rewrite member_IT.
  set (M := GLUT_ALL_SETMAP).
  disjoint M "IT-ENT" "IT-CTX" c. disjoint M "IT-ENT" "IT-Other" c.
  disjoint M "IT-CTX" "IT-Other" c.
  destruct (member M "IT-ENT" c), (member M "IT-CTX" c),
    (member M "IT-Other" c); by_flags.
Qed.

(** The GABA flag of a cell is the sum of its GABA subtype flags. *)
Lemma gaba_partition (c : Cell) :
  (Z.b2z (flag_GABA c)
   = Z.b2z (member GABA_SUBCLASS_SETMAP "Vip" c)
     + Z.b2z (member GABA_SUBCLASS_SETMAP "Pvalb" c)
     + Z.b2z (member GABA_SUBCLASS_SETMAP "Sst" c)
     + Z.b2z (member GABA_SUBCLASS_SETMAP "Lamp5" c)
     + Z.b2z (member GABA_SUBCLASS_SETMAP "Sst-Chodl" c)
     + Z.b2z (flag_GABA_Other c))%Z.
Proof.
  unfold flag_GABA_Other, any_member. cbn [map existsb].
  set (M := GABA_SUBCLASS_SETMAP).
  disjoint M "Vip" "Pvalb" c. disjoint M "Vip" "Sst" c.
  disjoint M "Vip" "Lamp5" c. disjoint M "Vip" "Sst-Chodl" c.
  disjoint M "Pvalb" "Sst" c. disjoint M "Pvalb" "Lamp5" c.
  disjoint M "Pvalb" "Sst-Chodl" c. disjoint M "Sst" "Lamp5" c.
  disjoint M "Sst" "Sst-Chodl" c. disjoint M "Lamp5" "Sst-Chodl" c.
  pose proof (member_GABA "Vip" c) as G1.
  pose proof (member_GABA "Pvalb" c) as G2.
  pose proof (member_GABA "Sst" c) as G3.
  pose proof (member_GABA "Lamp5" c) as G4.
  pose proof (member_GABA "Sst-Chodl" c) as G5.
  fold M in G1, G2, G3, G4, G5.
  destruct (member M "Vip" c), (member M "Pvalb" c), (member M "Sst" c),
    (member M "Lamp5" c), (member M "Sst-Chodl" c), (flag_GABA c); by_flags.
Qed.

(** A flag that is, cell by cell, the sum of the flags [gs] has a count
    that is the sum of their counts. *)
Lemma cnt_partition (f : Cell -> bool) (gs : list (Cell -> bool))
    (grp : list Cell) :
  (forall c,
     Z.b2z (f c) = fold_right Z.add 0 (map (fun g => Z.b2z (g c)) gs))%Z ->
  (cnt f grp = fold_right Z.add 0 (map (fun g => cnt g grp) gs))%Z.
Proof.
  intros H. induction grp as [|c grp IH].
  - clear H. induction gs as [|g gs IHg]; [reflexivity |].
    cbn [map fold_right]. rewrite <- IHg. reflexivity.
  - change (cnt f (c :: grp)) with (Z.b2z (f c) + cnt f grp)%Z.
    rewrite IH, H. clear.
    induction gs as [|g gs IHg]; [reflexivity |].
    cbn [map fold_right].
    change (cnt g (c :: grp)) with (Z.b2z (g c) + cnt g grp)%Z.
    rewrite <- IHg. lia.
Qed.

Lemma count_row_subtype_totals (cs : list Cell) (k : string) :
  sums_to "Glut" ["ET"; "CT"; "NP"; "IT"; "Glut-Other"] (count_row cs k) /\
  sums_to "IT" ["IT-ENT"; "IT-CTX"; "IT-Other"] (count_row cs k) /\
  sums_to "GABA" ["Vip"; "Pvalb"; "Sst"; "Lamp5"; "Sst-Chodl"; "GABA-Other"]
    (count_row cs k).
Proof.
  set (grp := substructure_cells k cs).
  split; [| split].
  - exists (cnt flag_Glut grp),
      (map (fun g => cnt g grp)
         [member GLUT_ALL_SETMAP "ET"; member GLUT_ALL_SETMAP "CT";
          member GLUT_ALL_SETMAP "NP"; member GLUT_ALL_SETMAP "IT";
          flag_Glut_Other]).
    split; [reflexivity |]. split; [reflexivity |].
    apply cnt_partition. intros c. cbn [map fold_right].
    rewrite glut_partition. lia.
  - exists (cnt (member GLUT_ALL_SETMAP "IT") grp),
      (map (fun g => cnt g grp)
         [member GLUT_ALL_SETMAP "IT-ENT"; member GLUT_ALL_SETMAP "IT-CTX";
          member GLUT_ALL_SETMAP "IT-Other"]).
    split; [reflexivity |]. split; [reflexivity |].
    apply cnt_partition. intros c. cbn [map fold_right].
    rewrite it_partition. lia.
  - exists (cnt flag_GABA grp),
      (map (fun g => cnt g grp)
         [member GABA_SUBCLASS_SETMAP "Vip";
          member GABA_SUBCLASS_SETMAP "Pvalb";
          member GABA_SUBCLASS_SETMAP "Sst";
          member GABA_SUBCLASS_SETMAP "Lamp5";
          member GABA_SUBCLASS_SETMAP "Sst-Chodl"; flag_GABA_Other]).
    split; [reflexivity |]. split; [reflexivity |].
    apply cnt_partition. intros c. cbn [map fold_right].
    rewrite gaba_partition. lia.
Qed.

(** X1: in every count table [region_ccf_cell_types] returns, the subtype
    counts of a substructure add up to the count of their lineage:
    Glut = ET + CT + NP + IT + Glut-Other, IT = IT-ENT + IT-CTX + IT-Other
    and GABA = Vip + Pvalb + Sst + Lamp5 + Sst-Chodl + GABA-Other.  Every
    label of a subtype set carries the suffix of its lineage and no label
    is in two sets of one level, so each record of a lineage is counted in
    exactly one of its subtype columns. *)
Theorem region_count_row_subtype_totals (st : store) (cell_ccf : ref)
    (cells : list Cell) (region_list : list string) :
  nth_error st cell_ccf = Some (of_cells cells) ->
  exists (out : RegionTables) (st' : store),
    region_ccf_cell_types cell_ccf region_list st = Some (out, st') /\
    forall region tbl,
      PyDict.get region (region_ctx_ccf out) = Some tbl ->
      Forall (fun row =>
        sums_to "Glut" ["ET"; "CT"; "NP"; "IT"; "Glut-Other"] row /\
        sums_to "IT" ["IT-ENT"; "IT-CTX"; "IT-Other"] row /\
        sums_to "GABA"
          ["Vip"; "Pvalb"; "Sst"; "Lamp5"; "Sst-Chodl"; "GABA-Other"] row)
        tbl.
Proof.
  intros Hst.
  destruct (region_ccf_cell_types_tables cell_ccf cells region_list st Hst)
    as (out & ext & Hrun & Hctx & _).
  exists out, (st ++ ext). split; [exact Hrun |].
  intros region tbl Hget.
  destruct (Hctx region tbl Hget) as (_ & _ & ->).
  apply Forall_map, Forall_forall. intros k _.
  apply count_row_subtype_totals.
Qed.

Lemma region_count_row_subtype_totals_witness :
  exists (out : RegionTables) (st' : store),
    region_ccf_cell_types 0 sample_regions [of_cells sample_cells]
    = Some (out, st') /\
    forall region tbl,
      PyDict.get region (region_ctx_ccf out) = Some tbl ->
      Forall (fun row =>
        sums_to "Glut" ["ET"; "CT"; "NP"; "IT"; "Glut-Other"] row /\
        sums_to "IT" ["IT-ENT"; "IT-CTX"; "IT-Other"] row /\
        sums_to "GABA"
          ["Vip"; "Pvalb"; "Sst"; "Lamp5"; "Sst-Chodl"; "GABA-Other"] row)
        tbl.
Proof.
  apply (region_count_row_subtype_totals [of_cells sample_cells] 0
           sample_cells sample_regions).
  reflexivity.
Defined.

(** ** FractionComputer: the subtype fractions *)

Lemma cnt_le (f g : Cell -> bool) (grp : list Cell) :
  (forall c, f c = true -> g c = true) -> (cnt f grp <= cnt g grp)%Z.
Proof.
  intros H. induction grp as [|c grp IH]; [reflexivity |].
  change (Z.b2z (f c) + cnt f grp <= Z.b2z (g c) + cnt g grp)%Z.
  specialize (H c).
  destruct (f c), (g c); cbn [Z.b2z];
    first [lia | discriminate (H eq_refl)].
Qed.

Lemma share_entry_div (a b : Z) (name : string) (frow : Row string rval) :
  (0 <= a <= b)%Z ->
  PyDict.get name (cols frow) = Some (RFloat (int_truediv a b)) ->
  share_entry b name frow.
Proof.
  intros Hab Hg. split.
  - intros Hz. assert (Ha : a = 0%Z) by lia.
    rewrite Hg, Hz, Ha. reflexivity.
  - intros Hpos. rewrite Hg, int_truediv_pos by exact Hpos.
    eexists. split; [reflexivity |]. apply Qdiv_unit; lia.
Qed.

(** X2: every subtype fraction of a FractionRow is a share of the lineage
    count of the same substructure: the "<type> fraction" entries of the
    GABA types are NaN when the GABA count is 0 and numbers in [0, 1]
    otherwise, and those of the Glut and IT types are NaN when the Glut
    count is 0 and numbers in [0, 1] otherwise (the IT subtypes are shares
    of Glut, not of IT). *)
Theorem subtype_fraction_range (st : store) (cell_ccf : ref)
    (cells : list Cell) (region_list : list string) :
  nth_error st cell_ccf = Some (of_cells cells) ->
  exists (out : RegionTables) (st' : store),
    region_ccf_cell_types cell_ccf region_list st = Some (out, st') /\
    forall region frac,
      PyDict.get region (region_frac_ccf out) = Some frac ->
      exists ctx,
        PyDict.get region (region_ctx_ccf out) = Some ctx /\
        Forall2 (fun crow frow =>
          idx frow = idx crow /\
          exists gaba glut : Z,
            PyDict.get GABA (cols crow) = Some gaba /\
            PyDict.get GLUT (cols crow) = Some glut /\
            (0 <= gaba)%Z /\ (0 <= glut)%Z /\
            Forall (fun colx =>
                      share_entry gaba (FRACTION_COLUMN_FMT colx) frow)
                   GABA_TYPES /\
            Forall (fun colx =>
                      share_entry glut (FRACTION_COLUMN_FMT colx) frow)
                   (GLUT_IT_TYPES ++ GLUT_TYPES)) ctx frac.
Proof.
  intros H.
  destruct (region_ccf_cell_types_tables cell_ccf cells region_list st H)
    as (out & ext & Hrun & _ & Hfrac & _).
  exists out, (st ++ ext). split; [exact Hrun |].
  intros region frac Hg.
  destruct (Hfrac region frac Hg) as (_ & _ & -> & Hc).
  eexists. split; [exact Hc |].
  unfold ratio_table. apply Forall2_map_self. intros crow Hcrow.
  unfold count_table in Hcrow. apply in_map_iff in Hcrow.
  destruct Hcrow as (k & <- & _).
  split; [reflexivity |].
  set (cs := region_cells region cells).
  set (grp := substructure_cells k cs).
  exists (cnt flag_GABA grp), (cnt flag_Glut grp).
  split; [reflexivity |]. split; [reflexivity |].
  split; [apply cnt_nonneg |]. split; [apply cnt_nonneg |].
  split.
  - change GABA_TYPES with ["Vip"; "Pvalb"; "Sst"; "Lamp5"; "Sst-Chodl"].
    repeat (apply Forall_cons;
      [ match goal with
        | |- share_entry _ (FRACTION_COLUMN_FMT ?n) _ =>
            apply (share_entry_div (cnt (member GABA_SUBCLASS_SETMAP n) grp));
            [ split; [apply cnt_nonneg | apply cnt_le, member_GABA]
            | reflexivity ]
        end |]).
    apply Forall_nil.
  - change (GLUT_IT_TYPES ++ GLUT_TYPES)
      with ["IT-ENT"; "IT-CTX"; "IT-Other"; "ET"; "CT"; "NP"; "IT"].
    repeat (apply Forall_cons;
      [ match goal with
        | |- share_entry _ (FRACTION_COLUMN_FMT ?n) _ =>
            apply (share_entry_div (cnt (member GLUT_ALL_SETMAP n) grp));
            [ split; [apply cnt_nonneg | apply cnt_le, member_Glut]
            | reflexivity ]
        end |]).
    apply Forall_nil.
Qed.

Lemma subtype_fraction_range_witness :
  exists (out : RegionTables) (st' : store),
    region_ccf_cell_types 0 sample_regions [of_cells sample_cells]
    = Some (out, st') /\
    forall region frac,
      PyDict.get region (region_frac_ccf out) = Some frac ->
      exists ctx,
        PyDict.get region (region_ctx_ccf out) = Some ctx /\
        Forall2 (fun crow frow =>
          idx frow = idx crow /\
          exists gaba glut : Z,
            PyDict.get GABA (cols crow) = Some gaba /\
            PyDict.get GLUT (cols crow) = Some glut /\
            (0 <= gaba)%Z /\ (0 <= glut)%Z /\
            Forall (fun colx =>
                      share_entry gaba (FRACTION_COLUMN_FMT colx) frow)
                   GABA_TYPES /\
            Forall (fun colx =>
                      share_entry glut (FRACTION_COLUMN_FMT colx) frow)
                   (GLUT_IT_TYPES ++ GLUT_TYPES)) ctx frac.
Proof.
  apply (subtype_fraction_range [of_cells sample_cells] 0 sample_cells
           sample_regions).
  reflexivity.
Defined.

(** ** Orchestrator: the regions of the result *)

Lemma keys_set {V : Type} (k : string) (v : V) (d : dict V) :
  PyDict.keys (PyDict.set k v d) = add_key k (PyDict.keys d).
Proof.
  unfold add_key, PyDict.keys.
  induction d as [|[k' v'] d IH]; [reflexivity |].
  cbn [PyDict.set map fst existsb].
  destruct (String.eqb k k'); [reflexivity |].
  cbn [map fst orb]. rewrite IH.
  destruct (existsb (String.eqb k) (map fst d)); reflexivity.
Qed.

Lemma region_cells_has_records (cells : list Cell) (region : string) :
  has_records cells region = false <-> region_cells region cells = [].
Proof.
  unfold has_records, region_cells.
  induction cells as [|c cells IH]; [cbn; tauto |].
  cbn [existsb filter].
  destruct (key_is region (parcellation_structure c)); cbn [orb].
  - split; discriminate.
  - exact IH.
Qed.

(** The keys of the three mappings after the loop over [l]. *)
Lemma fold_step_keys (cells : list Cell) (l : list string) :
  forall (acc : RegionTables * store) (ks : list string),
    PyDict.keys (region_cell_ccf (fst acc)) = ks ->
    PyDict.keys (region_ctx_ccf (fst acc)) = ks ->
    PyDict.keys (region_frac_ccf (fst acc)) = ks ->
    let final := fst (fold_left (step cells) l acc) in
    let ks' :=
      fold_left (fun ks r => if has_records cells r then add_key r ks else ks)
        l ks in
    PyDict.keys (region_cell_ccf final) = ks' /\
    PyDict.keys (region_ctx_ccf final) = ks' /\
    PyDict.keys (region_frac_ccf final) = ks'.
Proof.
  induction l as [|r l IH]; intros acc ks H1 H2 H3; cbn [fold_left].
  - auto.
  - apply IH; unfold step, step_tables; cbn [fst snd];
      destruct (has_records cells r) eqn:E;
      try (apply region_cells_has_records in E; rewrite E; assumption);
      (destruct (region_cells r cells) eqn:Ec;
       [ apply region_cells_has_records in Ec; congruence
       | cbn [region_cell_ccf region_ctx_ccf region_frac_ccf];
         rewrite keys_set; congruence ]).
Qed.

Lemma filter_filter {A : Type} (p q : A -> bool) (l : list A) :
  filter p (filter q l) = filter (fun x => q x && p x) l.
Proof.
  induction l as [|a l IH]; [reflexivity |].
  cbn [filter]. destruct (q a); cbn [filter andb]; rewrite IH; reflexivity.
Qed.

Lemma existsb_eqb_app (y k : string) (ks : list string) :
  existsb (String.eqb y) (ks ++ [k])
  = existsb (String.eqb y) ks || String.eqb y k.
Proof.
  rewrite existsb_app. cbn [existsb]. rewrite orb_false_r. reflexivity.
Qed.

(** Assigning the keys of [l] that satisfy [p], in order, to a dict with
    the keys [ks] appends the new ones at their first occurrence. *)
Lemma fold_add_key (p : string -> bool) (l : list string) :
  forall ks,
    fold_left (fun ks r => if p r then add_key r ks else ks) l ks
    = ks ++ filter (fun y => negb (existsb (String.eqb y) ks))
              (first_occurrences (filter p l)).
Proof.
  induction l as [|r l IH]; intros ks; cbn [fold_left filter].
  - cbn. rewrite app_nil_r. reflexivity.
  - destruct (p r) eqn:Ep; [| apply IH].
    rewrite IH. cbn [first_occurrences filter]. unfold add_key.
    destruct (existsb (String.eqb r) ks) eqn:Er; cbn [negb].
    + f_equal. rewrite filter_filter. apply filter_ext_in. intros y _.
      destruct (String.eqb_spec y r) as [-> | _]; cbn [negb andb].
      * rewrite Er. reflexivity.
      * reflexivity.
    + rewrite <- app_assoc. cbn [app]. f_equal. f_equal.
      rewrite filter_filter. apply filter_ext. intros y.
      rewrite existsb_eqb_app, negb_orb. apply andb_comm.
Qed.

(** The keys of the three mappings at the end of the loop. *)
Lemma region_keys_steps (cells : list Cell) (region_list : list string)
    (st : store) :
  let final :=
    fst (fold_left (step cells) region_list (mkTables [] [] [], st)) in
  let regions :=
    first_occurrences (filter (has_records cells) region_list) in
  PyDict.keys (region_cell_ccf final) = regions /\
  PyDict.keys (region_ctx_ccf final) = regions /\
  PyDict.keys (region_frac_ccf final) = regions.
Proof.
  cbv zeta.
  pose proof (fold_step_keys cells region_list (mkTables [] [] [], st) []
                eq_refl eq_refl eq_refl) as K.
  cbv zeta in K. rewrite fold_add_key in K. cbn [app existsb negb] in K.
  assert (Hid : forall l : list string, filter (fun _ => true) l = l).
  { induction l as [|a l IHl]; [reflexivity |]. cbn. rewrite IHl. reflexivity. }
  rewrite Hid in K. exact K.
Qed.

(** X3: the three mappings [region_ccf_cell_types] returns have the same
    keys: the requested regions that have a record in the table, each once
    and in the order of their first request.  A region asked for twice, or
    asked for without having a record, adds no further key. *)
Theorem region_ccf_cell_types_keys (st : store) (cell_ccf : ref)
    (cells : list Cell) (region_list : list string) :
  nth_error st cell_ccf = Some (of_cells cells) ->
  exists (out : RegionTables) (st' : store),
    region_ccf_cell_types cell_ccf region_list st = Some (out, st') /\
    let regions :=
      first_occurrences (filter (has_records cells) region_list) in
    PyDict.keys (region_cell_ccf out) = regions /\
    PyDict.keys (region_ctx_ccf out) = regions /\
    PyDict.keys (region_frac_ccf out) = regions.
Proof.
  intros H.
  rewrite (region_ccf_cell_types_steps cell_ccf cells region_list st H).
  eexists _, _. split; [f_equal; apply surjective_pairing |].
  apply region_keys_steps.
Qed.

Lemma region_ccf_cell_types_keys_witness :
  exists (out : RegionTables) (st' : store),
    region_ccf_cell_types 0 ["MOp"; "SSp"; "VISp"; "MOp"]
      [of_cells sample_cells]
    = Some (out, st') /\
    let regions :=
      first_occurrences
        (filter (has_records sample_cells) ["MOp"; "SSp"; "VISp"; "MOp"]) in
    PyDict.keys (region_cell_ccf out) = regions /\
    PyDict.keys (region_ctx_ccf out) = regions /\
    PyDict.keys (region_frac_ccf out) = regions.
Proof.
  apply (region_ccf_cell_types_keys [of_cells sample_cells] 0 sample_cells
           ["MOp"; "SSp"; "VISp"; "MOp"]).
  reflexivity.
Defined.

(** ** FractionComputer: the shares of the substructures of a region *)

Lemma substructure_cells_with_substructure (k : string) (cs : list Cell) :
  substructure_cells k (with_substructure cs) = substructure_cells k cs.
Proof.
  unfold substructure_cells, with_substructure.
  rewrite filter_filter. apply filter_ext. intros c.
  destruct (parcellation_substructure c); reflexivity.
Qed.

Lemma with_substructure_In (c : Cell) (cs : list Cell) :
  In c (with_substructure cs)
  <-> In c cs /\ parcellation_substructure c <> None.
Proof.
  unfold with_substructure. rewrite filter_In.
  destruct (parcellation_substructure c); split; intros [H1 H2];
    split; congruence.
Qed.

Lemma substructure_sizes_general (cs : list Cell) :
  list_sum (map (fun k => List.length (substructure_cells k cs))
              (group_keys (map parcellation_substructure cs)))
  = List.length (with_substructure cs).
Proof.
  rewrite <- (substructure_sizes
                (group_keys (map parcellation_substructure cs))
                (with_substructure cs)).
  - apply f_equal, map_ext. intros k.
    rewrite substructure_cells_with_substructure. reflexivity.
  - apply group_keys_NoDup.
  - intros c Hc. apply with_substructure_In in Hc. destruct Hc as [Hc Hs].
    destruct (parcellation_substructure c) as [k|] eqn:E; [| congruence].
    exists k. split; [| reflexivity].
    apply group_keys_In. rewrite <- E. apply in_map. exact Hc.
Qed.

Lemma Zsum_of_nat {A : Type} (f : A -> nat) (l : list A) :
  fold_right Z.add 0%Z (map (fun a => Z.of_nat (f a)) l)
  = Z.of_nat (list_sum (map f l)).
Proof.
  induction l as [|a l IH]; [reflexivity |].
  cbn [map fold_right]. rewrite IH.
  change (list_sum (f a :: map f l)) with (f a + list_sum (map f l)).
  lia.
Qed.

(** X4: the shares of the substructures of a region.  In every ratio
    table [region_ccf_cell_types] returns, the "nregion" entry of each
    row is the number of records of the region (those without a
    substructure value included) and the "Region" entry is the region
    key.  The T entries of the count rows of the region are integers
    that sum to the number of records of the region that carry a
    substructure value, and the "fraction wi. region" entry of a row is
    the quotient of its T by nregion.  So in exact arithmetic the
    quotients sum to the share of the records that carry a substructure
    value, which is below 1 as soon as one record of the region has
    none; the sum of the float64 entries the code stores can differ from
    it by rounding. *)
Theorem fraction_wi_region_sum (st : store) (cell_ccf : ref)
    (cells : list Cell) (region_list : list string) :
  nth_error st cell_ccf = Some (of_cells cells) ->
  exists (out : RegionTables) (st' : store),
    region_ccf_cell_types cell_ccf region_list st = Some (out, st') /\
    forall region frac,
      PyDict.get region (region_frac_ccf out) = Some frac ->
      let cs := region_cells region cells in
      let n := Z.of_nat (List.length cs) in
      let m := Z.of_nat (List.length (with_substructure cs)) in
      (0 < n)%Z /\
      Forall (fun row =>
                PyDict.get "Region" (cols row) = Some (RStr region) /\
                PyDict.get "nregion" (cols row) = Some (RInt n)) frac /\
      exists (ctx : CountFrame) (ts : list Z),
        PyDict.get region (region_ctx_ccf out) = Some ctx /\
        column "T" ctx = Some ts /\
        fold_right Z.add 0%Z ts = m /\
        column FRACTION_WI_REGION_COLUMN frac
        = Some (map (fun t => RFloat (int_truediv t n)) ts) /\
        (Qsum (map (fun t => inject_Z t / inject_Z n) ts)
         == inject_Z m / inject_Z n)%Q.
Proof.
  intros H.
  destruct (region_ccf_cell_types_tables cell_ccf cells region_list st H)
    as (out & ext & Hrun & _ & Hfrac & _).
  exists out, (st ++ ext). split; [exact Hrun |].
  intros region frac Hg.
  destruct (Hfrac region frac Hg) as (_ & Hne & -> & Hctx).
  cbv zeta.
  set (cs := region_cells region cells) in *.
  set (n := Z.of_nat (List.length cs)).
  assert (Hn : (0 < n)%Z).
  { subst n. destruct cs; [congruence | cbn [List.length]; lia]. }
  split; [exact Hn |]. split.
  - unfold ratio_table. apply Forall_map, Forall_forall. intros r _.
    split; reflexivity.
  - set (keys := group_keys (map parcellation_substructure cs)).
    set (size := fun k => List.length (substructure_cells k cs)).
    exists (count_table cs), (map (fun k => Z.of_nat (size k)) keys).
    split; [exact Hctx |].
    assert (HT : forall k,
              PyDict.get "T" (cols (count_row cs k))
              = Some (Z.of_nat (size k))).
    { intros k. unfold size. rewrite <- cnt_EIO. reflexivity. }
    split; [| split; [| split]].
    + unfold count_table. apply column_rows. intros k _. apply HT.
    + rewrite Zsum_of_nat. unfold size, keys.
      rewrite substructure_sizes_general. reflexivity.
    + unfold ratio_table, count_table. rewrite !map_map.
      apply column_rows. intros k _.
      transitivity
        (Some (RFloat (int_truediv
                         (cnt flag_E (substructure_cells k cs)
                          + cnt flag_I (substructure_cells k cs)
                          + cnt flag_O (substructure_cells k cs)) n)));
        [reflexivity |].
      rewrite cnt_EIO. reflexivity.
    + rewrite map_map. rewrite (Qsum_shares n size).
      unfold size, keys. rewrite substructure_sizes_general. reflexivity.
Qed.

Lemma fraction_wi_region_sum_witness :
  exists (out : RegionTables) (st' : store),
    region_ccf_cell_types 0 sample_regions [of_cells sample_cells]
    = Some (out, st') /\
    forall region frac,
      PyDict.get region (region_frac_ccf out) = Some frac ->
      let cs := region_cells region sample_cells in
      let n := Z.of_nat (List.length cs) in
      let m := Z.of_nat (List.length (with_substructure cs)) in
      (0 < n)%Z /\
      Forall (fun row =>
                PyDict.get "Region" (cols row) = Some (RStr region) /\
                PyDict.get "nregion" (cols row) = Some (RInt n)) frac /\
      exists (ctx : CountFrame) (ts : list Z),
        PyDict.get region (region_ctx_ccf out) = Some ctx /\
        column "T" ctx = Some ts /\
        fold_right Z.add 0%Z ts = m /\
        column FRACTION_WI_REGION_COLUMN frac
        = Some (map (fun t => RFloat (int_truediv t n)) ts) /\
        (Qsum (map (fun t => inject_Z t / inject_Z n) ts)
         == inject_Z m / inject_Z n)%Q.
Proof.
  apply (fraction_wi_region_sum [of_cells sample_cells] 0 sample_cells
           sample_regions).
  reflexivity.
Defined.

(** On the sample table the region "MOp" has two records, one of them
    without a substructure value: its shares sum to 1/2. *)
Example fraction_wi_region_sum_sample :
  exists (out : RegionTables) (st' : store) (frac : RatioFrame),
    region_ccf_cell_types 0 sample_regions [of_cells sample_cells]
    = Some (out, st') /\
    PyDict.get "MOp" (region_frac_ccf out) = Some frac /\
    column FRACTION_WI_REGION_COLUMN frac
    = Some [RFloat (FNum (inject_Z 1 / inject_Z 2))].
Proof.
  eexists _, _, _. split; [vm_compute; reflexivity |].
  split; reflexivity.
Qed.

(** ** RegionAggregator: the rows of a region's tables *)

Lemma leb_ltb (a b : string) :
  String.leb a b = true -> a <> b -> String.ltb a b = true.
Proof.
  unfold String.leb, String.ltb. intros H Hne.
  destruct (String.compare a b) eqn:E; try reflexivity; try discriminate.
  apply String.compare_eq_iff in E. contradiction.
Qed.

(** A list without duplicates whose neighbours are in order has its
    neighbours in strict order. *)
Lemma Sorted_strict (l : list string) :
  Sorted (fun a b => is_true (String.leb a b)) l -> NoDup l ->
  Sorted (fun a b => String.ltb a b = true) l.
Proof.
  induction 1 as [|a l Hs IH Hhd]; intros Hnd; constructor.
  - apply IH. inversion Hnd. assumption.
  - destruct Hhd as [|b l Hab]; constructor.
    apply leb_ltb; [exact Hab |].
    intros ->. inversion Hnd as [|? ? Hnin _]. apply Hnin. left. reflexivity.
Qed.

Lemma group_keys_Sorted (s : list (option string)) :
  Sorted (fun a b => String.ltb a b = true) (group_keys s).
Proof.
  apply Sorted_strict; [| apply group_keys_NoDup].
  unfold group_keys. apply StringSort.Sorted_sort.
Qed.

(** X5: the count table and the ratio table of a region have the same row
    labels: the substructure ids that occur among the records of the
    region, each once, in strictly ascending order (the order of
    [groupby]), whatever the order of the records in the table. *)
Theorem region_table_rows (st : store) (cell_ccf : ref)
    (cells : list Cell) (region_list : list string) :
  nth_error st cell_ccf = Some (of_cells cells) ->
  exists (out : RegionTables) (st' : store),
    region_ccf_cell_types cell_ccf region_list st = Some (out, st') /\
    forall region ctx,
      PyDict.get region (region_ctx_ccf out) = Some ctx ->
      exists frac,
        PyDict.get region (region_frac_ccf out) = Some frac /\
        index frac = index ctx /\
        Sorted (fun a b => String.ltb a b = true) (index ctx) /\
        forall k,
          In k (index ctx) <->
          exists c, In c cells /\ parcellation_structure c = Some region /\
                    parcellation_substructure c = Some k.
Proof.
  intros H.
  destruct (region_ccf_cell_types_spec cell_ccf cells region_list st H)
    as (out & ext & Hrun & Hspec).
  exists out, (st ++ ext). split; [exact Hrun |].
  intros region ctx Hg. specialize (Hspec region). cbv zeta in Hspec.
  destruct Hspec as [Hin Hout].
  apply (region_entry_cases _ region_list region (region_cells region cells));
    intros Hc.
  - destruct (Hin Hc) as (Hctx & Hfrac & _).
    rewrite Hctx in Hg. injection Hg as <-.
    eexists. split; [exact Hfrac |].
    split; [apply ratio_table_index |].
    rewrite count_table_index.
    split; [apply group_keys_Sorted |].
    intros k. rewrite group_keys_In, in_map_iff. split.
    + intros (c & Hk & Hcin). apply region_cells_In in Hcin.
      exists c. tauto.
    + intros (c & Hcin & Hr & Hk). exists c. split; [exact Hk |].
      apply region_cells_In. tauto.
  - destruct (Hout Hc) as (Hctx & _). congruence.
Qed.

Lemma region_table_rows_witness :
  exists (out : RegionTables) (st' : store),
    region_ccf_cell_types 0 sample_regions [of_cells (rev sample_cells)]
    = Some (out, st') /\
    forall region ctx,
      PyDict.get region (region_ctx_ccf out) = Some ctx ->
      exists frac,
        PyDict.get region (region_frac_ccf out) = Some frac /\
        index frac = index ctx /\
        Sorted (fun a b => String.ltb a b = true) (index ctx) /\
        forall k,
          In k (index ctx) <->
          exists c, In c (rev sample_cells) /\
                    parcellation_structure c = Some region /\
                    parcellation_substructure c = Some k.
Proof.
  apply (region_table_rows [of_cells (rev sample_cells)] 0
           (rev sample_cells) sample_regions).
  reflexivity.
Defined.

(** ** The query and the flattening of its result *)

Lemma set_fresh {V : Type} (k : string) (v : V) (d : dict V) :
  ~ In k (PyDict.keys d) -> PyDict.set k v d = d ++ [(k, v)].
Proof.
  unfold PyDict.keys. induction d as [|[k' v'] d IH]; intros H.
  - reflexivity.
  - cbn [PyDict.set map fst In] in *.
    destruct (String.eqb_spec k k') as [-> | _]; [tauto |].
    cbn [app]. rewrite IH by tauto. reflexivity.
Qed.

(** Assignments to keys that are new and all different append the
    entries in order. *)
Lemma ofold_set_fresh {A V : Type} (kf : A -> string) (g : A -> option V)
    (vf : A -> V) (l : list A) :
  NoDup (map kf l) ->
  (forall x, In x l -> g x = Some (vf x)) ->
  forall d0 : dict V,
    (forall x, In x l -> ~ In (kf x) (PyDict.keys d0)) ->
    ofold (fun d x => let? v := g x in Some (PyDict.set (kf x) v d)) l d0
    = Some (d0 ++ map (fun x => (kf x, vf x)) l).
Proof.
  induction l as [|a l IH]; intros Hnd Hg d0 Hfresh; cbn [ofold map].
  - rewrite app_nil_r. reflexivity.
  - rewrite (Hg a (or_introl eq_refl)). cbn [obind].
    rewrite set_fresh by (apply Hfresh; left; reflexivity).
    inversion Hnd as [|? ? Hnin Hnd']. subst.
    rewrite IH.
    + rewrite <- app_assoc. reflexivity.
    + exact Hnd'.
    + intros x Hx. apply Hg. right. exact Hx.
    + intros x Hx. unfold PyDict.keys. rewrite map_app, in_app_iff.
      cbn [map fst In]. intros [Hin | [Heq | []]].
      * apply (Hfresh x (or_intror Hx)). exact Hin.
      * apply Hnin. rewrite Heq. apply in_map. exact Hx.
Qed.

Lemma ofold_total {A S : Type} (f : S -> A -> S) (l : list A) :
  forall acc, ofold (fun s a => Some (f s a)) l acc = Some (fold_left f l acc).
Proof.
  induction l as [|a l IH]; intros acc; cbn [ofold fold_left obind].
  - reflexivity.
  - apply IH.
Qed.

Lemma fold_set_fresh {A V : Type} (kf : A -> string) (vf : A -> V)
    (l : list A) :
  NoDup (map kf l) ->
  fold_left (fun d x => PyDict.set (kf x) (vf x) d) l []
  = map (fun x => (kf x, vf x)) l.
Proof.
  intros Hnd.
  pose proof (ofold_set_fresh kf (fun x => Some (vf x)) vf l Hnd
                (fun _ _ => eq_refl) [] (fun _ _ H => H)) as H.
  cbn [app obind] in H.
  rewrite (ofold_total (fun d x => PyDict.set (kf x) (vf x) d)) in H.
  injection H as H. exact H.
Qed.

Lemma existsb_eqb_In (x : string) (l : list string) :
  existsb (String.eqb x) l = true <-> In x l.
Proof.
  rewrite existsb_exists. split.
  - intros (y & Hy & E). apply String.eqb_eq in E. subst y. exact Hy.
  - intros H. exists x. split; [exact H | apply String.eqb_refl].
Qed.

Lemma uniqueb_NoDup (l : list string) : NoDup l -> uniqueb l = true.
Proof.
  induction 1 as [|x l Hnin _ IH]; [reflexivity |].
  cbn [uniqueb]. rewrite IH, andb_true_r. apply negb_true_iff.
  destruct (existsb (String.eqb x) l) eqn:E; [| reflexivity].
  apply existsb_eqb_In in E. contradiction.
Qed.

Lemma first_occurrences_In (x : string) (l : list string) :
  In x (first_occurrences l) <-> In x l.
Proof.
  induction l as [|a l IH]; [tauto |].
  cbn [first_occurrences In]. rewrite filter_In, IH.
  destruct (String.eqb_spec x a) as [-> | Hne]; cbn [negb].
  - tauto.
  - split; [tauto |]. intros [-> | H]; [contradiction | tauto].
Qed.

Lemma first_occurrences_NoDup (l : list string) : NoDup (first_occurrences l).
Proof.
  induction l as [|a l IH]; cbn [first_occurrences]; constructor.
  - rewrite filter_In, String.eqb_refl. cbn [negb]. intros [_ H].
    discriminate H.
  - apply NoDup_filter, IH.
Qed.

(** A dict whose keys are all different is given by its keys and by what
    [get] returns for them. *)
Lemma dict_by_keys {V : Type} (f : string -> V) (d : dict V) :
  NoDup (PyDict.keys d) ->
  (forall k, In k (PyDict.keys d) -> PyDict.get k d = Some (f k)) ->
  d = map (fun k => (k, f k)) (PyDict.keys d).
Proof.
  unfold PyDict.keys. induction d as [|[k v] d IH]; intros Hnd Hget.
  - reflexivity.
  - cbn [map fst] in *. inversion Hnd as [|? ? Hnin Hnd']. subst. f_equal.
    + specialize (Hget k (or_introl eq_refl)). cbn [PyDict.get] in Hget.
      rewrite String.eqb_refl in Hget. congruence.
    + apply IH; [exact Hnd' |]. intros k' Hk'.
      specialize (Hget k' (or_intror Hk')). cbn [PyDict.get] in Hget.
      destruct (String.eqb k' k) eqn:E; [| exact Hget].
      apply String.eqb_eq in E. subst k'. contradiction.
Qed.

Section Query.

Context {P PL : Type}.
Variable read_csv : P -> option (list Cell).

(** [to_dict] on the ratio table of a region: its rows, by label. *)
Lemma to_dict_index_ratio_table (region : string) (cs : list Cell) :
  to_dict_index (ratio_table region cs)
  = Some (map (fun r => (idx r, row_dict (cols r))) (ratio_table region cs)).
Proof.
  unfold to_dict_index.
  assert (Hnd : NoDup (index (ratio_table region cs))).
  { rewrite ratio_table_index, count_table_index. apply group_keys_NoDup. }
  rewrite uniqueb_NoDup by exact Hnd.
  rewrite (fold_set_fresh idx (fun r => row_dict (cols r))) by exact Hnd.
  reflexivity.
Qed.

(** The result map of [run], entry by entry. *)
Lemma run_result (self : @ABCDbMERFISH_CCFQuery P) (exec_params : ExecParams)
    (cells : list Cell) (st : store) :
  read_csv (ccf_meta_file self) = Some cells ->
  exists st' : store,
    run read_csv self exec_params st
    = Some ([ map (fun rg =>
                     (rg, map (fun r => (idx r, row_dict (cols r)))
                            (ratio_table rg (region_cells rg cells))))
                (first_occurrences
                   (filter (has_records cells) (region exec_params))) ],
            st').
Proof.
  intros Hcsv. unfold run, bind, lift, alloc. rewrite Hcsv.
  set (st1 := st ++ [of_cells cells]).
  assert (H1 : nth_error st1 (List.length st) = Some (of_cells cells))
    by apply nth_error_new.
  destruct (region_ccf_cell_types_spec _ cells (region exec_params) st1 H1)
    as (out & ext & Hrun & Hspec).
  pose proof (region_keys_steps cells (region exec_params) st1)
    as (_ & _ & Hkeys).
  pose proof (region_ccf_cell_types_steps _ cells (region exec_params) st1 H1)
    as Hsteps.
  rewrite Hrun in Hsteps. injection Hsteps as Hsteps.
  rewrite <- Hsteps in Hkeys. cbn [fst] in Hkeys.
  rewrite Hrun.
  set (regions := first_occurrences
                    (filter (has_records cells) (region exec_params))) in *.
  assert (Hd : region_frac_ccf out
               = map (fun rg => (rg, ratio_table rg (region_cells rg cells)))
                   regions).
  { rewrite <- Hkeys. apply dict_by_keys.
    - rewrite Hkeys. apply first_occurrences_NoDup.
    - intros k Hk. rewrite Hkeys in Hk.
      apply first_occurrences_In, filter_In in Hk. destruct Hk as [Hin Hrec].
      apply (Hspec k). split; [exact Hin |].
      intros E. apply region_cells_has_records in E. congruence. }
  rewrite Hd. unfold PyDict.items.
  rewrite (ofold_set_fresh fst
             (fun rx_rdf => to_dict_index (snd rx_rdf))
             (fun rx_rdf => map (fun r => (idx r, row_dict (cols r)))
                              (snd rx_rdf))).
  - exists (st1 ++ ext). unfold ret. cbn [app]. rewrite map_map.
    reflexivity.
  - rewrite map_map. cbn [fst]. rewrite map_id.
    apply first_occurrences_NoDup.
  - intros x Hx. apply in_map_iff in Hx. destruct Hx as (rg & <- & _).
    cbn [snd]. apply to_dict_index_ratio_table.
  - intros x _ [].
Qed.

Variable pl_DataFrame : list pyval -> option PL.

(** The rows the flattener makes of the rows of a ratio table, by label. *)
Lemma flatten_region (region : string) (cs : list Cell) :
  (let region_dct :=
     map (fun r => (idx r, row_dict (cols r))) (ratio_table region cs) in
   if DFBuilder.has_sub_region region_dct
   then PyDict.values region_dct
   else [PMap region_dct])
  = region_rows region cs.
Proof.
  cbv zeta. unfold region_rows.
  destruct (ratio_table region cs) as [|r rows]; [reflexivity |].
  unfold DFBuilder.has_sub_region, PyDict.values.
  rewrite map_map. cbn [map snd existsb row_dict DFBuilder.is_mapping orb].
  reflexivity.
Qed.

(** X6: the query followed by the flattener.  [run] on a metadata table
    returns one result map, and [DFBuilder.qry2dict] makes of it the rows
    of the ratio tables of the requested regions that have a record: the
    regions in the order of their first request, the rows of a region in
    the order of its ratio table.  A region whose records all lack a
    substructure value has a ratio table without rows and yields one empty
    row.  [DFBuilder.build] passes these rows to the polars
    constructor. *)
Theorem run_qry2dict_rows (self : @ABCDbMERFISH_CCFQuery P)
    (exec_params : ExecParams) (cells : list Cell) (st : store) :
  read_csv (ccf_meta_file self) = Some cells ->
  exists (in_iter : list (dict (dict pyval))) (st' : store),
    run read_csv self exec_params st = Some (in_iter, st') /\
    let rows :=
      flat_map (fun rg => region_rows rg (region_cells rg cells))
        (first_occurrences (filter (has_records cells) (region exec_params)))
    in
    DFBuilder.qry2dict in_iter = rows /\
    build pl_DataFrame (Some in_iter)
    = (let? df := pl_DataFrame rows in Some (Some df)).
Proof.
  intros Hcsv.
  destruct (run_result self exec_params cells st Hcsv) as (st' & Hrun).
  eexists _, st'. split; [exact Hrun |]. cbv zeta.
  match goal with
  | |- ?q = ?rows /\ _ => assert (Hq : q = rows)
  end.
  { rewrite qry2dict_flat_map. cbn [flat_map]. rewrite app_nil_r.
    unfold PyDict.items. rewrite flat_map_concat_map, map_map.
    rewrite <- flat_map_concat_map. apply flat_map_ext_in. intros rg _.
    cbn [snd]. apply flatten_region. }
  split; [exact Hq |].
  unfold build. rewrite Hq. reflexivity.
Qed.

End Query.

Lemma run_qry2dict_rows_witness :
  exists (in_iter : list (dict (dict pyval))) (st' : store),
    run (fun _ : string => Some sample_cells)
      (mkQuery "cache" "cell_metadata.csv")
      (mkExecParams ["MOp"; "SSp"; "VISp"; "MOp"]) []
    = Some (in_iter, st') /\
    let rows :=
      flat_map (fun rg => region_rows rg (region_cells rg sample_cells))
        (first_occurrences
           (filter (has_records sample_cells)
              (region (mkExecParams ["MOp"; "SSp"; "VISp"; "MOp"]))))
    in
    DFBuilder.qry2dict in_iter = rows /\
    build (fun rows => Some (List.length rows)) (Some in_iter)
    = (let? df := (fun rows => Some (List.length rows)) rows in
       Some (Some df)).
Proof.
  apply (run_qry2dict_rows (fun _ : string => Some sample_cells)
           (fun rows => Some (List.length rows))
           (mkQuery "cache" "cell_metadata.csv")
           (mkExecParams ["MOp"; "SSp"; "VISp"; "MOp"]) sample_cells []).
  reflexivity.
Defined.

(** A region whose only record has no substructure value: the flattened
    result of the query is one empty row. *)
Example run_qry2dict_empty_row :
  exists (in_iter : list (dict (dict pyval))) (st' : store),
    run (fun _ : string => Some [mkCell "34 Immune" "334 Microglia NN"
                                   (Some "MOp") None])
      (mkQuery "cache" "cell_metadata.csv") (mkExecParams ["MOp"]) []
    = Some (in_iter, st') /\
    in_iter = [[("MOp", [])]] /\
    DFBuilder.qry2dict in_iter = [PMap []].
Proof.
  eexists _, _. split; [vm_compute; reflexivity |].
  split; reflexivity.
Qed.

(** ** The ratio table of one region *)

Section RegionRatios.

Context {P : Type}.
Variable from_s3_cache : string -> option (@ProjectCache P).
Variable truthy : P -> bool.
Variable read_csv : P -> option (list Cell).



End RegionRatios.

(** A cache with the one metadata file of [sample_cells]. *)
Example region_cell_type_ratios_sample :
  let cache (_ : string) :=
    Some (mkCache [MERFISH_CCF_DATASET_KEY]
            (fun _ => Some "metadata")
            (fun _ _ => Some "metadata/cells.csv")) in
  let call region_name :=
    region_cell_type_ratios cache str_truthy (fun _ => Some sample_cells)
      region_name "cache" MERFISH_CCF_DATASET_KEY PARCEL_META_DATA_KEY [] in
  (exists st', call "VISp"
               = Some (Some (ratio_table "VISp"
                               (region_cells "VISp" sample_cells)), st')) /\
  call "SSp" = None /\
  region_cell_type_ratios cache str_truthy (fun _ => Some sample_cells)
    "VISp" "cache" "WMB-10Xv2" PARCEL_META_DATA_KEY []
  = Some (None, []).
Proof.
  cbv zeta. split; [eexists; vm_compute; reflexivity |].
  split; vm_compute; reflexivity.
Qed.

(** X8: the tables of a region depend on the records of that region and
    on nothing else: two calls of [region_ccf_cell_types], on tables that
    have the same records of the region and with requests that both name
    the region, return the same count table and the same ratio table for
    it, whatever the other records, the other regions requested, their
    order and their repetitions. *)
Theorem region_tables_independent (st1 st2 : store) (ccf1 ccf2 : ref)
    (cells1 cells2 : list Cell) (list1 list2 : list string)
    (region : string) :
  nth_error st1 ccf1 = Some (of_cells cells1) ->
  nth_error st2 ccf2 = Some (of_cells cells2) ->
  region_cells region cells1 = region_cells region cells2 ->
  In region list1 -> In region list2 ->
  exists (out1 out2 : RegionTables) (st1' st2' : store),
    region_ccf_cell_types ccf1 list1 st1 = Some (out1, st1') /\
    region_ccf_cell_types ccf2 list2 st2 = Some (out2, st2') /\
    PyDict.get region (region_ctx_ccf out1)
    = PyDict.get region (region_ctx_ccf out2) /\
    PyDict.get region (region_frac_ccf out1)
    = PyDict.get region (region_frac_ccf out2).
Proof.
  intros H1 H2 Hsame Hin1 Hin2.
  destruct (region_ccf_cell_types_spec ccf1 cells1 list1 st1 H1)
    as (out1 & ext1 & Hrun1 & Hspec1).
  destruct (region_ccf_cell_types_spec ccf2 cells2 list2 st2 H2)
    as (out2 & ext2 & Hrun2 & Hspec2).
  exists out1, out2, (st1 ++ ext1), (st2 ++ ext2).
  split; [exact Hrun1 |]. split; [exact Hrun2 |].
  specialize (Hspec1 region). specialize (Hspec2 region).
  cbv zeta in Hspec1, Hspec2. rewrite <- Hsame in Hspec2.
  destruct Hspec1 as [Y1 N1]. destruct Hspec2 as [Y2 N2].
  destruct (region_cells region cells1) as [|c cs] eqn:E.
  - destruct N1 as (C1 & F1 & _); [tauto |].
    destruct N2 as (C2 & F2 & _); [tauto |].
    split; congruence.
  - destruct Y1 as (C1 & F1 & _); [split; [exact Hin1 | discriminate] |].
    destruct Y2 as (C2 & F2 & _); [split; [exact Hin2 | discriminate] |].
    split; congruence.
Qed.

Lemma region_tables_independent_witness :
  exists (out1 out2 : RegionTables) (st1' st2' : store),
    region_ccf_cell_types 0 sample_regions [of_cells sample_cells]
    = Some (out1, st1') /\
    region_ccf_cell_types 0 ["VISp"; "VISp"]
      [of_cells (region_cells "VISp" sample_cells)]
    = Some (out2, st2') /\
    PyDict.get "VISp" (region_ctx_ccf out1)
    = PyDict.get "VISp" (region_ctx_ccf out2) /\
    PyDict.get "VISp" (region_frac_ccf out1)
    = PyDict.get "VISp" (region_frac_ccf out2).
Proof.
  apply (region_tables_independent [of_cells sample_cells]
           [of_cells (region_cells "VISp" sample_cells)] 0 0 sample_cells
           (region_cells "VISp" sample_cells) sample_regions
           ["VISp"; "VISp"] "VISp").
  - reflexivity.
  - reflexivity.
  - reflexivity.
  - left. reflexivity.
  - left. reflexivity.
Defined.

(** ** Gene metadata: the valid genes *)

Lemma mask_rows_map {I V : Type} (g : Row I V -> bool) (df : DataFrame I V) :
  mask_rows (map g df) df = Some (filter g df).
Proof.
  induction df as [|r df IH]; [reflexivity |].
  cbn [map mask_rows filter]. rewrite IH. reflexivity.
Qed.

Lemma column_symbol (df : GeneFrame) (syms : list string) :
  column "gene_symbol" df = Some syms ->
  syms = map symbol_of df /\
  Forall (fun r => PyDict.get "gene_symbol" (cols r) = Some (symbol_of r)) df.
Proof.
  unfold column. revert syms.
  induction df as [|r df IH]; intros syms H; cbn [omap] in H.
  - injection H as <-. split; [reflexivity | constructor].
  - unfold symbol_of at 1 2.
    destruct (PyDict.get "gene_symbol" (cols r)) as [s|] eqn:E;
      [| discriminate H].
    cbn [obind] in H.
    destruct (omap (fun r => PyDict.get "gene_symbol" (cols r)) df)
      as [rest|] eqn:Er; [| discriminate H].
    injection H as <-. destruct (IH rest eq_refl) as [-> Hall].
    split.
    + cbn [map]. unfold symbol_of at 1. rewrite E. reflexivity.
    + constructor; [| exact Hall]. unfold symbol_of. rewrite E. reflexivity.
Qed.

Lemma column_symbol_filter (g : Row string string -> bool) (df : GeneFrame) :
  Forall (fun r => PyDict.get "gene_symbol" (cols r) = Some (symbol_of r)) df ->
  column "gene_symbol" (filter g df) = Some (map symbol_of (filter g df)).
Proof.
  intros H. unfold column. apply omap_total. intros r Hr.
  apply filter_In in Hr. rewrite Forall_forall in H. apply H, Hr.
Qed.

Lemma filter_map_comm {A B : Type} (f : A -> B) (p : B -> bool) (l : list A) :
  filter p (map f l) = map f (filter (fun a => p (f a)) l).
Proof.
  induction l as [|a l IH]; [reflexivity |].
  cbn [map filter]. destruct (p (f a)); cbn [map]; rewrite IH; reflexivity.
Qed.

(** A symbol of the table is among the valid symbols of the table exactly
    when it is not blank. *)
Lemma valid_member (df : GeneFrame) (r : Row string string) :
  In r df ->
  existsb (String.eqb (symbol_of r))
    (map symbol_of (filter (fun r => not_blank (symbol_of r)) df))
  = not_blank (symbol_of r).
Proof.
  intros Hr. apply eq_true_iff_eq. rewrite existsb_eqb_In, in_map_iff.
  split.
  - intros (r' & E & Hr'). apply filter_In in Hr'. rewrite <- E. apply Hr'.
  - intros Hnb. exists r. split; [reflexivity |].
    apply filter_In. split; assumption.
Qed.

(** X9: [filter_invalid_genes] with the result of [valid_genes_symbols]
    on the same table.  For a table whose column names are all
    different, with a [gene_symbol] column that has at least one symbol
    without "Blank", both calls return; the valid
    symbols are the symbols without "Blank", in the order of the table
    and with their repetitions; the filtered table has the rows of the
    table whose symbol is without "Blank", in order, so it has a row and
    its symbols are the valid symbols; and filtering the filtered table
    again changes nothing. *)
Theorem filter_invalid_genes_valid (gene_meta : GeneFrame)
    (syms : list string) :
  Forall (fun row => NoDup (PyDict.keys (cols row))) gene_meta ->
  column "gene_symbol" gene_meta = Some syms ->
  existsb (fun s => negb (PyStr.contains s "Blank")) syms = true ->
  exists (valid : list string) (gf : GeneFrame),
    valid_genes_symbols gene_meta = Some valid /\
    filter_invalid_genes gene_meta valid = Some gf /\
    valid = filter (fun s => negb (PyStr.contains s "Blank")) syms /\
    gf = filter (fun r =>
                   match PyDict.get "gene_symbol" (cols r) with
                   | Some s => negb (PyStr.contains s "Blank")
                   | None => false
                   end) gene_meta /\
    gf <> [] /\
    column "gene_symbol" gf = Some valid /\
    filter_invalid_genes gf valid = Some gf.
Proof.
  intros _ Hcol Hex.
  destruct (column_symbol gene_meta syms Hcol) as [-> Hall].
  set (keep := fun r : Row string string => not_blank (symbol_of r)).
  exists (map symbol_of (filter keep gene_meta)), (filter keep gene_meta).
  assert (Hne : filter keep gene_meta <> []).
  { apply existsb_exists in Hex. destruct Hex as (s & Hs & Hnb).
    apply in_map_iff in Hs. destruct Hs as (r & <- & Hr).
    assert (Hin : In r (filter keep gene_meta))
      by (apply filter_In; split; assumption).
    intros E. rewrite E in Hin. exact Hin. }
  assert (Hfilter : forall df : GeneFrame,
            df <> [] ->
            (forall r, In r df -> In r gene_meta) ->
            column "gene_symbol" df = Some (map symbol_of df) ->
            filter_invalid_genes df (map symbol_of (filter keep gene_meta))
            = Some (filter keep df)).
  { intros df Hdf Hsub Hc. unfold filter_invalid_genes. rewrite Hc.
    cbn [obind]. rewrite map_map.
    rewrite (map_ext_in
               (fun x => existsb (String.eqb (symbol_of x))
                           (map symbol_of (filter keep gene_meta)))
               keep df).
    - destruct df as [|r df]; [congruence |].
      unfold list_mask_rows. cbn [map]. apply (mask_rows_map keep (r :: df)).
    - intros r Hr. apply valid_member, Hsub, Hr. }
  split; [| split; [| split; [| split; [| split; [| split]]]]].
  - unfold valid_genes_symbols. rewrite Hcol. cbn [obind].
    unfold series_not. rewrite !map_map.
    change (map (fun x => negb (PyStr.contains (symbol_of x) "Blank"))
              gene_meta) with (map keep gene_meta).
    rewrite mask_rows_map. cbn [obind].
    apply column_symbol_filter, Hall.
  - apply Hfilter; [| auto | exact Hcol].
    intros E. rewrite E in Hne. apply Hne. reflexivity.
  - rewrite filter_map_comm. reflexivity.
  - apply filter_ext_in. intros r Hr. rewrite Forall_forall in Hall.
    rewrite (Hall r Hr). reflexivity.
  - exact Hne.
  - apply column_symbol_filter, Hall.
  - rewrite Hfilter.
    + f_equal. rewrite filter_filter. apply filter_ext. intros r.
      apply andb_diag.
    + exact Hne.
    + intros r Hr. apply filter_In in Hr. apply Hr.
    + apply column_symbol_filter, Hall.
Qed.

Lemma filter_invalid_genes_valid_witness :
  exists (valid : list string) (gf : GeneFrame),
    valid_genes_symbols sample_genes = Some valid /\
    filter_invalid_genes sample_genes valid = Some gf /\
    valid = filter (fun s => negb (PyStr.contains s "Blank"))
              ["Prkcq"; "Blank-37"; "Col5a1"; "Blank-1"] /\
    gf = filter (fun r =>
                   match PyDict.get "gene_symbol" (cols r) with
                   | Some s => negb (PyStr.contains s "Blank")
                   | None => false
                   end) sample_genes /\
    gf <> [] /\
    column "gene_symbol" gf = Some valid /\
    filter_invalid_genes gf valid = Some gf.
Proof.
  apply (filter_invalid_genes_valid sample_genes
           ["Prkcq"; "Blank-37"; "Col5a1"; "Blank-1"]).
  - repeat constructor; cbn; intuition discriminate.
  - reflexivity.
  - reflexivity.
Defined.

(** ** TaxonomyClassifier: the frame the subtype flags are written to *)













(** A frame with two columns named GABA: the assignment raises. *)
Example subtype_flags_two_columns :
  cell_meta_gaba_flags 0
    [[mkRow (mkCell "07 CTX-MGE GABA" "052 Pvalb Gaba" (Some "VISp")
               (Some "VISp1"))
        [("GABA", true); ("GABA", false)]]]
  = None.
Proof. reflexivity. Qed.

(** ** The AWS command line: the arguments *)

Lemma split_char_cons (sep : ascii) (s : string) :
  exists w ws, split_char sep s = w :: ws.
Proof.
  destruct s as [|c s]; cbn [split_char]; [eauto |].
  destruct (Ascii.eqb c sep); [eauto |].
  destruct (split_char sep s); eauto.
Qed.

(** Splitting at a separator that is there: the words before it, then the
    words after it. *)
Lemma split_char_app (sep : ascii) (a b : string) :
  split_char sep (a ++ String sep b)
  = split_char sep a ++ split_char sep b.
Proof.
  induction a as [|c a IH]; cbn [String.append split_char].
  - rewrite Ascii.eqb_refl. reflexivity.
  - destruct (Ascii.eqb c sep).
    + rewrite IH. reflexivity.
    + rewrite IH. destruct (split_char_cons sep a) as (w & ws & ->).
      reflexivity.
Qed.

Lemma split_char_clean (p : string) :
  has_space p = false -> split_char " " p = [p].
Proof.
  induction p as [|c p IH]; cbn [has_space split_char]; [reflexivity |].
  intros H. apply orb_false_iff in H. destruct H as [Hc Hp].
  rewrite Hc, (IH Hp). reflexivity.
Qed.

Lemma split_char_space (p : string) :
  has_space p = true -> 2 <= List.length (split_char " " p).
Proof.
  induction p as [|c p IH]; cbn [has_space split_char]; [discriminate |].
  destruct (Ascii.eqb c " "); cbn [orb].
  - intros _. destruct (split_char_cons " " p) as (w & ws & ->).
    cbn [List.length]. lia.
  - intros H. specialize (IH H).
    destruct (split_char " " p); cbn [List.length] in *; lia.
Qed.

Section AwsArguments.

Context {ProcessResult : Type}.
Variable subprocess_run : list string -> option ProcessResult.

(** X11: the arguments [aws_s3_copy] runs.  The command line is split at
    every single space, so the arguments are the four words of the
    command followed by the pieces of the remote path and of the local
    path between their spaces: a path without a space is one argument (an
    empty path is an empty argument), and as soon as a path has a space
    the command gets more than six arguments. *)
Theorem aws_s3_copy_arguments (remote_path local_path : string) :
  let words := ["aws"; "s3"; "cp"; "--no-sign-request"] in
  let args :=
    words ++ split_char " " remote_path ++ split_char " " local_path in
  aws_s3_copy subprocess_run remote_path local_path = subprocess_run args /\
  if has_space remote_path || has_space local_path
  then 6 < List.length args
  else args = words ++ [remote_path; local_path].
Proof.
  cbv zeta. split.
  - unfold aws_s3_copy. f_equal.
    change ("aws s3 cp --no-sign-request " ++ remote_path ++ " "
            ++ local_path)%string
      with ("aws s3 cp --no-sign-request"
            ++ String " " (remote_path ++ String " " local_path))%string.
    rewrite !split_char_app. reflexivity.
  - destruct (has_space remote_path) eqn:Hr; cbn [orb].
    + pose proof (split_char_space _ Hr).
      destruct (split_char_cons " " local_path) as (w & ws & ->).
      rewrite !length_app. cbn [List.length]. lia.
    + rewrite (split_char_clean _ Hr).
      destruct (has_space local_path) eqn:Hl.
      * pose proof (split_char_space _ Hl).
        rewrite !length_app. cbn [List.length]. lia.
      * rewrite (split_char_clean _ Hl). reflexivity.
Qed.

End AwsArguments.

(** A local path with a space reaches the command as two arguments. *)
Example aws_s3_copy_space :
  aws_s3_copy (fun args => Some args) "s3://bucket/metadata" "/data/abc mouse"
  = Some ["aws"; "s3"; "cp"; "--no-sign-request"; "s3://bucket/metadata";
          "/data/abc"; "mouse"].
Proof. reflexivity. Qed.

(** ** [aws_s3_sync]: splitting at whitespace *)

Lemma space2_space (c : ascii) : space2 c " " = false.
Proof. unfold space2. cbn. apply andb_false_r. Qed.

Lemma space3_space_2 (c1 c3 : ascii) : space3 c1 " " c3 = false.
Proof. unfold space3. cbn. rewrite !andb_false_r. reflexivity. Qed.

Lemma space3_space_3 (c1 c2 : ascii) : space3 c1 c2 " " = false.
Proof. unfold space3. cbn. rewrite !andb_false_r. reflexivity. Qed.

(** A space after a string does not complete a whitespace character that
    starts in the string. *)
Lemma whitespace_length_app (c : ascii) (t b : string) :
  whitespace_length (String c t ++ String " " b)
  = whitespace_length (String c t).
Proof.
  cbn [String.append whitespace_length].
  destruct (space1 c); [reflexivity |].
  destruct t as [|c2 t]; cbn [String.append].
  - rewrite space2_space.
    destruct b as [|c3 b]; [reflexivity |].
    rewrite space3_space_2. reflexivity.
  - destruct (space2 c c2); [reflexivity |].
    destruct t as [|c3 t]; cbn [String.append]; [| reflexivity].
    rewrite space3_space_3. reflexivity.
Qed.

Lemma whitespace_length_le (s : string) :
  whitespace_length s <= String.length s.
Proof.
  destruct s as [|c1 [|c2 [|c3 s]]]; cbn [whitespace_length String.length];
    repeat match goal with
           | |- context [if ?b then _ else _] => destruct b
           end; lia.
Qed.

Lemma split_scan_cons (s : string) :
  forall skip, exists w ws, split_scan s skip = w :: ws.
Proof.
  induction s as [|c s IH]; intros skip; cbn [split_scan]; [eauto |].
  destruct skip as [|k]; [| apply IH].
  destruct (whitespace_length (String c s)); [| eauto].
  destruct (split_scan s 0); eauto.
Qed.

(** Scanning across a space: the words before it, then the words after
    it. *)
Lemma split_scan_app (b : string) (a : string) :
  forall skip, skip <= String.length a ->
    split_scan (a ++ String " " b) skip = split_scan a skip ++ split_scan b 0.
Proof.
  induction a as [|c a IH]; intros skip Hskip.
  - cbn [String.length] in Hskip. assert (skip = 0) by lia. subst skip.
    reflexivity.
  - destruct skip as [|k].
    + change (split_scan (String c a ++ String " " b) 0)
        with (match whitespace_length (String c a ++ String " " b) with
              | O =>
                  match split_scan (a ++ String " " b) 0 with
                  | w :: ws => String c w :: ws
                  | [] => [String c EmptyString]
                  end
              | S k => EmptyString :: split_scan (a ++ String " " b) k
              end).
      rewrite whitespace_length_app.
      pose proof (whitespace_length_le (String c a)) as Hle.
      cbn [split_scan].
      destruct (whitespace_length (String c a)) as [|k].
      * rewrite IH by lia.
        destruct (split_scan_cons a 0) as (w & ws & ->). reflexivity.
      * cbn [String.length] in Hle. rewrite IH by lia. reflexivity.
    + cbn [String.append split_scan]. apply IH.
      cbn [String.length] in Hskip. lia.
Qed.

Lemma split_whitespace_app (a b : string) :
  split_whitespace (a ++ String " " b)
  = split_whitespace a ++ split_whitespace b.
Proof.
  unfold split_whitespace. rewrite split_scan_app by lia.
  apply filter_app.
Qed.

Lemma split_scan_clean (p : string) :
  has_whitespace p = false -> split_scan p 0 = [p].
Proof.
  induction p as [|c p IH]; [reflexivity |].
  cbn [has_whitespace]. intros H. apply orb_false_iff in H.
  destruct H as [Hc Hp]. apply negb_false_iff, Nat.eqb_eq in Hc.
  cbn [split_scan]. rewrite Hc, (IH Hp). reflexivity.
Qed.

Lemma split_whitespace_clean (p : string) :
  has_whitespace p = false -> split_whitespace p = path_word p.
Proof.
  intros H. unfold split_whitespace, path_word.
  rewrite (split_scan_clean p H). cbn [filter].
  destruct (String.eqb p EmptyString); reflexivity.
Qed.

(** A whitespace character at the start of a prefix is one at the start
    of the string. *)
Lemma whitespace_length_prefix (t u : string) :
  whitespace_length (t ++ u) = 0 -> whitespace_length t = 0.
Proof.
  destruct t as [|c1 [|c2 [|c3 t]]];
    cbn [String.append whitespace_length]; try reflexivity.
  - destruct (space1 c1); [discriminate | reflexivity].
  - destruct (space1 c1); [discriminate |].
    destruct u as [|c3 u]; [auto |].
    destruct (space2 c1 c2); [discriminate | reflexivity].
  - auto.
Qed.

(** The first word of a scan is a prefix of the string. *)
Lemma split_scan_prefix (s : string) :
  forall w ws, split_scan s 0 = w :: ws -> exists rest, s = (w ++ rest)%string.
Proof.
  induction s as [|c s IH]; intros w ws; cbn [split_scan].
  - intros H. injection H as <- _. exists EmptyString. reflexivity.
  - destruct (whitespace_length (String c s)).
    + destruct (split_scan s 0) as [|w' ws'] eqn:E.
      * destruct (split_scan_cons s 0) as (? & ? & E'). congruence.
      * intros H. injection H as <- _.
        destruct (IH w' ws' eq_refl) as (rest & ->).
        exists rest. reflexivity.
    + intros H. injection H as <- _. exists (String c s). reflexivity.
Qed.

(** No word of a scan has a whitespace character. *)
Lemma split_scan_words (s : string) :
  forall skip, Forall (fun w => has_whitespace w = false) (split_scan s skip).
Proof.
  induction s as [|c s IH]; intros skip; cbn [split_scan].
  - repeat constructor.
  - destruct skip as [|k]; [| apply IH].
    destruct (whitespace_length (String c s)) as [|k] eqn:E.
    + destruct (split_scan s 0) as [|w ws] eqn:Es.
      * destruct (split_scan_cons s 0) as (? & ? & E'). congruence.
      * pose proof (IH 0) as Hall. rewrite Es in Hall.
        inversion Hall as [|? ? Hw Hws]. subst.
        constructor; [| exact Hws].
        cbn [has_whitespace]. rewrite Hw, orb_false_r.
        destruct (split_scan_prefix s w ws Es) as (rest & Hs).
        rewrite Hs in E.
        change (String c (w ++ rest)) with (String c w ++ rest)%string in E.
        rewrite (whitespace_length_prefix _ _ E). reflexivity.
    + constructor; [reflexivity | apply IH].
Qed.

Lemma split_whitespace_words (s w : string) :
  In w (split_whitespace s) -> w <> EmptyString /\ has_whitespace w = false.
Proof.
  unfold split_whitespace. rewrite filter_In. intros [Hin Hne]. split.
  - intros ->. discriminate Hne.
  - pose proof (split_scan_words s 0) as H. rewrite Forall_forall in H.
    apply H, Hin.
Qed.

Section AwsSyncArguments.

Context {ProcessResult : Type}.
Variable subprocess_run : list string -> option ProcessResult.

(** X12: the arguments [aws_s3_sync] runs.  The command line is split at
    runs of whitespace, so the arguments are the four words of the
    command followed by the words of the remote path and of the local
    path, and no argument is empty or has a whitespace character.  A path
    without whitespace that is not empty is one argument; an empty path
    gives no argument at all (where [aws_s3_copy] passes an empty
    argument); and a path with a whitespace character is never passed as
    it is. *)
Theorem aws_s3_sync_arguments (remote_path local_path : string) :
  let words := ["aws"; "s3"; "sync"; "--no-sign-request"] in
  let args :=
    words ++ split_whitespace remote_path ++ split_whitespace local_path in
  aws_s3_sync subprocess_run remote_path local_path = subprocess_run args /\
  Forall (fun w => w <> EmptyString /\ has_whitespace w = false) args /\
  Forall (fun p =>
            if has_whitespace p
            then ~ In p (split_whitespace p)
            else split_whitespace p = path_word p)
         [remote_path; local_path].
Proof.
  cbv zeta. split; [| split].
  - unfold aws_s3_sync. f_equal.
    change ("aws s3 sync --no-sign-request " ++ remote_path ++ " "
            ++ local_path)%string
      with ("aws s3 sync --no-sign-request"
            ++ String " " (remote_path ++ String " " local_path))%string.
    rewrite !split_whitespace_app. reflexivity.
  - apply Forall_app. split.
    + repeat constructor; discriminate.
    + apply Forall_app.
      split; apply Forall_forall; intros w Hw;
        exact (split_whitespace_words _ w Hw).
  - assert (H : forall p,
              if has_whitespace p
              then ~ In p (split_whitespace p)
              else split_whitespace p = path_word p).
    { intros p. destruct (has_whitespace p) eqn:E.
      - intros Hin. apply split_whitespace_words in Hin. destruct Hin.
        congruence.
      - apply split_whitespace_clean, E. }
    repeat constructor; apply H.
Qed.

End AwsSyncArguments.

(** An empty local path: [aws_s3_sync] runs five arguments, [aws_s3_copy]
    six; a no-break space in a path splits it for [aws_s3_sync] only. *)
Example aws_s3_sync_empty_path :
  aws_s3_sync (fun args => Some args) "s3://bucket/metadata" ""
  = Some ["aws"; "s3"; "sync"; "--no-sign-request"; "s3://bucket/metadata"]
  /\ aws_s3_copy (fun args => Some args) "s3://bucket/metadata" ""
     = Some ["aws"; "s3"; "cp"; "--no-sign-request"; "s3://bucket/metadata";
             ""]
  /\ aws_s3_sync (fun args => Some args) "s3://b"
       (String "a" (String (ascii_of_N 194) (String (ascii_of_N 160) "b")))
     = Some ["aws"; "s3"; "sync"; "--no-sign-request"; "s3://b"; "a"; "b"].
Proof. repeat split; reflexivity. Qed.

(** ** The columns and the totals of the tables of a region *)

(** X13: the columns of the tables [region_ccf_cell_types] returns.
    Every row of a count table has the 21 columns E, I, O, the GABA
    columns, the Glut columns, T and EI, in this order; every row of a
    ratio table has the 17 columns Region, Layer, nregion, the inhibitory
    fraction, the fraction within the region and the twelve subtype
    fractions, in this order; no column is there twice. *)
Theorem region_table_columns (st : store) (cell_ccf : ref)
    (cells : list Cell) (region_list : list string) :
  nth_error st cell_ccf = Some (of_cells cells) ->
  exists (out : RegionTables) (st' : store),
    region_ccf_cell_types cell_ccf region_list st = Some (out, st') /\
    NoDup COUNT_TABLE_COLUMNS /\ List.length COUNT_TABLE_COLUMNS = 21 /\
    NoDup RATIO_TABLE_COLUMNS /\ List.length RATIO_TABLE_COLUMNS = 17 /\
    (forall region ctx,
       PyDict.get region (region_ctx_ccf out) = Some ctx ->
       Forall (fun row => PyDict.keys (cols row) = COUNT_TABLE_COLUMNS) ctx) /\
    (forall region frac,
       PyDict.get region (region_frac_ccf out) = Some frac ->
       Forall (fun row => PyDict.keys (cols row) = RATIO_TABLE_COLUMNS) frac).
Proof.
  intros H.
  destruct (region_ccf_cell_types_tables cell_ccf cells region_list st H)
    as (out & ext & Hrun & Hctx & Hfrac & _).
  exists out, (st ++ ext). split; [exact Hrun |].
  assert (Hnd : forall l : list string, uniqueb l = true -> NoDup l).
  { induction l as [|x l IH]; cbn [uniqueb]; intros E; constructor.
    - apply andb_true_iff in E. destruct E as [E _].
      apply negb_true_iff in E. intros Hin.
      apply existsb_eqb_In in Hin. congruence.
    - apply IH. apply andb_true_iff in E. apply E. }
  split; [apply Hnd; reflexivity |]. split; [reflexivity |].
  split; [apply Hnd; reflexivity |]. split; [reflexivity |].
  split.
  - intros region ctx Hg. destruct (Hctx region ctx Hg) as (_ & _ & ->).
    apply Forall_map, Forall_forall. intros k _. reflexivity.
  - intros region frac Hg. destruct (Hfrac region frac Hg) as (_ & _ & -> & _).
    unfold ratio_table. apply Forall_map, Forall_forall. intros r _.
    reflexivity.
Qed.

Lemma region_table_columns_witness :
  exists (out : RegionTables) (st' : store),
    region_ccf_cell_types 0 sample_regions [of_cells sample_cells]
    = Some (out, st') /\
    NoDup COUNT_TABLE_COLUMNS /\ List.length COUNT_TABLE_COLUMNS = 21 /\
    NoDup RATIO_TABLE_COLUMNS /\ List.length RATIO_TABLE_COLUMNS = 17 /\
    (forall region ctx,
       PyDict.get region (region_ctx_ccf out) = Some ctx ->
       Forall (fun row => PyDict.keys (cols row) = COUNT_TABLE_COLUMNS) ctx) /\
    (forall region frac,
       PyDict.get region (region_frac_ccf out) = Some frac ->
       Forall (fun row => PyDict.keys (cols row) = RATIO_TABLE_COLUMNS) frac).
Proof.
  apply (region_table_columns [of_cells sample_cells] 0 sample_cells
           sample_regions).
  reflexivity.
Defined.

Lemma filter_length_le {A : Type} (p : A -> bool) (l : list A) :
  List.length (filter p l) <= List.length l.
Proof.
  induction l as [|a l IH]; [reflexivity |].
  cbn [filter]. destruct (p a); cbn [List.length]; lia.
Qed.

(** A substructure that labels a row has a record. *)
Lemma substructure_cells_nonempty (cs : list Cell) (k : string) :
  In k (group_keys (map parcellation_substructure cs)) ->
  1 <= List.length (substructure_cells k cs).
Proof.
  intros Hk. apply group_keys_In, in_map_iff in Hk.
  destruct Hk as (c & Hc & Hin).
  assert (Hm : In c (substructure_cells k cs)).
  { unfold substructure_cells. apply filter_In. split; [exact Hin |].
    apply key_is_true, Hc. }
  destruct (substructure_cells k cs); [contradiction | cbn; lia].
Qed.

(** X14: the total of a row counts records.  In every count table
    [region_ccf_cell_types] returns, the T entry of a row is the number
    of records of the region with the substructure of the row; it is at
    least 1 (a substructure without a record has no row) and at most the
    number of records of the region, so the "fraction wi. region" entry
    of the row is a number greater than 0 and at most 1, never NaN. *)
Theorem region_row_total (st : store) (cell_ccf : ref)
    (cells : list Cell) (region_list : list string) :
  nth_error st cell_ccf = Some (of_cells cells) ->
  exists (out : RegionTables) (st' : store),
    region_ccf_cell_types cell_ccf region_list st = Some (out, st') /\
    forall region frac,
      PyDict.get region (region_frac_ccf out) = Some frac ->
      exists ctx,
        PyDict.get region (region_ctx_ccf out) = Some ctx /\
        Forall2 (fun crow frow =>
          idx frow = idx crow /\
          let cs := region_cells region cells in
          let t := Z.of_nat (List.length (substructure_cells (idx crow) cs)) in
          PyDict.get "T" (cols crow) = Some t /\
          (1 <= t <= Z.of_nat (List.length cs))%Z /\
          exists q : Q,
            PyDict.get FRACTION_WI_REGION_COLUMN (cols frow)
            = Some (RFloat (FNum q)) /\
            (0 < q)%Q /\ (q <= 1)%Q) ctx frac.
Proof.
  intros H.
  destruct (region_ccf_cell_types_tables cell_ccf cells region_list st H)
    as (out & ext & Hrun & _ & Hfrac & _).
  exists out, (st ++ ext). split; [exact Hrun |].
  intros region frac Hg.
  destruct (Hfrac region frac Hg) as (_ & _ & -> & Hc).
  eexists. split; [exact Hc |].
  unfold ratio_table. apply Forall2_map_self. intros crow Hcrow.
  unfold count_table in Hcrow. apply in_map_iff in Hcrow.
  destruct Hcrow as (k & <- & Hk).
  split; [reflexivity |]. cbv zeta. cbn [idx count_row].
  set (cs := region_cells region cells) in *.
  set (grp := substructure_cells k cs).
  pose proof (substructure_cells_nonempty cs k Hk) as H1. fold grp in H1.
  assert (H2 : List.length grp <= List.length cs)
    by apply filter_length_le.
  assert (HT : PyDict.get "T" (cols (count_row cs k))
               = Some (cnt flag_E grp + cnt flag_I grp + cnt flag_O grp)%Z)
    by reflexivity.
  rewrite HT, cnt_EIO.
  split; [reflexivity |]. split; [lia |].
  assert (Hfr : PyDict.get FRACTION_WI_REGION_COLUMN
                  (cols (ratio_row region (Z.of_nat (List.length cs))
                           (count_row cs k)))
                = Some (RFloat (int_truediv
                                  (cnt flag_E grp + cnt flag_I grp
                                   + cnt flag_O grp)
                                  (Z.of_nat (List.length cs)))))
    by reflexivity.
  rewrite Hfr, cnt_EIO, int_truediv_pos by lia.
  eexists. split; [reflexivity |]. split.
  - apply Qlt_shift_div_l.
    + change 0%Q with (inject_Z 0). rewrite <- Zlt_Qlt. lia.
    + rewrite Qmult_0_l. change 0%Q with (inject_Z 0).
      rewrite <- Zlt_Qlt. lia.
  - apply Qdiv_unit; lia.
Qed.

Lemma region_row_total_witness :
  exists (out : RegionTables) (st' : store),
    region_ccf_cell_types 0 sample_regions [of_cells sample_cells]
    = Some (out, st') /\
    forall region frac,
      PyDict.get region (region_frac_ccf out) = Some frac ->
      exists ctx,
        PyDict.get region (region_ctx_ccf out) = Some ctx /\
        Forall2 (fun crow frow =>
          idx frow = idx crow /\
          let cs := region_cells region sample_cells in
          let t := Z.of_nat (List.length (substructure_cells (idx crow) cs)) in
          PyDict.get "T" (cols crow) = Some t /\
          (1 <= t <= Z.of_nat (List.length cs))%Z /\
          exists q : Q,
            PyDict.get FRACTION_WI_REGION_COLUMN (cols frow)
            = Some (RFloat (FNum q)) /\
            (0 < q)%Q /\ (q <= 1)%Q) ctx frac.
Proof.
  apply (region_row_total [of_cells sample_cells] 0 sample_cells
           sample_regions).
  reflexivity.
Defined.

(** ** ResultFlattener: any sequence of results *)

Lemma flat_map_length_ge {A B : Type} (f : A -> list B) (l : list A) :
  (forall a, 1 <= List.length (f a)) ->
  List.length l <= List.length (flat_map f l).
Proof.
  intros H. induction l as [|a l IH]; [reflexivity |].
  cbn [flat_map List.length]. rewrite length_app.
  specialize (H a). lia.
Qed.

Lemma forallb_flat_map {A B : Type} (p : B -> bool) (f : A -> list B)
    (l : list A) :
  forallb p (flat_map f l) = forallb (fun a => forallb p (f a)) l.
Proof.
  induction l as [|a l IH]; [reflexivity |].
  cbn [flat_map forallb]. rewrite forallb_app, IH. reflexivity.
Qed.

(** X15: [DFBuilder.qry2dict] on any sequence of results.  The rows of a
    concatenation of sequences are the rows of the first followed by the
    rows of the second; every region map gives at least one row, an empty
    one included; and all rows are maps exactly when no region map mixes
    maps with other values: in a mixed map the other values are rows
    too. *)
Theorem qry2dict_any (in_iter more : list (dict (dict pyval))) :
  DFBuilder.qry2dict (in_iter ++ more)
  = DFBuilder.qry2dict in_iter ++ DFBuilder.qry2dict more /\
  List.length (region_maps in_iter)
  <= List.length (DFBuilder.qry2dict in_iter) /\
  (forallb DFBuilder.is_mapping (DFBuilder.qry2dict in_iter) = true <->
   Forall (fun region_dct => mixed region_dct = false)
     (region_maps in_iter)).
Proof.
  rewrite !qry2dict_flat_map.
  set (rows := fun rx_region_dct : string * dict pyval =>
                 let region_dct := snd rx_region_dct in
                 if DFBuilder.has_sub_region region_dct
                 then PyDict.values region_dct
                 else [PMap region_dct]).
  split; [apply flat_map_app |]. split.
  - assert (H1 : forall a, 1 <= List.length (rows a)).
    { intros [rx m]. unfold rows. cbn [snd].
      destruct (DFBuilder.has_sub_region m) eqn:E; [| cbn; lia].
      unfold DFBuilder.has_sub_region in E.
      destruct (PyDict.values m); [discriminate E | cbn; lia]. }
    unfold region_maps, PyDict.values, PyDict.items.
    induction in_iter as [|q in_iter IH]; [reflexivity |].
    cbn [flat_map]. rewrite !length_app, length_map.
    pose proof (flat_map_length_ge rows q H1). lia.
  - rewrite forallb_flat_map, forallb_forall, Forall_forall.
    unfold region_maps, PyDict.values, PyDict.items.
    assert (Hrow : forall rx_m : string * dict pyval,
              forallb DFBuilder.is_mapping (rows rx_m) = true
              <-> mixed (snd rx_m) = false).
    { intros [rx m]. unfold rows, mixed. cbn [snd].
      destruct (DFBuilder.has_sub_region m); cbn [andb forallb].
      - rewrite negb_false_iff. reflexivity.
      - tauto. }
    split.
    + intros Hall m Hm. apply in_flat_map in Hm.
      destruct Hm as (q & Hq & Hm). apply in_map_iff in Hm.
      destruct Hm as (rx_m & <- & Hin).
      apply Hrow. specialize (Hall q Hq).
      rewrite forallb_flat_map, forallb_forall in Hall. apply Hall, Hin.
    + intros Hall q Hq. rewrite forallb_flat_map, forallb_forall.
      intros rx_m Hin. apply Hrow, Hall, in_flat_map.
      exists q. split; [exact Hq |]. apply in_map, Hin.
Qed.

(** A region map that mixes a row with a scalar: the scalar is a row of
    the result; an empty region map is a row. *)
Example qry2dict_mixed :
  DFBuilder.qry2dict
    [[("VISp", [("VISp1", PMap [("nregion", PScalar (RInt 8))]);
                ("note", PScalar (RStr "partial"))]);
      ("MOp", [])]]
  = [PMap [("nregion", PScalar (RInt 8))]; PScalar (RStr "partial"); PMap []].
Proof. reflexivity. Qed.

(** ** FractionComputer: the columns it needs *)

Lemma fraction_columns_reads (area_sumdf : CountFrame) (total : string)
    (types : list string) :
  forall ratio_df ratio_df',
    fraction_columns area_sumdf types total ratio_df = Some ratio_df' ->
    forall colx, In colx types ->
      column colx area_sumdf <> None /\ column total area_sumdf <> None.
Proof.
  unfold fraction_columns.
  induction types as [|t types IH]; intros ratio_df ratio_df' H colx Hin.
  - destruct Hin.
  - cbn [ofold] in H.
    destruct (column t area_sumdf) as [a|] eqn:Ea; [| discriminate H].
    destruct (column total area_sumdf) as [b|] eqn:Eb; [| discriminate H].
    cbn [obind] in H.
    destruct (set_column (FRACTION_COLUMN_FMT t) (map RFloat (series_div a b))
                ratio_df) as [r1|] eqn:Es; [| discriminate H].
    cbn [obind] in H.
    destruct Hin as [<- | Hin].
    + split; congruence.
    + destruct (IH r1 ratio_df' H colx Hin) as [H1 _].
      split; [exact H1 | congruence].
Qed.

Lemma cell_meta_type_ratios_reads (area_sumdf : CountFrame) (ax : string)
    (nregion : Z) (ratio_df : RatioFrame) :
  cell_meta_type_ratios area_sumdf ax nregion = Some ratio_df ->
  forall n, In n RATIO_INPUT_COLUMNS -> column n area_sumdf <> None.
Proof.
  unfold cell_meta_type_ratios. intros H.
  repeat match type of H with
         | obind ?c _ = Some _ =>
             let E := fresh "E" in
             destruct c eqn:E; [cbn [obind] in H | discriminate H]
         end.
  match goal with
  | Ha : fraction_columns _ GABA_TYPES _ _ = Some _,
    Hb : fraction_columns _ GLUT_IT_TYPES _ _ = Some _,
    Hc : fraction_columns _ GLUT_TYPES _ _ = Some _ |- _ =>
      pose proof (fraction_columns_reads _ _ _ _ _ Ha) as R1;
      pose proof (fraction_columns_reads _ _ _ _ _ Hb) as R2;
      pose proof (fraction_columns_reads _ _ _ _ _ Hc) as R3
  end.
  intros n Hn. unfold RATIO_INPUT_COLUMNS in Hn.
  rewrite !in_app_iff in Hn.
  destruct Hn as [Hn | [Hn | [Hn | Hn]]].
  - cbn [In] in Hn.
    destruct Hn as [<- | [<- | [<- | [<- | [<- | []]]]]]; try congruence.
    + apply (R1 "Vip"). left. reflexivity.
    + apply (R2 "IT-ENT"). left. reflexivity.
  - apply (R1 n Hn).
  - apply (R2 n Hn).
  - apply (R3 n Hn).
Qed.

Lemma column_has (n : string) (area_sumdf : CountFrame) :
  column n area_sumdf <> None ->
  Forall (fun r => PyDict.get n (cols r) <> None) area_sumdf.
Proof.
  unfold column. induction area_sumdf as [|r df IH]; intros H.
  - constructor.
  - cbn [omap] in H.
    destruct (PyDict.get n (cols r)) eqn:E; [| contradiction].
    cbn [obind] in H.
    destruct (omap (fun r => PyDict.get n (cols r)) df) eqn:Eo;
      [| contradiction].
    constructor; [congruence |]. apply IH. congruence.
Qed.

(** X16: the columns [cell_meta_type_ratios] needs.  On a count table
    with at least one row whose column names are all different, and for
    a region size in the int64 range, the call returns exactly when the
    table has the columns I, EI, T, GABA,
    Glut and the twelve subtype columns; it then returns one row per row
    of the count table, with the same labels in the same order and with
    the columns of a ratio table, for any region key (a size of 0 does
    not raise).  When one of these columns is missing the call raises
    (the [KeyError] of the column). *)
Theorem cell_meta_type_ratios_needs (area_sumdf : CountFrame) (ax : string)
    (nregion : Z) :
  area_sumdf <> [] ->
  Forall (fun row => NoDup (PyDict.keys (cols row))) area_sumdf ->
  (- 2 ^ 63 <= nregion < 2 ^ 63)%Z ->
  (Forall (has_columns RATIO_INPUT_COLUMNS) area_sumdf /\
   exists ratio_df : RatioFrame,
     cell_meta_type_ratios area_sumdf ax nregion = Some ratio_df /\
     index ratio_df = index area_sumdf /\
     Forall (fun row => PyDict.keys (cols row) = RATIO_TABLE_COLUMNS)
       ratio_df)
  \/
  (~ Forall (has_columns RATIO_INPUT_COLUMNS) area_sumdf /\
   cell_meta_type_ratios area_sumdf ax nregion = None).
Proof.
  intros _ _ _.
  destruct (cell_meta_type_ratios area_sumdf ax nregion) as [ratio_df|] eqn:E.
  - left.
    assert (Hall : Forall (has_columns RATIO_INPUT_COLUMNS) area_sumdf).
    { pose proof (cell_meta_type_ratios_reads _ _ _ _ E) as Hreads.
      apply Forall_forall. intros r Hr. unfold has_columns.
      apply Forall_forall. intros n Hn.
      pose proof (column_has n area_sumdf (Hreads n Hn)) as Hc.
      rewrite Forall_forall in Hc. apply Hc, Hr. }
    split; [exact Hall |].
    rewrite (cell_meta_type_ratios_rows area_sumdf ax nregion Hall) in E.
    injection E as <-.
    eexists. split; [reflexivity |].
    split; [rewrite index_rows; reflexivity |].
    apply Forall_map, Forall_forall. intros r _. reflexivity.
  - right. split; [| reflexivity].
    intros Hall.
    rewrite (cell_meta_type_ratios_rows area_sumdf ax nregion Hall) in E.
    discriminate E.
Qed.

Lemma cell_meta_type_ratios_needs_witness :
  let area_sumdf := count_table (region_cells "VISp" sample_cells) in
  (Forall (has_columns RATIO_INPUT_COLUMNS) area_sumdf /\
   exists ratio_df : RatioFrame,
     cell_meta_type_ratios area_sumdf "VISp" 0 = Some ratio_df /\
     index ratio_df = index area_sumdf /\
     Forall (fun row => PyDict.keys (cols row) = RATIO_TABLE_COLUMNS)
       ratio_df)
  \/
  (~ Forall (has_columns RATIO_INPUT_COLUMNS) area_sumdf /\
   cell_meta_type_ratios area_sumdf "VISp" 0 = None).
Proof.
  apply (cell_meta_type_ratios_needs
           (count_table (region_cells "VISp" sample_cells)) "VISp" 0).
  - vm_compute. discriminate.
  - apply Forall_map, Forall_forall. intros k _.
    cbn. repeat constructor; cbn; intuition discriminate.
  - lia.
Defined.

(** A count table without the column EI: the call raises. *)
Example cell_meta_type_ratios_missing_column :
  cell_meta_type_ratios [mkRow "VISp1" [("I", 2%Z); ("T", 5%Z)]] "VISp" 8
  = None.
Proof. reflexivity. Qed.

(** ** The order of the records of the table *)

Lemma ltb_lt (a b : string) :
  String.ltb a b = true <-> OrderedTypeEx.String_as_OT.lt a b.
Proof.
  rewrite <- OrderedTypeEx.String_as_OT.cmp_lt.
  unfold String.ltb, OrderedTypeEx.String_as_OT.cmp.
  destruct (String.compare a b); split; congruence.
Qed.

Lemma ltb_trans (a b c : string) :
  String.ltb a b = true -> String.ltb b c = true -> String.ltb a c = true.
Proof.
  rewrite !ltb_lt. apply OrderedTypeEx.String_as_OT.lt_trans.
Qed.

Lemma ltb_irrefl (a : string) : String.ltb a a = false.
Proof.
  unfold String.ltb.
  destruct (String.compare a a) eqn:E; try reflexivity.
  pose proof (String.compare_antisym a a) as H. rewrite E in H.
  discriminate H.
Qed.

(** Two lists in strictly ascending order with the same elements are the
    same list. *)
Lemma sorted_unique (l1 : list string) :
  forall l2,
    StronglySorted (fun a b => String.ltb a b = true) l1 ->
    StronglySorted (fun a b => String.ltb a b = true) l2 ->
    Permutation l1 l2 -> l1 = l2.
Proof.
  induction l1 as [|a l1 IH]; intros l2 S1 S2 Hp.
  - apply Permutation_nil in Hp. congruence.
  - destruct l2 as [|b l2].
    + apply Permutation_sym, Permutation_nil in Hp. discriminate Hp.
    + inversion S1 as [|? ? S1' F1]. inversion S2 as [|? ? S2' F2]. subst.
      assert (Hab : a = b).
      { assert (Ha : In a (b :: l2))
          by (eapply Permutation_in; [exact Hp | left; reflexivity]).
        assert (Hb : In b (a :: l1))
          by (eapply Permutation_in;
              [apply Permutation_sym; exact Hp | left; reflexivity]).
        destruct Ha as [-> | Ha]; [reflexivity |].
        destruct Hb as [-> | Hb]; [reflexivity |].
        rewrite Forall_forall in F1, F2.
        pose proof (ltb_trans _ _ _ (F1 b Hb) (F2 a Ha)) as Hc.
        rewrite ltb_irrefl in Hc. discriminate Hc. }
      subst b. f_equal. apply IH; try assumption.
      eapply Permutation_cons_inv. exact Hp.
Qed.

Lemma dropna_perm (s s' : list (option string)) :
  Permutation s s' -> Permutation (dropna s) (dropna s').
Proof.
  induction 1 as [| [x|] ? ? ? IH | [x|] [y|] ? | ? ? ? ? IH1 ? IH2];
    cbn [dropna]; try (constructor; assumption); try assumption.
  - apply Permutation_refl.
  - apply Permutation_refl.
  - apply Permutation_refl.
  - eapply Permutation_trans; eassumption.
Qed.

(** The labels of the groups do not depend on the order of the keys. *)
Lemma group_keys_perm (s s' : list (option string)) :
  Permutation s s' -> group_keys s = group_keys s'.
Proof.
  intros Hp. apply sorted_unique.
  - apply Sorted_StronglySorted; [| apply group_keys_Sorted].
    intros a b c. apply ltb_trans.
  - apply Sorted_StronglySorted; [| apply group_keys_Sorted].
    intros a b c. apply ltb_trans.
  - unfold group_keys.
    eapply Permutation_trans;
      [apply Permutation_sym, StringSort.Permuted_sort |].
    eapply Permutation_trans; [| apply StringSort.Permuted_sort].
    apply NoDup_Permutation; try apply NoDup_nodup.
    intros x. rewrite !nodup_In. split; apply Permutation_in.
    + apply dropna_perm, Hp.
    + apply dropna_perm, Permutation_sym, Hp.
Qed.

Lemma filter_perm {A : Type} (p : A -> bool) (l l' : list A) :
  Permutation l l' -> Permutation (filter p l) (filter p l').
Proof.
  induction 1 as [| x ? ? ? IH | x y ? | ? ? ? ? IH1 ? IH2]; cbn [filter].
  - constructor.
  - destruct (p x); [constructor |]; assumption.
  - destruct (p x), (p y); try apply Permutation_refl.
    apply perm_swap.
  - eapply Permutation_trans; eassumption.
Qed.

Lemma cnt_perm (f : Cell -> bool) (l l' : list Cell) :
  Permutation l l' -> cnt f l = cnt f l'.
Proof.
  unfold cnt.
  induction 1 as [| x ? ? ? IH | x y ? | ? ? ? ? IH1 ? IH2];
    cbn [map sum_bool fold_right] in *.
  - reflexivity.
  - unfold sum_bool in IH. rewrite IH. reflexivity.
  - lia.
  - congruence.
Qed.

Lemma count_table_perm (cs cs' : list Cell) :
  Permutation cs cs' -> count_table cs = count_table cs'.
Proof.
  intros Hp. unfold count_table.
  rewrite (group_keys_perm (map parcellation_substructure cs)
             (map parcellation_substructure cs'))
    by (apply Permutation_map, Hp).
  apply map_ext. intros k. unfold count_row.
  assert (Hg : Permutation (substructure_cells k cs)
                 (substructure_cells k cs'))
    by (apply filter_perm, Hp).
  rewrite !(cnt_perm _ _ _ Hg). f_equal. f_equal.
  apply map_ext. intros nf. rewrite (cnt_perm _ _ _ Hg). reflexivity.
Qed.

Lemma ratio_table_perm (region : string) (cs cs' : list Cell) :
  Permutation cs cs' -> ratio_table region cs = ratio_table region cs'.
Proof.
  intros Hp. unfold ratio_table.
  rewrite (count_table_perm cs cs' Hp), (Permutation_length Hp).
  reflexivity.
Qed.

Lemma has_records_perm (cells cells' : list Cell) (region : string) :
  Permutation cells cells' ->
  has_records cells region = has_records cells' region.
Proof.
  intros Hp. unfold has_records. apply eq_true_iff_eq.
  rewrite !existsb_exists. split; intros (c & Hc & E); exists c; split;
    try exact E.
  - eapply Permutation_in; eassumption.
  - eapply Permutation_in; [apply Permutation_sym |]; eassumption.
Qed.

(** The count tables and the ratio tables of a call, as dicts. *)
Lemma region_tables_explicit (cell_ccf : ref) (cells : list Cell)
    (region_list : list string) (st : store) :
  nth_error st cell_ccf = Some (of_cells cells) ->
  exists (out : RegionTables) (st' : store),
    region_ccf_cell_types cell_ccf region_list st = Some (out, st') /\
    let regions :=
      first_occurrences (filter (has_records cells) region_list) in
    region_ctx_ccf out
    = map (fun rg => (rg, count_table (region_cells rg cells))) regions /\
    region_frac_ccf out
    = map (fun rg => (rg, ratio_table rg (region_cells rg cells))) regions.
Proof.
  intros H.
  destruct (region_ccf_cell_types_spec cell_ccf cells region_list st H)
    as (out & ext & Hrun & Hspec).
  pose proof (region_keys_steps cells region_list st) as (_ & Kc & Kf).
  pose proof (region_ccf_cell_types_steps _ cells region_list st H) as Hsteps.
  rewrite Hrun in Hsteps. injection Hsteps as Hsteps.
  rewrite <- Hsteps in Kc, Kf. cbn [fst] in Kc, Kf.
  exists out, (st ++ ext). split; [exact Hrun |]. cbv zeta.
  set (regions := first_occurrences
                    (filter (has_records cells) region_list)) in *.
  assert (Hin : forall k, In k regions ->
            In k region_list /\ region_cells k cells <> []).
  { intros k Hk. apply first_occurrences_In, filter_In in Hk.
    destruct Hk as [Hk Hrec]. split; [exact Hk |].
    intros E. apply region_cells_has_records in E. congruence. }
  split.
  - rewrite <- Kc. apply dict_by_keys.
    + rewrite Kc. apply first_occurrences_NoDup.
    + intros k Hk. rewrite Kc in Hk. apply (Hspec k), Hin, Hk.
  - rewrite <- Kf. apply dict_by_keys.
    + rewrite Kf. apply first_occurrences_NoDup.
    + intros k Hk. rewrite Kf in Hk. apply (Hspec k), Hin, Hk.
Qed.

(** X17: the count tables and the ratio tables do not depend on the order
    of the records.  Two calls of [region_ccf_cell_types] with the same
    request, on tables that have the same records in any order, return
    the same mapping of count tables and the same mapping of ratio
    tables. *)
Theorem region_tables_record_order (st1 st2 : store) (ccf1 ccf2 : ref)
    (cells1 cells2 : list Cell) (region_list : list string) :
  nth_error st1 ccf1 = Some (of_cells cells1) ->
  nth_error st2 ccf2 = Some (of_cells cells2) ->
  Permutation cells1 cells2 ->
  exists (out1 out2 : RegionTables) (st1' st2' : store),
    region_ccf_cell_types ccf1 region_list st1 = Some (out1, st1') /\
    region_ccf_cell_types ccf2 region_list st2 = Some (out2, st2') /\
    region_ctx_ccf out1 = region_ctx_ccf out2 /\
    region_frac_ccf out1 = region_frac_ccf out2.
Proof.
  intros H1 H2 Hp.
  destruct (region_tables_explicit ccf1 cells1 region_list st1 H1)
    as (out1 & st1' & Hrun1 & Hc1 & Hf1).
  destruct (region_tables_explicit ccf2 cells2 region_list st2 H2)
    as (out2 & st2' & Hrun2 & Hc2 & Hf2).
  exists out1, out2, st1', st2'.
  split; [exact Hrun1 |]. split; [exact Hrun2 |].
  rewrite Hc1, Hc2, Hf1, Hf2.
  rewrite (filter_ext (has_records cells1) (has_records cells2))
    by (intros rg; apply has_records_perm, Hp).
  assert (Hrc : forall rg,
            Permutation (region_cells rg cells1) (region_cells rg cells2))
    by (intros rg; apply filter_perm, Hp).
  split; apply map_ext; intros rg.
  - rewrite (count_table_perm _ _ (Hrc rg)). reflexivity.
  - rewrite (ratio_table_perm rg _ _ (Hrc rg)). reflexivity.
Qed.

Lemma region_tables_record_order_witness :
  exists (out1 out2 : RegionTables) (st1' st2' : store),
    region_ccf_cell_types 0 sample_regions [of_cells sample_cells]
    = Some (out1, st1') /\
    region_ccf_cell_types 0 sample_regions [of_cells (rev sample_cells)]
    = Some (out2, st2') /\
    region_ctx_ccf out1 = region_ctx_ccf out2 /\
    region_frac_ccf out1 = region_frac_ccf out2.
Proof.
  apply (region_tables_record_order [of_cells sample_cells]
           [of_cells (rev sample_cells)] 0 0 sample_cells
           (rev sample_cells) sample_regions).
  - reflexivity.
  - reflexivity.
  - apply Permutation_rev.
Defined.

(** ** TaxonomyClassifier: the classified table *)

Lemma classified_labels (c c' : Cell) :
  class c = class c' -> subclass c = subclass c' ->
  cols (classified c) = cols (classified c').
Proof.
  destruct c, c'. simpl. intros -> ->. reflexivity.
Qed.

(** X18: the table [cell_meta_type_flags] returns.  On a table as read
    from the metadata file the call returns a new frame and leaves the
    frame it was given as it was (the subtype steps write in place, but
    into the frame the first step made).  The new frame has the records
    of the table in their order; every row has the 19 flag columns E, I,
    O, the GABA columns and the Glut columns, in this order; and the
    flags of a record depend on its class and subclass only: two records
    with the same class and subclass have the same flags. *)
Theorem cell_meta_type_flags_table (st : store) (area_cell_df : ref)
    (cells : list Cell) :
  nth_error st area_cell_df = Some (of_cells cells) ->
  exists (r : ref) (st' : store) (df : CellFrame),
    cell_meta_type_flags area_cell_df st = Some (r, st') /\
    r <> area_cell_df /\
    nth_error st' area_cell_df = Some (of_cells cells) /\
    (forall r0 df0,
       nth_error st r0 = Some df0 -> nth_error st' r0 = Some df0) /\
    nth_error st' r = Some df /\
    index df = cells /\
    Forall (fun row => PyDict.keys (cols row) = CLASSIFIER_COLUMNS) df /\
    forall row row',
      In row df -> In row' df ->
      class (idx row) = class (idx row') ->
      subclass (idx row) = subclass (idx row') ->
      cols row = cols row'.
Proof.
  intros H.
  assert (Hlt : area_cell_df < List.length st)
    by (apply nth_error_Some; congruence).
  exists (List.length st), (st ++ [map classified cells]),
    (map classified cells).
  split; [apply cell_meta_type_flags_rows, H |].
  split; [lia |].
  split; [rewrite nth_error_app1 by exact Hlt; exact H |].
  split.
  { intros r0 df0 H0. rewrite nth_error_app1; [exact H0 |].
    apply nth_error_Some. congruence. }
  split; [apply nth_error_new |].
  split; [rewrite index_rows; apply map_id |].
  split.
  - apply Forall_map, Forall_forall. intros c _. reflexivity.
  - intros row row' Hr Hr' Hc Hs.
    apply in_map_iff in Hr. destruct Hr as (c & <- & _).
    apply in_map_iff in Hr'. destruct Hr' as (c' & <- & _).
    apply classified_labels; assumption.
Qed.

Lemma cell_meta_type_flags_table_witness :
  exists (r : ref) (st' : store) (df : CellFrame),
    cell_meta_type_flags 0 [of_cells sample_cells] = Some (r, st') /\
    r <> 0 /\
    nth_error st' 0 = Some (of_cells sample_cells) /\
    (forall r0 df0, nth_error [of_cells sample_cells] r0 = Some df0 ->
                    nth_error st' r0 = Some df0) /\
    nth_error st' r = Some df /\
    index df = sample_cells /\
    Forall (fun row => PyDict.keys (cols row) = CLASSIFIER_COLUMNS) df /\
    forall row row',
      In row df -> In row' df ->
      class (idx row) = class (idx row') ->
      subclass (idx row) = subclass (idx row') ->
      cols row = cols row'.
Proof.
  apply (cell_meta_type_flags_table [of_cells sample_cells] 0 sample_cells).
  reflexivity.
Defined.
